(** * SignBot: the signing avatar and the gesture queue

    A shallow embedding of the two pipelines of the application:

    - [src/services/avatarService.ts]: text to keyframes, keyframe
      interpolation and the playback loop driven by [requestAnimationFrame];
    - [src/services/gestureRecognition.ts] and
      [src/components/VideoInput.tsx]: frame classification, the
      confidence gate, the deduplicated gesture queue and its conversion
      to text.

    A JavaScript [number] is modelled as a rational ([Q]); numeric
    comparison is comparison of rationals, and statements about computed
    coordinates are stated up to [==].  The arithmetic of [AvatarService]
    and [GestureRecognition] is exact, and what is stated of it is kept
    to what rounding does not change; where the rounding of IEEE doubles
    decides a statement, module [Double] gives the interpolation and the
    fallback pose with every operation rounded to the nearest double.
    [Math.random()] and [Date.now()] are inputs: the former is an oracle
    indexed by the number of draws made so far, the latter is carried by
    each event of the playback loop. *)

From Stdlib Require Import QArith Qround Lqa ZArith Lia List String Ascii Bool.
From Stdlib Require Import Sorted Permutation Floats.
Import ListNotations.

Open Scope Q_scope.

Definition number : Type := Q.

(** ** JavaScript values the code relies on *)

Module JS.

Open Scope string_scope.

(** [a > b], [a >= b], [a < b] and [a <= b] on numbers. *)
Definition leb (a b : number) : bool := Qle_bool a b.
Definition ltb (a b : number) : bool := negb (Qle_bool b a).
Definition geb (a b : number) : bool := leb b a.
Definition gtb (a b : number) : bool := ltb b a.

(** [String.prototype.toLowerCase], on the ASCII letters; other code
    units are kept as they are. *)
Definition lower_ascii (c : ascii) : ascii :=
  let n := nat_of_ascii c in
  if (Nat.leb 65 n && Nat.leb n 90)%bool then ascii_of_nat (n + 32) else c.

Fixpoint toLowerCase (s : string) : string :=
  match s with
  | EmptyString => EmptyString
  | String c s' => String (lower_ascii c) (toLowerCase s')
  end.

(** The texts on which [toLowerCase] above is the one of JavaScript:
    those made of ASCII characters only.  Outside them a character may
    fold to an ASCII letter (the Kelvin sign to "k"). *)
Fixpoint is_ascii (s : string) : bool :=
  match s with
  | EmptyString => true
  | String c s' => (Nat.ltb (nat_of_ascii c) 128 && is_ascii s')%bool
  end.

(** [s.split(' ')]: the pieces between single spaces, in order.  The
    result is never empty: the empty string splits into one empty
    piece. *)
Fixpoint split_from (cur : string) (s : string) : list string :=
  match s with
  | EmptyString => [cur]
  | String c s' =>
      if Ascii.eqb c " "%char then cur :: split_from EmptyString s'
      else split_from (cur ++ String c EmptyString) s'
  end.

Definition split_space (s : string) : list string := split_from EmptyString s.

(** [xs.join(' ')] on strings. *)
Fixpoint join_space (xs : list string) : string :=
  match xs with
  | [] => EmptyString
  | [s] => s
  | s :: rest => s ++ " " ++ join_space rest
  end.

(** [xs.includes(w)] on an array of strings. *)
Definition includes (xs : list string) (w : string) : bool :=
  existsb (String.eqb w) xs.

(** Property lookup [obj[key]] on an object literal.  An object literal
    has [Object.prototype] as its prototype, so a key that is not an own
    property is still found when it names one of the prototype's
    members. *)
Definition Object_prototype_keys : list string :=
  [ "constructor"; "__proto__"; "hasOwnProperty"; "isPrototypeOf";
    "propertyIsEnumerable"; "toLocaleString"; "toString"; "valueOf";
    "__defineGetter__"; "__defineSetter__";
    "__lookupGetter__"; "__lookupSetter__" ].

Inductive Lookup (A : Type) : Type :=
| Own (a : A)               (* an own property of the literal *)
| Inherited (key : string)  (* a member of Object.prototype *)
| Undefined.                (* undefined *)
Arguments Own {A} a.
Arguments Inherited {A} key.
Arguments Undefined {A}.

Fixpoint own_property {A : Type} (obj : list (string * A)) (key : string)
  : option A :=
  match obj with
  | [] => None
  | (k, v) :: rest => if String.eqb k key then Some v else own_property rest key
  end.

Definition get {A : Type} (obj : list (string * A)) (key : string) : Lookup A :=
  match own_property obj key with
  | Some v => Own v
  | None => if includes Object_prototype_keys key then Inherited key else Undefined
  end.

(** [String(v)] for a member of [Object.prototype]: [__proto__] is the
    prototype object itself, [constructor] is the function [Object], and
    every other member is a built-in function of that name (the text of
    a built-in function as V8 prints it). *)
Definition inherited_toString (key : string) : string :=
  if String.eqb key "__proto__" then "[object Object]"
  else
    let fname := if String.eqb key "constructor" then "Object" else key in
    "function " ++ fname ++ "() { [native code] }".

(** The number of spaces in a string. *)
Fixpoint count_spaces (s : string) : nat :=
  match s with
  | EmptyString => 0
  | String c s' => (if Ascii.eqb c " "%char then 1 else 0) + count_spaces s'
  end.

(** [Math.min(a, b)]. *)
Definition min (a b : number) : number := if leb a b then a else b.

(** [Math.max(a, b)]. *)
Definition max (a b : number) : number := if leb a b then b else a.

End JS.

(** ** src/types: the data model *)

Inductive Expression : Type := neutral | happy | questioning.

Record Limb : Type := { x : number; y : number; rotation : number }.

Record Head : Type := { head_rotation : number }.

(** The three pose fields a gesture contributes to a keyframe. *)
Record Gesture : Type := { leftArm : Limb; rightArm : Limb; head : Head }.

(** [AvatarKeyframe].  [pose] is [None] when the object has no [leftArm],
    [rightArm] and [head] fields at all, which is what spreading a value
    without own enumerable properties leaves behind. *)
Record AvatarKeyframe : Type := {
  timestamp : number;
  pose : option Gesture;
  expression : Expression
}.

Record AvatarAnimation : Type := {
  name : string;
  keyframes : list AvatarKeyframe;
  duration : number
}.

(** [GestureData]. *)
Record GestureData : Type := {
  landmarks : list (number * number);
  confidence : number;
  gesture : string
}.

(** ** src/services/avatarService.ts *)

Module AvatarService.

Open Scope string_scope.

Definition limb (px py prot : number) : Limb :=
  {| x := px; y := py; rotation := prot |}.

(** The literal pushed before the first and after the last word. *)
Definition neutral_pose : Gesture :=
  {| leftArm := limb 0 0 0; rightArm := limb 0 0 0;
     head := {| head_rotation := 0 |} |}.

Definition neutral_keyframe (t : number) : AvatarKeyframe :=
  {| timestamp := t; pose := Some neutral_pose; expression := neutral |}.

(** The [gestures] table of [getGestureForWord]. *)
Definition gestures : list (string * Gesture) :=
  [ ("hello", {| leftArm := limb (-30) (-20) 45;
                 rightArm := limb 30 (-20) (-45);
                 head := {| head_rotation := 0 |} |});
    ("help",  {| leftArm := limb 0 (-30) 0;
                 rightArm := limb 0 (-30) 0;
                 head := {| head_rotation := 5 |} |});
    ("thank", {| leftArm := limb (-20) (-10) 30;
                 rightArm := limb 20 (-10) (-30);
                 head := {| head_rotation := -5 |} |});
    ("you",   {| leftArm := limb 0 0 0;
                 rightArm := limb 15 (-15) (-20);
                 head := {| head_rotation := 0 |} |});
    ("good",  {| leftArm := limb (-25) (-25) 60;
                 rightArm := limb 25 (-25) (-60);
                 head := {| head_rotation := 0 |} |}) ].

Definition getExpressionForWord (word : string) : Expression :=
  if JS.includes ["good"; "great"; "wonderful"; "happy"; "thank"] word then happy
  else if JS.includes ["what"; "how"; "why"; "when"; "where"; "?"] word then questioning
  else neutral.

Section Synthesis.

(** [rand n] is the value of the [n]-th call of [Math.random()]; a
    function that draws threads the number of draws made so far. *)
Variable rand : nat -> number.

(** The object literal after [||], its seven draws taken in source
    order. *)
Definition random_gesture (r : nat) : Gesture :=
  {| leftArm := limb (rand r * 40 - 20)
                     (rand (r + 1) * 20 - 10)
                     (rand (r + 2) * 60 - 30);
     rightArm := limb (rand (r + 3) * 40 - 20)
                      (rand (r + 4) * 20 - 10)
                      (rand (r + 5) * 60 - 30);
     head := {| head_rotation := rand (r + 6) * 20 - 10 |} |}.

(** [gestures[word] || { ...random... }].  The result is spread into
    the keyframe, so what matters is the pose fields it carries: an
    inherited member of [Object.prototype] is truthy (no draw is made)
    and carries none. *)
Definition getGestureForWord (word : string) (r : nat) : option Gesture * nat :=
  match JS.get gestures word with
  | JS.Own g => (Some g, r)
  | JS.Inherited _ => (None, r)
  | JS.Undefined => (Some (random_gesture r), (r + 7)%nat)
  end.

(** The mutable locals of [textToAnimation] and the draw counter. *)
Record Synth : Type := {
  currentTime : number;
  frames : list AvatarKeyframe;
  draws : nat
}.

(** The body of [words.forEach]. *)
Definition word_step (st : Synth) (word : string) : Synth :=
  let t := currentTime st + 500 in
  let (g, r) := getGestureForWord word (draws st) in
  {| currentTime := t;
     frames := frames st ++
               [ {| timestamp := t; pose := g;
                    expression := getExpressionForWord word |} ];
     draws := r |}.

Definition textToAnimation (text : string) (r : nat) : AvatarAnimation * nat :=
  let words := JS.split_space (JS.toLowerCase text) in
  let st0 := {| currentTime := 0; frames := [neutral_keyframe 0]; draws := r |} in
  let st1 := fold_left word_step words st0 in
  let t := currentTime st1 + 500 in
  ({| name := "text-response";
      keyframes := frames st1 ++ [neutral_keyframe t];
      duration := t |},
   draws st1).

End Synthesis.

(** The clock values [t + 500], [t + 1000], ..., [t + 500 * n]: what
    [n] rounds of [currentTime += 500] write, starting from [t]. *)
Definition ticks_from (t : Z) (n : nat) : list number :=
  map (fun k : nat => inject_Z (t + 500 * Z.of_nat (S k))) (seq 0 n).

(** The ranges of the out-of-vocabulary pose. *)
Definition limb_in_fallback_range (l : Limb) : Prop :=
  (-20 <= x l /\ x l < 20) /\ (-10 <= y l /\ y l < 10)
  /\ (-30 <= rotation l /\ rotation l < 30).

Definition in_fallback_range (g : Gesture) : Prop :=
  limb_in_fallback_range (leftArm g) /\ limb_in_fallback_range (rightArm g)
  /\ (-10 <= head_rotation (head g) /\ head_rotation (head g) < 10).

(** *** Interpolation *)

(** The [for] loop of [interpolatePose]: the first adjacent pair whose
    timestamps bracket [elapsed], if any. *)
Fixpoint find_bracket (elapsed : number) (kfs : list AvatarKeyframe)
  : option (AvatarKeyframe * AvatarKeyframe) :=
  match kfs with
  | k0 :: ((k1 :: _) as rest) =>
      if (JS.geb elapsed (timestamp k0) && JS.leb elapsed (timestamp k1))%bool
      then Some (k0, k1)
      else find_bracket elapsed rest
  | _ => None
  end.

Definition lerp (a b progress : number) : number := a + (b - a) * progress.

Definition lerp_limb (a b : Limb) (progress : number) : Limb :=
  {| x := lerp (x a) (x b) progress;
     y := lerp (y a) (y b) progress;
     rotation := lerp (rotation a) (rotation b) progress |}.

Definition lerp_gesture (p n : Gesture) (progress : number) : Gesture :=
  {| leftArm := lerp_limb (leftArm p) (leftArm n) progress;
     rightArm := lerp_limb (rightArm p) (rightArm n) progress;
     head := {| head_rotation :=
                  lerp (head_rotation (head p)) (head_rotation (head n))
                       progress |} |}.

(** [progress], from the bracketing pair. *)
Definition progress_of (prevFrame nextFrame : AvatarKeyframe) (elapsed : number)
  : number :=
  let d := timestamp nextFrame - timestamp prevFrame in
  if JS.gtb d 0 then (elapsed - timestamp prevFrame) / d else 0.

(** The pair the interpolation works on: the bracket found by the loop,
    else the first and the last keyframe.  [None] when there is no
    keyframe at all. *)
Definition surrounding (kfs : list AvatarKeyframe) (elapsed : number)
  : option (AvatarKeyframe * AvatarKeyframe) :=
  match kfs with
  | [] => None
  | k0 :: _ =>
      match find_bracket elapsed kfs with
      | Some b => Some b
      | None => Some (k0, last kfs k0)
      end
  end.

(** [interpolatePose].  [None] stands for the [TypeError] raised by
    reading a field of [null] or [undefined]: no current animation, no
    keyframe, or a bracketing keyframe without pose fields. *)
Definition interpolatePose (currentAnimation : option AvatarAnimation)
    (elapsed : number) : option AvatarKeyframe :=
  match currentAnimation with
  | None => None
  | Some a =>
      match surrounding (keyframes a) elapsed with
      | None => None
      | Some (prevFrame, nextFrame) =>
          let progress := progress_of prevFrame nextFrame elapsed in
          match pose prevFrame, pose nextFrame with
          | Some p, Some n =>
              Some {| timestamp := elapsed;
                      pose := Some (lerp_gesture p n progress);
                      expression := if JS.ltb progress 0.5
                                    then expression prevFrame
                                    else expression nextFrame |}
          | _, _ => None
          end
      end
  end.

(** Equality of poses as numbers. *)
Definition limb_eq (a b : Limb) : Prop :=
  x a == x b /\ y a == y b /\ rotation a == rotation b.

Definition gesture_eq (g h : Gesture) : Prop :=
  limb_eq (leftArm g) (leftArm h) /\ limb_eq (rightArm g) (rightArm h)
  /\ head_rotation (head g) == head_rotation (head h).

Definition mean (a b : number) : number := (a + b) / 2.

Definition limb_mean (a b : Limb) : Limb :=
  {| x := mean (x a) (x b); y := mean (y a) (y b);
     rotation := mean (rotation a) (rotation b) |}.

Definition gesture_mean (g h : Gesture) : Gesture :=
  {| leftArm := limb_mean (leftArm g) (leftArm h);
     rightArm := limb_mean (rightArm g) (rightArm h);
     head := {| head_rotation :=
                  mean (head_rotation (head g)) (head_rotation (head h)) |} |}.

Definition keyframe_eq (k h : AvatarKeyframe) : Prop :=
  timestamp k == timestamp h
  /\ expression k = expression h
  /\ match pose k, pose h with
     | Some g, Some g' => gesture_eq g g'
     | None, None => True
     | _, _ => False
     end.

(** An animation as the data model wants it: at least two keyframes,
    every keyframe with its pose fields, timestamps that never
    decrease, the first of them 0. *)
Definition well_formed (a : AvatarAnimation) : Prop :=
  (2 <= List.length (keyframes a))%nat
  /\ Forall (fun k => pose k <> None) (keyframes a)
  /\ StronglySorted Qle (map timestamp (keyframes a))
  /\ (forall k, hd_error (keyframes a) = Some k -> timestamp k == 0).

(** *** Playback *)

(** The fields of the [AvatarService] object.  [canvasReady] says that
    [this.canvas] and [this.ctx] are both set. *)
Record Service : Type := {
  canvasReady : bool;
  currentAnimation : option AvatarAnimation;
  animationStartTime : number;
  isAnimating : bool
}.

(** One call of [drawAvatar]: the [animate] closure that made it, the
    elapsed time it rendered and the pose it was given. *)
Record Render : Type := {
  by_loop : nat;
  at_elapsed : number;
  drawn : AvatarKeyframe
}.

(** The service together with the part of the browser it talks to.  Each
    call of [playAnimation] creates one [animate] closure; closures are
    numbered by the order of the calls.  [scheduled] holds the closures
    handed to [requestAnimationFrame] and not yet run, oldest first. *)
Record World : Type := {
  service : Service;
  calls : nat;
  scheduled : list nat;
  settled : list nat;    (* promises whose [resolve] was called *)
  thrown : list nat;     (* closures ended by an uncaught TypeError *)
  renders : list Render  (* oldest first *)
}.

Definition initial : World :=
  {| service := {| canvasReady := false; currentAnimation := None;
                   animationStartTime := 0; isAnimating := false |};
     calls := 0; scheduled := []; settled := []; thrown := []; renders := [] |}.

Definition with_service (w : World) (s : Service) : World :=
  {| service := s; calls := calls w; scheduled := scheduled w;
     settled := settled w; thrown := thrown w; renders := renders w |}.

Definition set_isAnimating (s : Service) (b : bool) : Service :=
  {| canvasReady := canvasReady s; currentAnimation := currentAnimation s;
     animationStartTime := animationStartTime s; isAnimating := b |}.

(** [initialize(canvas)]; [ctx_ok] says whether [getContext('2d')]
    returned a context. *)
Definition initialize (ctx_ok : bool) (w : World) : World :=
  with_service w
    {| canvasReady := ctx_ok;
       currentAnimation := currentAnimation (service w);
       animationStartTime := animationStartTime (service w);
       isAnimating := isAnimating (service w) |}.

Definition resolve (id : nat) (w : World) : World :=
  {| service := service w; calls := calls w; scheduled := scheduled w;
     settled := settled w ++ [id]; thrown := thrown w; renders := renders w |}.

Definition requestAnimationFrame (id : nat) (w : World) : World :=
  {| service := service w; calls := calls w; scheduled := scheduled w ++ [id];
     settled := settled w; thrown := thrown w; renders := renders w |}.

Definition throw (id : nat) (w : World) : World :=
  {| service := service w; calls := calls w; scheduled := scheduled w;
     settled := settled w; thrown := thrown w ++ [id]; renders := renders w |}.

Definition drawAvatar (id : nat) (elapsed : number) (p : AvatarKeyframe)
    (w : World) : World :=
  {| service := service w; calls := calls w; scheduled := scheduled w;
     settled := settled w; thrown := thrown w;
     renders := renders w ++ [ {| by_loop := id; at_elapsed := elapsed; drawn := p |} ] |}.

(** [renderFrame(elapsed)], called from closure [id]: [None] when
    [interpolatePose] throws. *)
Definition renderFrame (id : nat) (elapsed : number) (w : World) : option World :=
  let s := service w in
  match canvasReady s, currentAnimation s with
  | true, Some _ =>
      match interpolatePose (currentAnimation s) elapsed with
      | Some p => Some (drawAvatar id elapsed p w)
      | None => None
      end
  | _, _ => Some w
  end.

(** One run of the closure [animate] created by the [id]-th call of
    [playAnimation], with [Date.now()] returning [now]. *)
Definition animate (id : nat) (now : number) (w : World) : World :=
  let s := service w in
  match isAnimating s, currentAnimation s with
  | true, Some a =>
      let elapsed := now - animationStartTime s in
      if JS.geb elapsed (duration a)
      then resolve id (with_service w (set_isAnimating s false))
      else match renderFrame id elapsed w with
           | Some w' => requestAnimationFrame id w'
           | None => throw id w
           end
  | _, _ => resolve id w
  end.

(** [playAnimation(animation)].  [Date.now()] is read twice: [started]
    is the value stored in [animationStartTime], [now] the value seen by
    the first run of [animate]. *)
Definition playAnimation (animation : AvatarAnimation) (started now : number)
    (w : World) : World :=
  let id := calls w in
  animate id now
    {| service := {| canvasReady := canvasReady (service w);
                     currentAnimation := Some animation;
                     animationStartTime := started;
                     isAnimating := true |};
       calls := S id; scheduled := scheduled w; settled := settled w;
       thrown := thrown w; renders := renders w |}.

(** [animateText(text)], with the draw counter threaded through. *)
Definition animateText (rand : nat -> number) (text : string) (r : nat)
    (started now : number) (w : World) : World * nat :=
  if canvasReady (service w) then
    let (animation, r') := textToAnimation rand text r in
    (playAnimation animation started now w, r')
  else (w, r).

Definition stopAnimation (w : World) : World :=
  with_service w (set_isAnimating (service w) false).

(** What can happen between two turns of the event loop. *)
Inductive Event : Type :=
| Play (animation : AvatarAnimation) (started now : number)
| Frame (now : number)   (* the oldest scheduled callback runs *)
| Stop.

Definition pop_scheduled (w : World) : World :=
  {| service := service w; calls := calls w; scheduled := tl (scheduled w);
     settled := settled w; thrown := thrown w; renders := renders w |}.

Definition step (w : World) (e : Event) : World :=
  match e with
  | Play a started now => playAnimation a started now w
  | Frame now =>
      match scheduled w with
      | [] => w
      | id :: _ => animate id now (pop_scheduled w)
      end
  | Stop => stopAnimation w
  end.

Definition run (w : World) (es : list Event) : World := fold_left step es w.

Definition is_play (e : Event) : bool :=
  match e with Play _ _ _ => true | _ => false end.

(** The pose handed to [drawAvatar] was interpolated from [a]. *)
Definition rendered_from (a : AvatarAnimation) (r : Render) : Prop :=
  interpolatePose (Some a) (at_elapsed r) = Some (drawn r).

(** The reading of "starting a new animation first stops the previous
    one": no callback scheduled by an earlier playback is still
    scheduled once the new playback has begun. *)
Definition previous_stopped (before after : World) : Prop :=
  forall id, In id (scheduled before) -> ~ In id (scheduled after).

(** The frames drawn so far by the closure [id]. *)
Definition renders_by (id : nat) (w : World) : list Render :=
  filter (fun r => Nat.eqb (by_loop r) id) (renders w).

(** The reading of "once stop() has been called no further render
    callbacks are issued, including by ticks that were already scheduled
    before the stop": whatever happens after the stop, a callback that
    was scheduled when [stopAnimation] was called draws nothing more. *)
Definition stop_is_final (w : World) : Prop :=
  forall (es : list Event) (id : nat),
    In id (scheduled w) ->
    renders_by id (run (stopAnimation w) es) = renders_by id w.

(** Worlds used as examples: the canvas is set up, "hello" starts playing
    at time 0, and "help" is started at time 100 while "hello" is still
    running.  Both words are tabled, so no random draw is made. *)
Definition no_draw : nat -> number := fun _ => 0.

Definition hello_animation : AvatarAnimation :=
  fst (textToAnimation no_draw "hello" 0).

Definition help_animation : AvatarAnimation :=
  fst (textToAnimation no_draw "help" 0).

Definition playing_hello : World :=
  playAnimation hello_animation 0 0 (initialize true initial).

Definition playing_help_over_hello : World :=
  playAnimation help_animation 100 100 playing_hello.

(** [c] is on the side of [a] on which [b] is: not below [a] when [b]
    is not, not above [a] when [b] is not, and equal to [a] when [b]
    is. *)
Definition toward (a b c : number) : Prop :=
  (a <= b -> a <= c) /\ (b <= a -> c <= a).

Definition limb_toward (a b c : Limb) : Prop :=
  toward (x a) (x b) (x c) /\ toward (y a) (y b) (y c)
  /\ toward (rotation a) (rotation b) (rotation c).

Definition gesture_toward (g h k : Gesture) : Prop :=
  limb_toward (leftArm g) (leftArm h) (leftArm k)
  /\ limb_toward (rightArm g) (rightArm h) (rightArm k)
  /\ toward (head_rotation (head g)) (head_rotation (head h))
            (head_rotation (head k)).

(** The second keyframe of [hello_animation]. *)
Definition hello_keyframe : AvatarKeyframe :=
  {| timestamp := 500;
     pose := Some {| leftArm := limb (-30) (-20) 45;
                     rightArm := limb 30 (-20) (-45);
                     head := {| head_rotation := 0 |} |};
     expression := neutral |}.

(** The box every tabled and every random pose lies in. *)
Definition limb_bounded (l : Limb) : Prop :=
  (-30 <= x l /\ x l <= 30) /\ (-30 <= y l /\ y l <= 10)
  /\ (-60 <= rotation l /\ rotation l <= 60).

Definition gesture_bounded (g : Gesture) : Prop :=
  limb_bounded (leftArm g) /\ limb_bounded (rightArm g)
  /\ (-10 <= head_rotation (head g) /\ head_rotation (head g) <= 10).

Definition keyframe_bounded (k : AvatarKeyframe) : Prop :=
  match pose k with
  | Some g => gesture_bounded g
  | None => True
  end.




(** A word that makes [getGestureForWord] draw: neither tabled nor the
    name of a member of [Object.prototype]. *)
Definition draws_random (word : string) : bool :=
  match JS.get gestures word with
  | JS.Undefined => true
  | _ => false
  end.

(** The words of a text, as [textToAnimation] sees them. *)
Definition words_of (text : string) : list string :=
  JS.split_space (JS.toLowerCase text).

(** Every closure created so far is in exactly one place: waiting in
    [requestAnimationFrame], resolved, or ended by an exception. *)
Definition accounted (w : World) : Prop :=
  Permutation (scheduled w ++ settled w ++ thrown w) (seq 0 (calls w)).

End AvatarService.

(** ** Double arithmetic

    The interpolation and the fallback pose once more, with every
    arithmetic operation rounded as the code rounds it: a double is a
    rational with a 53-bit significand, and an operation on doubles is
    the exact operation followed by rounding to the nearest double, ties
    to the even significand.  Comparisons are exact.  Overflow, underflow
    and the sign of zero are not modelled; the timestamps and poses of
    the program stay far from the first two. *)

Module Double.

Import AvatarService.

(** The exponent [e] with [2 ^ e <= q < 2 ^ (e + 1)], for [q > 0]. *)
Definition ilog2 (q : Q) : Z :=
  let e0 := (Z.log2 (Qnum q) - Z.log2 (Zpos (Qden q)))%Z in
  if Qle_bool (Qpower 2 e0) q then e0 else (e0 - 1)%Z.

Definition round_half_even (q : Q) : Z :=
  let f := Qfloor q in
  match Qcompare (q - inject_Z f) (1 # 2) with
  | Lt => f
  | Gt => (f + 1)%Z
  | Eq => if Z.even f then f else (f + 1)%Z
  end.

Definition round_pos (q : Q) : Q :=
  let e := ilog2 q in
  Qred (inject_Z (round_half_even (q * Qpower 2 (52 - e))) * Qpower 2 (e - 52)).

(** The double nearest to [q]. *)
Definition round (q : Q) : Q :=
  let c := Qred q in
  match Qnum c with
  | Z0 => 0
  | Zpos _ => round_pos c
  | Zneg _ => - round_pos (- c)
  end.

Definition is_double (q : number) : Prop := round q == q.

Definition add (a b : number) : number := round (a + b).
Definition sub (a b : number) : number := round (a - b).
Definition mul (a b : number) : number := round (a * b).
Definition div (a b : number) : number := round (a / b).

(** The value of one of the kernel's binary64 floats, when it is finite. *)
Definition of_float (f : float) : option Q :=
  match Prim2SF f with
  | S754_zero _ => Some 0
  | S754_finite s m e =>
      Some (Qred (inject_Z (if s then Z.neg m else Z.pos m) * Qpower 2 e))
  | _ => None
  end.

(** [prev + (next - prev) * progress], as written in [interpolatePose]. *)
Definition lerp (a b progress : number) : number :=
  add a (mul (sub b a) progress).

Definition lerp_limb (a b : Limb) (progress : number) : Limb :=
  {| x := lerp (x a) (x b) progress;
     y := lerp (y a) (y b) progress;
     rotation := lerp (rotation a) (rotation b) progress |}.

Definition lerp_gesture (p n : Gesture) (progress : number) : Gesture :=
  {| leftArm := lerp_limb (leftArm p) (leftArm n) progress;
     rightArm := lerp_limb (rightArm p) (rightArm n) progress;
     head := {| head_rotation :=
                  lerp (head_rotation (head p)) (head_rotation (head n))
                       progress |} |}.

Definition progress_of (prevFrame nextFrame : AvatarKeyframe) (elapsed : number)
  : number :=
  let d := sub (timestamp nextFrame) (timestamp prevFrame) in
  if JS.gtb d 0 then div (sub elapsed (timestamp prevFrame)) d else 0.

(** [interpolatePose], the search for the surrounding pair being the one
    of [AvatarService]. *)
Definition interpolatePose (currentAnimation : option AvatarAnimation)
    (elapsed : number) : option AvatarKeyframe :=
  match currentAnimation with
  | None => None
  | Some a =>
      match surrounding (keyframes a) elapsed with
      | None => None
      | Some (prevFrame, nextFrame) =>
          let progress := progress_of prevFrame nextFrame elapsed in
          match pose prevFrame, pose nextFrame with
          | Some p, Some n =>
              Some {| timestamp := elapsed;
                      pose := Some (lerp_gesture p n progress);
                      expression := if JS.ltb progress 0.5
                                    then expression prevFrame
                                    else expression nextFrame |}
          | _, _ => None
          end
      end
  end.

Section Synthesis.

Variable rand : nat -> number.

Definition random_gesture (r : nat) : Gesture :=
  {| leftArm := limb (sub (mul (rand r) 40) 20)
                     (sub (mul (rand (r + 1)) 20) 10)
                     (sub (mul (rand (r + 2)) 60) 30);
     rightArm := limb (sub (mul (rand (r + 3)) 40) 20)
                      (sub (mul (rand (r + 4)) 20) 10)
                      (sub (mul (rand (r + 5)) 60) 30);
     head := {| head_rotation := sub (mul (rand (r + 6)) 20) 10 |} |}.

Definition getGestureForWord (word : string) (r : nat) : option Gesture * nat :=
  match JS.get gestures word with
  | JS.Own g => (Some g, r)
  | JS.Inherited _ => (None, r)
  | JS.Undefined => (Some (random_gesture r), (r + 7)%nat)
  end.

Definition word_step (st : Synth) (word : string) : Synth :=
  let t := add (currentTime st) 500 in
  let (g, r) := getGestureForWord word (draws st) in
  {| currentTime := t;
     frames := frames st ++
               [ {| timestamp := t; pose := g;
                    expression := getExpressionForWord word |} ];
     draws := r |}.

Definition textToAnimation (text : string) (r : nat) : AvatarAnimation * nat :=
  let words := JS.split_space (JS.toLowerCase text) in
  let st0 := {| currentTime := 0; frames := [neutral_keyframe 0]; draws := r |} in
  let st1 := fold_left word_step words st0 in
  let t := add (currentTime st1) 500 in
  ({| name := "text-response";
      keyframes := frames st1 ++ [neutral_keyframe t];
      duration := t |},
   draws st1).

End Synthesis.

(** The numbers of a keyframe are doubles. *)
Definition limb_is_double (l : Limb) : Prop :=
  is_double (x l) /\ is_double (y l) /\ is_double (rotation l).

Definition gesture_is_double (g : Gesture) : Prop :=
  limb_is_double (leftArm g) /\ limb_is_double (rightArm g)
  /\ is_double (head_rotation (head g)).

Definition keyframe_is_double (k : AvatarKeyframe) : Prop :=
  is_double (timestamp k)
  /\ match pose k with
     | Some g => gesture_is_double g
     | None => True
     end.

(** Two values [Math.random()] can return, as the kernel's floats and as
    rationals, and a run of draws that returns the first at draw 0, the
    second at draw 7 and one half elsewhere: with the text "foo bar" they
    are the draws behind [leftArm.x] of the two words. *)
Definition draw_foo_float : float := 0x1.870d778409f13p-1%float.
Definition draw_bar_float : float := 0x1.0530d08f17f5cp-2%float.

Definition draw_foo : number := 6879470178836243 # 9007199254740992.
Definition draw_bar : number := 1148728769273815 # 4503599627370496.

Definition foo_bar_draws (n : nat) : number :=
  match n with
  | 0%nat => draw_foo
  | 7%nat => draw_bar
  | _ => 1 # 2
  end.

Definition foo_bar_animation : AvatarAnimation :=
  fst (textToAnimation foo_bar_draws "foo bar" 0).

End Double.

(** ** src/services/gestureRecognition.ts *)

Module GestureRecognition.

Open Scope string_scope.

(** The fields of [GestureRecognitionService].  The demo model carries
    no data the claims depend on, so [model] records only whether it is
    set; [initializationPromise] likewise. *)
Record Service : Type := {
  model : bool;
  initialized : bool;
  initializationPromise : bool
}.

Definition fresh : Service :=
  {| model := false; initialized := false; initializationPromise := false |}.

(** What a call of [initialize] does before it returns its promise. *)
Inductive InitCall : Type :=
| AlreadyInitialized   (* returns at once *)
| SharesPending        (* returns the promise of the call in flight *)
| Started.             (* stores and returns the promise of [doInitialize] *)

Definition initialize (s : Service) : Service * InitCall :=
  if initialized s then (s, AlreadyInitialized)
  else if initializationPromise s then (s, SharesPending)
  else ({| model := model s; initialized := initialized s;
           initializationPromise := true |}, Started).

(** The end of [doInitialize]; [setup_ok] says whether [tf.ready()] and
    [createDemoModel()] succeeded.  On success the model and the flag are
    set in one turn; on failure the stored promise is dropped and the
    error is rethrown. *)
Definition doInitialize (setup_ok : bool) (s : Service) : Service :=
  if setup_ok
  then {| model := true; initialized := true;
          initializationPromise := initializationPromise s |}
  else {| model := model s; initialized := initialized s;
          initializationPromise := false |}.

(** A whole initialization from the fresh service. *)
Definition initialized_service (setup_ok : bool) : Service :=
  doInitialize setup_ok (fst (initialize fresh)).

Definition isInitialized (s : Service) : bool := initialized s.

(** What [processFrame] needs of the [HTMLVideoElement]. *)
Record Video : Type := {
  videoWidth : number;
  videoHeight : number;
  width : number;
  height : number
}.

(** The outcome of the async [processFrame]: the promise rejects with
    an [Error], or it resolves with a sample or [null]. *)
Inductive Outcome : Type :=
| Rejected (message : string)
| Resolved (data : option GestureData).

Definition labels : list string :=
  [ "hello"; "thank you"; "please"; "yes"; "no";
    "help"; "good"; "bad"; "more"; "stop" ].

Section Classifier.

Variable rand : nat -> number.      (* Math.random(), by draw *)
Variables Math_sin Math_cos : number -> number.
Variable Math_PI : number.

(** [extractHandLandmarks]; [now] is [Date.now()]. *)
Definition extractHandLandmarks (v : Video) (now : number)
  : list (number * number) :=
  let time := now * 0.001 in
  map (fun i : nat =>
         let i := inject_Z (Z.of_nat i) in
         let baseX := width v * 0.5 in
         let baseY := height v * 0.5 in
         let radius := 50 + Math_sin (time + i) * 20 in
         let angle := (i / 21) * Math_PI * 2 + time * 0.5 in
         (baseX + Math_cos angle * radius, baseY + Math_sin angle * radius))
      (seq 0 21).

(** [simulateGestureRecognition]: one draw.  [Math.random()] lies in
    [0, 1), which keeps the index inside the array. *)
Definition simulateGestureRecognition (lm : list (number * number)) (r : nat)
  : string * nat :=
  let gestureIndex := Qfloor (rand r * inject_Z (Z.of_nat (List.length labels))) in
  (nth (Z.to_nat gestureIndex) labels "", S r).

(** [processFrame(videoElement)]. *)
Definition processFrame (s : Service) (v : Video) (now : number) (r : nat)
  : Outcome * nat :=
  if (negb (initialized s) || negb (model s))%bool
  then (Rejected "Gesture recognition not initialized", r)
  else if (Qeq_bool (videoWidth v) 0 || Qeq_bool (videoHeight v) 0)%bool
  then (Resolved None, r)
  else
    let lm := extractHandLandmarks v now in
    let (g, r1) := simulateGestureRecognition lm r in
    (Resolved (Some {| landmarks := lm;
                       confidence := rand r1 * 0.4 + 0.6;
                       gesture := g |}),
     S r1).

End Classifier.

(** The [gestureMap] table of [convertGestureToText]. *)
Definition gestureMap : list (string * string) :=
  [ ("hello", "Hello"); ("thank you", "Thank you"); ("please", "Please");
    ("yes", "Yes"); ("no", "No"); ("help", "I need help");
    ("good", "Good"); ("bad", "Bad"); ("more", "More"); ("stop", "Stop") ].

(** [gestureMap[gesture] || gesture], as [join] prints it.  Every own
    value is a non-empty string and every inherited member is an object
    or a function, so [||] falls through only on [undefined]. *)
Definition display (gesture : string) : string :=
  match JS.get gestureMap gesture with
  | JS.Own phrase => phrase
  | JS.Inherited key => JS.inherited_toString key
  | JS.Undefined => gesture
  end.

Definition convertGestureToText (gestures : list string) : string :=
  JS.join_space (map display gestures).

(** A frame of a camera that is running. *)
Definition frame_640_480 : Video :=
  {| videoWidth := 640; videoHeight := 480; width := 640; height := 480 |}.

(** What moves the initialization forward: a call of [initialize], and
    the end of a [doInitialize]. *)
Inductive InitOp : Type :=
| CallInitialize
| Settle (setup_ok : bool).

Definition init_apply (s : Service) (o : InitOp) : Service :=
  match o with
  | CallInitialize => fst (initialize s)
  | Settle setup_ok => doInitialize setup_ok s
  end.

Definition init_run (s : Service) (ops : list InitOp) : Service :=
  fold_left init_apply ops s.

End GestureRecognition.

(** ** src/components/VideoInput.tsx *)

Module VideoInput.

Open Scope string_scope.

(** The message handed to [addMessage]. *)
Record Message : Type := {
  type : string;
  content : string;
  inputMethod : string
}.

(** The state the recording session reads and writes: the [gestureQueue]
    of the component and the store's [isRecording], [currentGesture],
    [isProcessing] and [messages]. *)
Record State : Type := {
  isRecording : bool;
  currentGesture : option string;
  isProcessing : bool;
  trackingData : option GestureData;
  gestureQueue : list string;
  messages : list Message
}.

Definition initial : State :=
  {| isRecording := false; currentGesture := None; isProcessing := false;
     trackingData := None; gestureQueue := []; messages := [] |}.

(** The updater passed to [setGestureQueue] in [processFrame]. *)
Definition enqueue (prev : list string) (g : string) : list string :=
  match rev prev with
  | [] => prev ++ [g]
  | lastEntry :: _ => if String.eqb lastEntry g then prev else prev ++ [g]
  end.

(** What [processFrame] does with the classifier's answer: the tracking
    data is always replaced, the gesture and the queue only past the
    confidence test. *)
Definition submit (gestureData : option GestureData) (s : State) : State :=
  match gestureData with
  | Some d =>
      if JS.gtb (confidence d) 0.7
      then {| isRecording := isRecording s;
              currentGesture := Some (gesture d);
              isProcessing := isProcessing s;
              trackingData := gestureData;
              gestureQueue := enqueue (gestureQueue s) (gesture d);
              messages := messages s |}
      else {| isRecording := isRecording s; currentGesture := currentGesture s;
              isProcessing := isProcessing s; trackingData := gestureData;
              gestureQueue := gestureQueue s; messages := messages s |}
  | None =>
      {| isRecording := isRecording s; currentGesture := currentGesture s;
         isProcessing := isProcessing s; trackingData := None;
         gestureQueue := gestureQueue s; messages := messages s |}
  end.

(** [startRecording], the camera apart. *)
Definition startRecording (s : State) : State :=
  {| isRecording := true; currentGesture := currentGesture s;
     isProcessing := isProcessing s; trackingData := trackingData s;
     gestureQueue := []; messages := messages s |}.

(** [stopRecording]. *)
Definition stopRecording (s : State) : State :=
  match gestureQueue s with
  | [] =>
      {| isRecording := false; currentGesture := None;
         isProcessing := isProcessing s; trackingData := trackingData s;
         gestureQueue := gestureQueue s; messages := messages s |}
  | _ :: _ =>
      let recognizedText :=
        GestureRecognition.convertGestureToText (gestureQueue s) in
      {| isRecording := false; currentGesture := None;
         isProcessing := false; trackingData := trackingData s;
         gestureQueue := [];
         messages := messages s ++
                     [ {| type := "user"; content := recognizedText;
                          inputMethod := "sign" |} ] |}
  end.

(** The text a stop hands over: the content of the messages it adds. *)
Definition stop_text (s : State) : string :=
  JS.join_space
    (map content (skipn (List.length (messages s)) (messages (stopRecording s)))).

Inductive Op : Type :=
| Start
| Submit (gestureData : option GestureData)
| StopOp.

Definition apply (s : State) (o : Op) : State :=
  match o with
  | Start => startRecording s
  | Submit d => submit d s
  | StopOp => stopRecording s
  end.

Definition run (s : State) (ops : list Op) : State := fold_left apply ops s.

(** No two neighbours of the list are equal. *)
Fixpoint no_adjacent_dup (q : list string) : Prop :=
  match q with
  | a :: ((b :: _) as rest) => a <> b /\ no_adjacent_dup rest
  | _ => True
  end.

(** A sample with the given label and confidence. *)
Definition sample (label : string) (c : number) : GestureData :=
  {| landmarks := []; confidence := c; gesture := label |}.

(** The gate as the specification words it: a sample is dropped when
    its confidence is below the threshold, and admitted otherwise. *)
Definition ConfidenceThreshold : number := 0.7.

Definition submit_as_specified (gestureData : option GestureData)
    (q : list string) : list string :=
  match gestureData with
  | None => q
  | Some d =>
      if JS.ltb (confidence d) ConfidenceThreshold then q
      else enqueue q (gesture d)
  end.

(** A list with every run of equal neighbours collapsed to one entry. *)
Fixpoint compress (l : list string) : list string :=
  match l with
  | a :: ((b :: _) as rest) =>
      if String.eqb a b then compress rest else a :: compress rest
  | _ => l
  end.

(** The labels of the samples that pass the confidence test, in order. *)
Fixpoint admitted (ds : list (option GestureData)) : list string :=
  match ds with
  | [] => []
  | Some d :: rest =>
      if JS.gtb (confidence d) 0.7 then gesture d :: admitted rest
      else admitted rest
  | None :: rest => admitted rest
  end.

Definition is_stop (o : Op) : bool :=
  match o with StopOp => true | _ => false end.

(** The labels an operation submits. *)
Definition submitted_label (o : Op) : option string :=
  match o with
  | Submit (Some d) => Some (gesture d)
  | _ => None
  end.

End VideoInput.

(** ** The 2D canvas context

    The calls the two drawing modules make on a
    [CanvasRenderingContext2D], and what they do to its drawing state:
    the transformation, the styles and the stack of saved states.  What
    they paint is not modelled. *)

Module Canvas.

Inductive Op : Type :=
| Save
| Restore
| Translate (tx ty : number)
| Scale (sx sy : number)
| Rotate (angle : number)
| SetFillStyle (style : string)
| SetStrokeStyle (style : string)
| SetLineWidth (lw : number)
| SetGlobalAlpha (alpha : number)
| SetFont (font : string)
| BeginPath
| MoveTo (px py : number)
| LineTo (px py : number)
| Arc (cx cy radius startAngle endAngle : number)
| Fill
| Stroke
| FillRect (rx ry rw rh : number)
| ClearRect (rx ry rw rh : number)
| FillText (text : string) (tx ty : number).

(** The drawing state that [save] pushes and [restore] pops.  The
    transformation is kept as the list of the transformations applied so
    far, newest first. *)
Record DrawState : Type := {
  transform : list Op;
  fillStyle : string;
  strokeStyle : string;
  lineWidth : number;
  globalAlpha : number;
  font : string
}.

Record Context : Type := {
  current : DrawState;
  saved : list DrawState
}.

Definition with_current (c : Context) (d : DrawState) : Context :=
  {| current := d; saved := saved c |}.

(** One call.  [restore] with nothing saved does nothing. *)
Definition exec (c : Context) (o : Op) : Context :=
  let d := current c in
  match o with
  | Save => {| current := d; saved := d :: saved c |}
  | Restore =>
      match saved c with
      | [] => c
      | top :: below => {| current := top; saved := below |}
      end
  | Translate _ _ | Scale _ _ | Rotate _ =>
      with_current c
        {| transform := o :: transform d; fillStyle := fillStyle d;
           strokeStyle := strokeStyle d; lineWidth := lineWidth d;
           globalAlpha := globalAlpha d; font := font d |}
  | SetFillStyle v =>
      with_current c
        {| transform := transform d; fillStyle := v;
           strokeStyle := strokeStyle d; lineWidth := lineWidth d;
           globalAlpha := globalAlpha d; font := font d |}
  | SetStrokeStyle v =>
      with_current c
        {| transform := transform d; fillStyle := fillStyle d;
           strokeStyle := v; lineWidth := lineWidth d;
           globalAlpha := globalAlpha d; font := font d |}
  | SetLineWidth v =>
      with_current c
        {| transform := transform d; fillStyle := fillStyle d;
           strokeStyle := strokeStyle d; lineWidth := v;
           globalAlpha := globalAlpha d; font := font d |}
  | SetGlobalAlpha v =>
      with_current c
        {| transform := transform d; fillStyle := fillStyle d;
           strokeStyle := strokeStyle d; lineWidth := lineWidth d;
           globalAlpha := v; font := font d |}
  | SetFont v =>
      with_current c
        {| transform := transform d; fillStyle := fillStyle d;
           strokeStyle := strokeStyle d; lineWidth := lineWidth d;
           globalAlpha := globalAlpha d; font := v |}
  | _ => c
  end.

Definition exec_all (c : Context) (ops : list Op) : Context :=
  fold_left exec ops c.

Definition is_stroke (o : Op) : bool :=
  match o with Stroke => true | _ => false end.

Definition is_fill (o : Op) : bool :=
  match o with Fill => true | _ => false end.

End Canvas.

(** ** src/services/avatarService.ts: drawing *)

Module AvatarCanvas.

Import Canvas.
Open Scope string_scope.

Section Drawing.

Variable Math_PI : number.

(** [drawHead(expression)]. *)
Definition drawHead (e : Expression) : list Op :=
  [ SetFillStyle "#F3E8D0"; BeginPath; Arc 0 (-80) 40 0 (Math_PI * 2); Fill;
    SetFillStyle "#2D3748"; BeginPath;
    Arc (-15) (-85) 3 0 (Math_PI * 2); Arc 15 (-85) 3 0 (Math_PI * 2); Fill;
    SetStrokeStyle "#2D3748"; SetLineWidth 2; BeginPath ]
  ++ match e with
     | happy => [ Arc 0 (-70) 15 (0.2 * Math_PI) (0.8 * Math_PI) ]
     | questioning => [ Arc 0 (-70) 10 (0.8 * Math_PI) (1.2 * Math_PI) ]
     | neutral => [ MoveTo (-10) (-70); LineTo 10 (-70) ]
     end
  ++ [ Stroke ].

(** [drawBody()]. *)
Definition drawBody : list Op :=
  [ SetFillStyle "#4A90E2"; FillRect (-25) (-40) 50 80 ].

(** [drawArm(side, armPose)]; [left] says which side. *)
Definition drawArm (left : bool) (armPose : Limb) : list Op :=
  let side_x := if left then -25 else 25 in
  let armX := side_x + x armPose in
  let armY := -20 + y armPose in
  [ Save; Translate armX armY; Rotate (rotation armPose * Math_PI / 180);
    SetFillStyle "#F3E8D0"; FillRect (-5) 0 10 30;
    Translate 0 30; Rotate 0.2; FillRect (-4) 0 8 25;
    Translate 0 25; BeginPath; Arc 0 0 6 0 (Math_PI * 2); Fill;
    Restore ].

(** [drawAvatar(pose, width, height)] on a keyframe with its pose
    fields, the context being set. *)
Definition drawAvatar (g : Gesture) (e : Expression) (width height : number)
  : list Op :=
  let centerX := width / 2 in
  let centerY := height / 2 in
  let scale := JS.min width height / 400 in
  [ Save; Translate centerX centerY; Scale scale scale;
    Save; Rotate (head_rotation (head g) * Math_PI / 180) ]
  ++ drawHead e
  ++ [ Restore ]
  ++ drawBody
  ++ drawArm true (leftArm g)
  ++ drawArm false (rightArm g)
  ++ [ Restore ].

(** The calls of [renderFrame] once its guards have passed and the pose
    has been interpolated. *)
Definition renderFrame (g : Gesture) (e : Expression) (width height : number)
  : list Op :=
  ClearRect 0 0 width height :: drawAvatar g e width height.

End Drawing.

End AvatarCanvas.

(** ** src/components/MotionDetectionOverlay.tsx *)

Module MotionDetectionOverlay.

Open Scope string_scope.

Definition getOverlayColor (confidence : number) : string :=
  if JS.gtb confidence 0.8 then "#10B981"
  else if JS.gtb confidence 0.6 then "#F59E0B"
  else "#EF4444".

(** The [gestureConfidence] prop as [VideoInput] computes it:
    [trackingData?.confidence || 0]. *)
Definition gestureConfidence (trackingData : option GestureData) : number :=
  match trackingData with
  | Some d => if Qeq_bool (confidence d) 0 then 0 else confidence d
  | None => 0
  end.

Record TrackingPoint : Type := {
  point_x : number;
  point_y : number;
  point_confidence : number
}.

(** The [handPoints] of [generateSimulatedLandmarks]. *)
Definition handPoints : list (number * number) :=
  [ (0, 0.3);
    (-0.15, 0.1); (-0.2, 0); (-0.25, -0.1); (-0.3, -0.15);
    (-0.1, -0.1); (-0.1, -0.2); (-0.1, -0.3); (-0.1, -0.35);
    (0, -0.1); (0, -0.25); (0, -0.35); (0, -0.4);
    (0.1, -0.1); (0.1, -0.2); (0.1, -0.3); (0.1, -0.35);
    (0.2, -0.05); (0.2, -0.15); (0.2, -0.25); (0.2, -0.3);
    (0.05, 0.1) ].

(** The [connections] of [generateSimulatedLandmarks]. *)
Definition connections : list (nat * nat) :=
  [ (0, 1); (1, 2); (2, 3); (3, 4);
    (0, 5); (5, 6); (6, 7); (7, 8);
    (0, 9); (9, 10); (10, 11); (11, 12);
    (0, 13); (13, 14); (14, 15); (15, 16);
    (0, 17); (17, 18); (18, 19); (19, 20);
    (5, 9); (9, 13); (13, 17) ]%nat.

Section Landmarks.

Variable rand : nat -> number.
Variable Math_sin : number -> number.
Variable Math_PI : number.

(** The body of [handPoints.forEach]: the landmark of the point with the
    given index.  Each round reads the clock and draws once: [clock k] is
    the value of [Date.now()] in round [k], and the draw of round [k] is
    the [k]-th after [r]. *)
Definition landmark_of (centerX centerY : number) (clock : nat -> number)
    (r : nat) (index : nat) (point : number * number) : TrackingPoint :=
  let variation :=
    Math_sin (clock index * 0.001 + inject_Z (Z.of_nat index)) * 0.02 in
  {| point_x := centerX + fst point * 150 + variation * 20;
     point_y := centerY + snd point * 150 + variation * 15;
     point_confidence := 0.8 + rand (r + index) * 0.2 |}.

(** [generateSimulatedLandmarks(width, height)]: the landmarks, and the
    draw counter after them. *)
Definition generateSimulatedLandmarks (width height : number)
    (clock : nat -> number) (r : nat) : list TrackingPoint * nat :=
  let centerX := width * 0.5 in
  let centerY := height * 0.5 in
  (map (fun ip => landmark_of centerX centerY clock r (fst ip) (snd ip))
       (combine (seq 0 (List.length handPoints)) handPoints),
   (r + List.length handPoints)%nat).

(** The body of [connections.forEach] in [drawHandLandmarks]. *)
Definition drawConnection (landmarks : list TrackingPoint) (c : nat * nat)
  : list Canvas.Op :=
  match nth_error landmarks (fst c), nth_error landmarks (snd c) with
  | Some a, Some b =>
      if (JS.gtb (point_confidence a) 0.5 && JS.gtb (point_confidence b) 0.5)%bool
      then [ Canvas.BeginPath; Canvas.MoveTo (point_x a) (point_y a);
             Canvas.LineTo (point_x b) (point_y b); Canvas.Stroke ]
      else []
  | _, _ => []
  end.

(** The body of [landmarks.forEach] in [drawHandLandmarks]. *)
Definition drawLandmark (color : string) (index : nat) (lm : TrackingPoint)
  : list Canvas.Op :=
  if JS.gtb (point_confidence lm) 0.5 then
    let radius := if Nat.eqb index 0 then 6 else 4 in
    [ Canvas.SetFillStyle color; Canvas.BeginPath;
      Canvas.Arc (point_x lm) (point_y lm) radius 0 (2 * Math_PI); Canvas.Fill;
      Canvas.SetFillStyle "white"; Canvas.BeginPath;
      Canvas.Arc (point_x lm) (point_y lm) (radius - 1) 0 (2 * Math_PI);
      Canvas.Fill ]
  else [].

(** [drawHandLandmarks(ctx, handData, color)]. *)
Definition drawHandLandmarks (landmarks : list TrackingPoint)
    (conns : list (nat * nat)) (color : string) : list Canvas.Op :=
  [ Canvas.SetStrokeStyle color; Canvas.SetLineWidth 2; Canvas.SetGlobalAlpha 0.7 ]
  ++ flat_map (drawConnection landmarks) conns
  ++ [ Canvas.SetGlobalAlpha 1 ]
  ++ flat_map (fun il => drawLandmark color (fst il) (snd il))
              (combine (seq 0 (List.length landmarks)) landmarks).

End Landmarks.

End MotionDetectionOverlay.

(** ** src/App.tsx *)

Module App.

(** The delay of the [setTimeout] in [handleUserMessage], after which the
    avatar panel leaves its animating state:
    [Math.max(response.split(' ').length * 600 + 1000, 2000)]. *)
Definition hideDelay (response : string) : number :=
  JS.max (inject_Z (Z.of_nat (List.length (JS.split_space response))) * 600 + 1000)
         2000.

End App.

(** * Properties *)

(** ** Numbers and strings *)

Lemma Qplus_inject_Z_500 (t : Z) : inject_Z t + 500 = inject_Z (t + 500).
Proof.
  unfold Qplus, inject_Z; simpl. f_equal. lia.
Qed.

Lemma split_from_length (s cur : string) :
  (1 <= List.length (JS.split_from cur s))%nat.
Proof.
  revert cur; induction s as [|c s IH]; intros cur; simpl.
  - lia.
  - destruct (Ascii.eqb c " "); simpl; [lia | apply IH].
Qed.

Lemma geb_true (a b : number) : JS.geb a b = true <-> b <= a.
Proof. unfold JS.geb, JS.leb. apply Qle_bool_iff. Qed.

Lemma leb_true (a b : number) : JS.leb a b = true <-> a <= b.
Proof. unfold JS.leb. apply Qle_bool_iff. Qed.

Lemma ltb_true (a b : number) : JS.ltb a b = true <-> a < b.
Proof.
  unfold JS.ltb. rewrite negb_true_iff.
  split; intros H.
  - apply Qnot_le_lt. intros Hle. apply Qle_bool_iff in Hle. congruence.
  - destruct (Qle_bool b a) eqn:E; [|reflexivity].
    apply Qle_bool_iff in E. exfalso. apply (Qlt_not_le _ _ H E).
Qed.

Lemma ltb_false (a b : number) : JS.ltb a b = false <-> b <= a.
Proof.
  unfold JS.ltb. rewrite negb_false_iff. apply Qle_bool_iff.
Qed.

Lemma gtb_true (a b : number) : JS.gtb a b = true <-> b < a.
Proof. unfold JS.gtb. apply ltb_true. Qed.

Lemma gtb_false (a b : number) : JS.gtb a b = false <-> a <= b.
Proof. unfold JS.gtb. apply ltb_false. Qed.

(** ** The synthesizer *)

Section SynthesisFacts.

Import AvatarService.
Local Open Scope list_scope.

Variable rand : nat -> number.

Lemma ticks_from_cons (t : Z) (n : nat) :
  ticks_from t (S n) = inject_Z (t + 500) :: ticks_from (t + 500) n.
Proof.
  unfold ticks_from. cbn [seq map].
  replace (t + 500 * Z.of_nat 1)%Z with (t + 500)%Z by lia.
  apply f_equal.
  rewrite <- seq_shift, map_map. apply map_ext. intros k.
  apply f_equal. rewrite !Nat2Z.inj_succ. lia.
Qed.

Lemma word_step_time (st : Synth) (w : string) :
  currentTime (word_step rand st w) = currentTime st + 500.
Proof.
  unfold word_step. destruct (getGestureForWord rand w (draws st)); reflexivity.
Qed.

Lemma word_step_frames (st : Synth) (w : string) :
  exists k, frames (word_step rand st w) = frames st ++ [k]
            /\ timestamp k = currentTime st + 500.
Proof.
  unfold word_step. destruct (getGestureForWord rand w (draws st)) as [g r].
  eexists; split; reflexivity.
Qed.

(** The loop over the words: the clock advances by 500 per word and each
    word appends one keyframe stamped with the clock. *)
Lemma forEach_words (words : list string) :
  forall (st : Synth) (t : Z),
    currentTime st = inject_Z t ->
    let st' := fold_left (word_step rand) words st in
    currentTime st' = inject_Z (t + 500 * Z.of_nat (List.length words))
    /\ exists added,
         frames st' = frames st ++ added
         /\ map timestamp added = ticks_from t (List.length words).
Proof.
  induction words as [|w ws IH]; intros st t Ht; simpl.
  - split.
    + rewrite Ht. f_equal. lia.
    + exists []. split; [now rewrite app_nil_r | reflexivity].
  - destruct (word_step_frames st w) as (k & Hk & Htk).
    assert (Hstep : currentTime (word_step rand st w) = inject_Z (t + 500)).
    { rewrite word_step_time, Ht. apply Qplus_inject_Z_500. }
    destruct (IH _ _ Hstep) as (Hc & added & Hf & Hm).
    split.
    + rewrite Hc. f_equal. lia.
    + exists (k :: added). split.
      * rewrite Hf, Hk, <- app_assoc. reflexivity.
      * rewrite ticks_from_cons. simpl. rewrite Hm.
        f_equal. rewrite Htk, Ht. apply Qplus_inject_Z_500.
Qed.

(** The shape of every synthesized animation: rest at 0, one keyframe
    per word, rest at the end; the clock is the list [0, 500, ...]. *)
Lemma textToAnimation_shape (text : string) (r : nat) :
  let words := JS.split_space (JS.toLowerCase text) in
  let n := List.length words in
  let a := fst (textToAnimation rand text r) in
  exists middle,
    keyframes a = neutral_keyframe 0 :: middle
                  ++ [neutral_keyframe (inject_Z (500 * Z.of_nat (S n)))]
    /\ map timestamp middle = ticks_from 0 n
    /\ duration a = inject_Z (500 * Z.of_nat (S n)).
Proof.
  intros words n a. subst a. unfold textToAnimation. fold words.
  set (st0 := {| currentTime := 0; frames := [neutral_keyframe 0]; draws := r |}).
  destruct (forEach_words words st0 0 eq_refl) as (Hc & added & Hf & Hm).
  fold n in Hc, Hm. simpl fst.
  assert (Ht : currentTime (fold_left (word_step rand) words st0) + 500
               = inject_Z (500 * Z.of_nat (S n))).
  { rewrite Hc, Qplus_inject_Z_500. f_equal. lia. }
  exists added. cbn [keyframes duration]. rewrite Ht, Hf.
  repeat split; auto.
Qed.

Lemma ticks_from_lower (n : nat) (t : Z) :
  Forall (fun q => inject_Z t <= q) (ticks_from t n).
Proof.
  unfold ticks_from. apply Forall_forall. intros q Hq.
  apply in_map_iff in Hq. destruct Hq as (k & <- & _).
  rewrite <- Zle_Qle. lia.
Qed.

Lemma ticks_from_upper (n : nat) (t : Z) :
  Forall (fun q => q <= inject_Z (t + 500 * Z.of_nat (S n))) (ticks_from t n).
Proof.
  unfold ticks_from. apply Forall_forall. intros q Hq.
  apply in_map_iff in Hq. destruct Hq as (k & <- & Hk).
  apply in_seq in Hk. rewrite <- Zle_Qle. lia.
Qed.

Lemma ticks_from_sorted (n : nat) :
  forall t, StronglySorted Qle (ticks_from t n).
Proof.
  induction n as [|n IH]; intros t.
  - constructor.
  - rewrite ticks_from_cons. constructor; [apply IH | apply ticks_from_lower].
Qed.

Lemma StronglySorted_snoc (l : list number) (b : number) :
  StronglySorted Qle l -> Forall (fun q => q <= b) l ->
  StronglySorted Qle (l ++ [b]).
Proof.
  induction l as [|a l IH]; intros Hs Hb; simpl.
  - repeat constructor.
  - inversion Hs; subst. inversion Hb; subst.
    constructor; [auto|].
    apply Forall_app. split; [assumption | repeat constructor; assumption].
Qed.

End SynthesisFacts.

Section SynthesisClaims.

Import AvatarService.
Local Open Scope list_scope.

Variable rand : nat -> number.

(** C1.  For every text, the synthesized animation has at least two
    keyframes, its timestamps never decrease, and it starts (at 0) and
    ends with the neutral rest keyframe.  The text is arbitrary, the
    empty string included. *)
Theorem textToAnimation_well_formed (text : string) (r : nat) :
  let a := fst (textToAnimation rand text r) in
  (2 <= List.length (keyframes a))%nat
  /\ StronglySorted Qle (map timestamp (keyframes a))
  /\ hd_error (keyframes a)
     = Some {| timestamp := 0;
               pose := Some {| leftArm := {| x := 0; y := 0; rotation := 0 |};
                               rightArm := {| x := 0; y := 0; rotation := 0 |};
                               head := {| head_rotation := 0 |} |};
               expression := neutral |}
  /\ last (keyframes a) (neutral_keyframe 0)
     = {| timestamp := duration a;
          pose := Some {| leftArm := {| x := 0; y := 0; rotation := 0 |};
                          rightArm := {| x := 0; y := 0; rotation := 0 |};
                          head := {| head_rotation := 0 |} |};
          expression := neutral |}.
Proof.
  intros a.
  destruct (textToAnimation_shape rand text r) as (middle & Hk & Hm & Hd).
  fold a in Hk, Hd.
  set (n := List.length (JS.split_space (JS.toLowerCase text))) in *.
  rewrite Hk, Hd. repeat split.
  - simpl. rewrite length_app. simpl. lia.
  - cbn [map timestamp neutral_keyframe]. rewrite map_app, Hm.
    cbn [map timestamp neutral_keyframe].
    constructor.
    + apply StronglySorted_snoc.
      * apply ticks_from_sorted.
      * replace (500 * Z.of_nat (S n))%Z with (0 + 500 * Z.of_nat (S n))%Z by lia.
        apply ticks_from_upper.
    + apply Forall_app. split.
      * apply (ticks_from_lower n 0).
      * repeat constructor. change 0 with (inject_Z 0).
        rewrite <- Zle_Qle. lia.
  - rewrite app_comm_cons. apply last_last.
Qed.

(** C8.  [synthesize("hello")] is rest at 0, the tabled hello pose at
    500 with expression neutral, rest at 1000, with duration 1000; and
    for every text with [n] words the keyframes are stamped
    0, 500, ..., 500 (n + 1), the last stamp being the duration. *)
Theorem textToAnimation_hello_and_clock :
  (forall r,
     textToAnimation rand "hello" r =
     ({| name := "text-response";
         keyframes :=
           [ neutral_keyframe 0;
             {| timestamp := 500;
                pose := Some {| leftArm := limb (-30) (-20) 45;
                                rightArm := limb 30 (-20) (-45);
                                head := {| head_rotation := 0 |} |};
                expression := neutral |};
             neutral_keyframe 1000 ];
         duration := 1000 |}, r))
  /\ (forall text r,
       let n := List.length (JS.split_space (JS.toLowerCase text)) in
       let a := fst (textToAnimation rand text r) in
       map timestamp (keyframes a)
         = map (fun k : nat => inject_Z (500 * Z.of_nat k)) (seq 0 (n + 2))
       /\ duration a = inject_Z (500 * Z.of_nat (n + 1))).
Proof.
  split.
  - intros r. reflexivity.
  - intros text r n a.
    destruct (textToAnimation_shape rand text r) as (middle & Hk & Hm & Hd).
    fold a in Hk, Hd. fold n in Hk, Hm, Hd.
    replace (n + 1)%nat with (S n) by lia. split; [|exact Hd].
    rewrite Hk. replace (n + 2)%nat with (S (n + 1)) by lia.
    cbn [seq map timestamp neutral_keyframe]. apply f_equal.
    rewrite map_app, Hm, seq_app, map_app, <- seq_shift, map_map.
    cbn [seq map timestamp neutral_keyframe Nat.add].
    replace (0 + n)%nat with n by lia.
    f_equal.
Qed.

(** C10.  The empty text gives three keyframes and duration 1000: the
    single word is the empty string, it is not in the table, and its
    keyframe at 500 carries the random fallback pose, whose components
    lie in the stated ranges when every draw lies in [0, 1). *)
Theorem textToAnimation_empty (r : nat)
    (Hrand : forall n, 0 <= rand n /\ rand n < 1) :
  JS.split_space (JS.toLowerCase "") = [""%string]
  /\ JS.get gestures "" = JS.Undefined
  /\ fst (textToAnimation rand "" r) =
     {| name := "text-response";
        keyframes := [ neutral_keyframe 0;
                       {| timestamp := 500;
                          pose := Some (random_gesture rand r);
                          expression := neutral |};
                       neutral_keyframe 1000 ];
        duration := 1000 |}
  /\ in_fallback_range (random_gesture rand r).
Proof.
  repeat split; try reflexivity; cbn [random_gesture leftArm rightArm head
    head_rotation limb x y rotation];
    match goal with
    | |- context [rand ?k] => pose proof (Hrand k)
    end; lra.
Qed.

End SynthesisClaims.

(** ** Interpolation *)

Section InterpolationFacts.

Import AvatarService.
Local Open Scope list_scope.

Lemma lerp_at_0 (a b p : number) : p == 0 -> lerp a b p == a.
Proof. intros H. unfold lerp. rewrite H. ring. Qed.

Lemma lerp_at_half (a b p : number) : p == 1 # 2 -> lerp a b p == mean a b.
Proof. intros H. unfold lerp, mean. rewrite H. field. Qed.

Lemma lerp_gesture_at_0 (g h : Gesture) (p : number) :
  p == 0 -> gesture_eq (lerp_gesture g h p) g.
Proof.
  intros H. unfold gesture_eq, limb_eq; cbn.
  repeat split; apply lerp_at_0; exact H.
Qed.

Lemma lerp_gesture_at_half (g h : Gesture) (p : number) :
  p == 1 # 2 -> gesture_eq (lerp_gesture g h p) (gesture_mean g h).
Proof.
  intros H. unfold gesture_eq, limb_eq; cbn.
  repeat split; apply lerp_at_half; exact H.
Qed.

(** What [interpolatePose] returns once the surrounding pair is known. *)
Lemma interpolatePose_surrounding (a : AvatarAnimation) (elapsed : number)
    (prevFrame nextFrame : AvatarKeyframe) (p n : Gesture) :
  surrounding (keyframes a) elapsed = Some (prevFrame, nextFrame) ->
  pose prevFrame = Some p -> pose nextFrame = Some n ->
  interpolatePose (Some a) elapsed =
  Some {| timestamp := elapsed;
          pose := Some (lerp_gesture p n (progress_of prevFrame nextFrame elapsed));
          expression := if JS.ltb (progress_of prevFrame nextFrame elapsed) 0.5
                        then expression prevFrame else expression nextFrame |}.
Proof.
  intros Hs Hp Hn. unfold interpolatePose. rewrite Hs, Hp, Hn. reflexivity.
Qed.

Lemma last_In {A : Type} (l : list A) (d : A) : l <> [] -> In (last l d) l.
Proof.
  induction l as [|c l IH]; [congruence|]. intros _.
  destruct l as [|c1 l']; [left; reflexivity|].
  right. apply IH. discriminate.
Qed.

Lemma surrounding_members (kfs : list AvatarKeyframe) (elapsed : number)
    (p n : AvatarKeyframe) :
  surrounding kfs elapsed = Some (p, n) -> In p kfs /\ In n kfs.
Proof.
  unfold surrounding. destruct kfs as [|k0 rest]; [discriminate|].
  destruct (find_bracket elapsed (k0 :: rest)) as [[p' n']|] eqn:E.
  - intros H; injection H as -> ->.
    clear - E. revert E. generalize (k0 :: rest) as l.
    induction l as [|c l IH]; [discriminate|].
    destruct l as [|c1 l']; [discriminate|].
    cbn [find_bracket].
    destruct (JS.geb elapsed (timestamp c) && JS.leb elapsed (timestamp c1))%bool.
    + intros H; injection H as -> ->. split; [left | right; left]; reflexivity.
    + intros H. destruct (IH H). split; right; assumption.
  - intros H; injection H as <- <-. split; [left; reflexivity|].
    apply (last_In (k0 :: rest) k0). discriminate.
Qed.

(** On a sorted list the loop walks past every pair that ends before
    [elapsed] and stops at the first pair that brackets it. *)
Lemma find_bracket_sorted (pre post : list AvatarKeyframe)
    (ki kj : AvatarKeyframe) (elapsed : number) :
  StronglySorted Qle (map timestamp (pre ++ ki :: kj :: post)) ->
  timestamp ki < elapsed -> elapsed <= timestamp kj ->
  find_bracket elapsed (pre ++ ki :: kj :: post) = Some (ki, kj).
Proof.
  intros Hs Hlo Hhi. induction pre as [|c pre IH].
  - cbn [app find_bracket].
    assert (H1 : JS.geb elapsed (timestamp ki) = true)
      by (apply geb_true; lra).
    assert (H2 : JS.leb elapsed (timestamp kj) = true)
      by (apply leb_true; lra).
    rewrite H1, H2. reflexivity.
  - cbn [app map] in Hs. inversion Hs as [|? ? Hs' Hall]; subst.
    specialize (IH Hs').
    assert (Hnext : exists c1 l, pre ++ ki :: kj :: post = c1 :: l
                                 /\ timestamp c1 <= timestamp ki).
    { destruct pre as [|c1 pre'].
      - exists ki, (kj :: post). split; [reflexivity | lra].
      - exists c1, (pre' ++ ki :: kj :: post). split; [reflexivity|].
        cbn [app map] in Hs'. inversion Hs' as [|? ? _ Hall']; subst.
        rewrite Forall_forall in Hall'. apply Hall'.
        rewrite map_app. apply in_or_app. right. left. reflexivity. }
    destruct Hnext as (c1 & l & Hl & Hc1).
    cbn [app]. rewrite Hl in *. cbn [find_bracket].
    assert (H2 : JS.leb elapsed (timestamp c1) = false).
    { destruct (JS.leb elapsed (timestamp c1)) eqn:E; [|reflexivity].
      apply leb_true in E. lra. }
    rewrite H2, andb_false_r. exact IH.
Qed.

Lemma progress_of_equal_stamps (p n : AvatarKeyframe) (elapsed : number) :
  timestamp p == timestamp n -> progress_of p n elapsed = 0.
Proof.
  intros H. unfold progress_of.
  assert (E : JS.gtb (timestamp n - timestamp p) 0 = false)
    by (apply gtb_false; lra).
  rewrite E. reflexivity.
Qed.

Lemma progress_of_at_start (p n : AvatarKeyframe) (elapsed : number) :
  elapsed == timestamp p -> progress_of p n elapsed == 0.
Proof.
  intros H. unfold progress_of.
  destruct (JS.gtb (timestamp n - timestamp p) 0); [|reflexivity].
  unfold Qdiv. rewrite H. ring.
Qed.

Lemma progress_of_at_midpoint (p n : AvatarKeyframe) (elapsed : number) :
  timestamp p < timestamp n ->
  elapsed == mean (timestamp p) (timestamp n) ->
  progress_of p n elapsed == 1 # 2.
Proof.
  intros Hlt H. unfold progress_of.
  assert (E : JS.gtb (timestamp n - timestamp p) 0 = true)
    by (apply gtb_true; lra).
  rewrite E, H. unfold mean. field. lra.
Qed.

Lemma ltb_proper (a b c : number) : a == b -> JS.ltb a c = JS.ltb b c.
Proof.
  intros H. destruct (JS.ltb b c) eqn:E.
  - apply ltb_true in E. apply ltb_true. lra.
  - apply ltb_false in E. apply ltb_false. lra.
Qed.

End InterpolationFacts.

Section InterpolationClaims.

Import AvatarService.
Local Open Scope list_scope.

Lemma well_formed_pose (a : AvatarAnimation) (k : AvatarKeyframe) :
  well_formed a -> In k (keyframes a) -> exists g, pose k = Some g.
Proof.
  intros (_ & Hp & _) Hin. rewrite Forall_forall in Hp.
  specialize (Hp k Hin). destruct (pose k) as [g|]; [eauto | congruence].
Qed.

Lemma surrounding_at_0 (a : AvatarAnimation) :
  well_formed a ->
  exists k0 k1 rest,
    keyframes a = k0 :: k1 :: rest
    /\ timestamp k0 == 0
    /\ surrounding (keyframes a) 0 = Some (k0, k1).
Proof.
  intros (Hlen & _ & Hs & H0).
  destruct (keyframes a) as [|k0 [|k1 rest]] eqn:E; simpl in Hlen; try lia.
  exists k0, k1, rest. specialize (H0 k0 eq_refl).
  split; [reflexivity|]. split; [exact H0|].
  cbn [map] in Hs. inversion Hs as [|? ? _ Hall]; subst.
  inversion Hall as [|? ? H01 _]; subst.
  unfold surrounding. cbn [find_bracket].
  assert (H1 : JS.geb 0 (timestamp k0) = true) by (apply geb_true; lra).
  assert (H2 : JS.leb 0 (timestamp k1) = true) by (apply leb_true; lra).
  rewrite H1, H2. reflexivity.
Qed.

End InterpolationClaims.

(** ** Interpolation in double arithmetic *)

(** Replaces the keyframes of a closed animation by their value. *)
Ltac evaluate_keyframes a :=
  let l := eval vm_compute in (keyframes a) in
  let E := fresh "E" in
  assert (E : keyframes a = l) by (vm_compute; reflexivity);
  rewrite E; clear E.

Section DoubleInterpolation.

Import AvatarService.
Local Open Scope list_scope.

Lemma round_proper (p q : number) : p == q -> Double.round p = Double.round q.
Proof.
  intros H. unfold Double.round. rewrite (Qred_complete p q H). reflexivity.
Qed.

Lemma round_is_double (q : number) : Double.is_double q -> Double.round q == q.
Proof. intros H. exact H. Qed.

Lemma double_lerp_proper (a b p q : number) :
  p == q -> Double.lerp a b p = Double.lerp a b q.
Proof.
  intros H. unfold Double.lerp, Double.add, Double.mul.
  assert (E : Double.sub b a * p == Double.sub b a * q) by (rewrite H; reflexivity).
  rewrite (round_proper _ _ E). reflexivity.
Qed.

Lemma double_lerp_gesture_proper (g h : Gesture) (p q : number) :
  p == q -> Double.lerp_gesture g h p = Double.lerp_gesture g h q.
Proof.
  intros H. unfold Double.lerp_gesture, Double.lerp_limb.
  repeat rewrite (double_lerp_proper _ _ p q H). reflexivity.
Qed.

(** With progress 0 the additions add 0: a double comes back as it is. *)
Lemma double_lerp_at_0 (a b : number) :
  Double.is_double a -> Double.lerp a b 0 == a.
Proof.
  intros Ha. unfold Double.lerp, Double.add, Double.mul.
  assert (E : Double.sub b a * 0 == 0) by ring.
  rewrite (round_proper _ _ E). change (Double.round 0) with 0.
  assert (E' : a + 0 == a) by ring.
  rewrite (round_proper _ _ E'). exact Ha.
Qed.

Lemma double_lerp_gesture_at_0 (g h : Gesture) :
  Double.gesture_is_double g -> gesture_eq (Double.lerp_gesture g h 0) g.
Proof.
  intros ((H1 & H2 & H3) & (H4 & H5 & H6) & H7).
  unfold gesture_eq, limb_eq; cbn.
  repeat split; apply double_lerp_at_0; assumption.
Qed.

(** When the difference, its half and the mean are doubles, nothing is
    rounded and the midpoint is the mean. *)
Lemma double_lerp_exact_mean (a b : number) :
  Double.is_double (b - a) -> Double.is_double ((b - a) * (1 # 2)) ->
  Double.is_double (mean a b) ->
  Double.lerp a b (1 # 2) == mean a b.
Proof.
  intros H1 H2 H3. unfold Double.is_double in H1, H2, H3.
  unfold Double.lerp, Double.add, Double.mul, Double.sub.
  assert (E1 : Double.round (b - a) * (1 # 2) == (b - a) * (1 # 2))
    by (rewrite H1; reflexivity).
  rewrite (round_proper _ _ E1).
  assert (E2 : a + Double.round ((b - a) * (1 # 2)) == mean a b)
    by (rewrite H2; unfold mean; field).
  rewrite (round_proper _ _ E2). exact H3.
Qed.

Lemma double_progress_at_start (p n : AvatarKeyframe) (elapsed : number) :
  elapsed == timestamp p -> Double.progress_of p n elapsed = 0.
Proof.
  intros H. unfold Double.progress_of.
  destruct (JS.gtb _ 0); [|reflexivity].
  unfold Double.div, Double.sub at 1.
  assert (E : elapsed - timestamp p == 0) by (rewrite H; ring).
  rewrite (round_proper _ _ E). change (Double.round 0) with 0.
  assert (E' : 0 / Double.sub (timestamp n) (timestamp p) == 0)
    by (unfold Qdiv; ring).
  rewrite (round_proper _ _ E'). reflexivity.
Qed.

Lemma double_progress_equal_stamps (p n : AvatarKeyframe) (elapsed : number) :
  timestamp p == timestamp n -> Double.progress_of p n elapsed = 0.
Proof.
  intros H. unfold Double.progress_of, Double.sub at 1.
  assert (E : timestamp n - timestamp p == 0) by (rewrite H; ring).
  rewrite (round_proper _ _ E). reflexivity.
Qed.

Lemma double_progress_at_midpoint (p n : AvatarKeyframe) (elapsed : number) :
  timestamp p < timestamp n ->
  elapsed == mean (timestamp p) (timestamp n) ->
  Double.is_double (elapsed - timestamp p) ->
  Double.is_double (timestamp n - timestamp p) ->
  Double.progress_of p n elapsed = 1 # 2.
Proof.
  intros Hlt He H1 H2. unfold Double.is_double in H1, H2.
  unfold Double.progress_of.
  assert (Hd : Double.sub (timestamp n) (timestamp p)
               == timestamp n - timestamp p) by exact H2.
  assert (G : JS.gtb (Double.sub (timestamp n) (timestamp p)) 0 = true)
    by (apply gtb_true; rewrite Hd; lra).
  rewrite G. unfold Double.div.
  assert (E : Double.sub elapsed (timestamp p)
              / Double.sub (timestamp n) (timestamp p) == 1 # 2).
  { rewrite Hd. unfold Double.sub. rewrite H1, He. unfold mean. field. lra. }
  rewrite (round_proper _ _ E). reflexivity.
Qed.

Lemma double_interpolatePose_surrounding (a : AvatarAnimation) (elapsed : number)
    (prevFrame nextFrame : AvatarKeyframe) (p n : Gesture) :
  surrounding (keyframes a) elapsed = Some (prevFrame, nextFrame) ->
  pose prevFrame = Some p -> pose nextFrame = Some n ->
  Double.interpolatePose (Some a) elapsed =
  Some {| timestamp := elapsed;
          pose := Some (Double.lerp_gesture p n
                          (Double.progress_of prevFrame nextFrame elapsed));
          expression := if JS.ltb (Double.progress_of prevFrame nextFrame elapsed) 0.5
                        then expression prevFrame else expression nextFrame |}.
Proof.
  intros Hs Hp Hn. unfold Double.interpolatePose. rewrite Hs, Hp, Hn. reflexivity.
Qed.

Lemma keyframe_double_pose (a : AvatarAnimation) (k : AvatarKeyframe) (g : Gesture) :
  Forall Double.keyframe_is_double (keyframes a) -> In k (keyframes a) ->
  pose k = Some g -> Double.gesture_is_double g.
Proof.
  intros Hd Hin Hg. rewrite Forall_forall in Hd.
  destruct (Hd k Hin) as (_ & H). rewrite Hg in H. exact H.
Qed.

(** C4, as the code has it.  On a well-formed animation whose numbers
    are doubles, with every operation rounded as the code rounds it: at
    elapsed 0 the interpolated keyframe is the first keyframe; at the
    midpoint in time of two adjacent keyframes with different
    timestamps, the two time differences being exact, the progress is
    exactly 1/2 and every numeric pose field is
    [prev + (next - prev) * 0.5] in double arithmetic, which is the mean
    of the two values whenever their difference, its half and their mean
    are doubles; when the surrounding keyframes have equal timestamps the
    progress is 0 and the earlier pose is returned; and the expression is
    the earlier keyframe's while the progress is below 0.5 and the later
    one's from 0.5 on. *)
Theorem interpolatePose_double_properties (a : AvatarAnimation)
    (Hwf : well_formed a)
    (Hdbl : Forall Double.keyframe_is_double (keyframes a)) :
  (exists first q,
      hd_error (keyframes a) = Some first
      /\ Double.interpolatePose (Some a) 0 = Some q
      /\ keyframe_eq q first)
  /\ (forall pre ki kj post elapsed,
        keyframes a = pre ++ ki :: kj :: post ->
        timestamp ki < timestamp kj ->
        elapsed == mean (timestamp ki) (timestamp kj) ->
        Double.is_double (elapsed - timestamp ki) ->
        Double.is_double (timestamp kj - timestamp ki) ->
        exists gi gj q,
          pose ki = Some gi /\ pose kj = Some gj
          /\ Double.progress_of ki kj elapsed = 1 # 2
          /\ Double.interpolatePose (Some a) elapsed = Some q
          /\ pose q = Some (Double.lerp_gesture gi gj (1 # 2)))
  /\ (forall v w,
        Double.is_double (w - v) -> Double.is_double ((w - v) * (1 # 2)) ->
        Double.is_double (mean v w) ->
        Double.lerp v w (1 # 2) == mean v w)
  /\ (forall elapsed prevFrame nextFrame,
        surrounding (keyframes a) elapsed = Some (prevFrame, nextFrame) ->
        timestamp prevFrame == timestamp nextFrame ->
        Double.progress_of prevFrame nextFrame elapsed = 0
        /\ exists gp q g,
             pose prevFrame = Some gp
             /\ Double.interpolatePose (Some a) elapsed = Some q
             /\ pose q = Some g
             /\ gesture_eq g gp
             /\ expression q = expression prevFrame)
  /\ (forall elapsed prevFrame nextFrame,
        surrounding (keyframes a) elapsed = Some (prevFrame, nextFrame) ->
        exists q,
          Double.interpolatePose (Some a) elapsed = Some q
          /\ (Double.progress_of prevFrame nextFrame elapsed < 0.5 ->
              expression q = expression prevFrame)
          /\ (0.5 <= Double.progress_of prevFrame nextFrame elapsed ->
              expression q = expression nextFrame)).
Proof.
  repeat apply conj.
  - destruct (surrounding_at_0 a Hwf) as (k0 & k1 & rest & Hk & H0 & Hs).
    assert (Hin0 : In k0 (keyframes a)) by (rewrite Hk; left; reflexivity).
    assert (Hin1 : In k1 (keyframes a)) by (rewrite Hk; right; left; reflexivity).
    destruct (well_formed_pose a k0 Hwf Hin0) as (g0 & Hg0).
    destruct (well_formed_pose a k1 Hwf Hin1) as (g1 & Hg1).
    assert (Hp : Double.progress_of k0 k1 0 = 0)
      by (apply double_progress_at_start; lra).
    exists k0. eexists. split; [rewrite Hk; reflexivity|].
    split; [apply (double_interpolatePose_surrounding a 0 k0 k1 g0 g1 Hs Hg0 Hg1)|].
    unfold keyframe_eq; cbn [timestamp expression pose]. rewrite Hg0, Hp.
    split; [lra|]. split; [reflexivity|].
    apply double_lerp_gesture_at_0.
    apply (keyframe_double_pose a k0 g0 Hdbl Hin0 Hg0).
  - intros pre ki kj post elapsed Hk Hlt He Hd1 Hd2.
    assert (Hini : In ki (keyframes a))
      by (rewrite Hk; apply in_or_app; right; left; reflexivity).
    assert (Hinj : In kj (keyframes a))
      by (rewrite Hk; apply in_or_app; right; right; left; reflexivity).
    destruct (well_formed_pose a ki Hwf Hini) as (gi & Hgi).
    destruct (well_formed_pose a kj Hwf Hinj) as (gj & Hgj).
    destruct Hwf as (_ & _ & Hs & _). rewrite Hk in Hs.
    assert (He2 : elapsed * 2 == timestamp ki + timestamp kj)
      by (rewrite He; unfold mean; field).
    assert (Hb : find_bracket elapsed (keyframes a) = Some (ki, kj)).
    { rewrite Hk. apply find_bracket_sorted; [exact Hs | lra | lra]. }
    assert (Hsur : surrounding (keyframes a) elapsed = Some (ki, kj)).
    { unfold surrounding. rewrite Hb. rewrite Hk.
      destruct pre; reflexivity. }
    pose proof (double_progress_at_midpoint ki kj elapsed Hlt He Hd1 Hd2) as Hp.
    exists gi, gj. eexists.
    split; [exact Hgi|]. split; [exact Hgj|]. split; [exact Hp|].
    split; [apply (double_interpolatePose_surrounding a elapsed ki kj gi gj
                     Hsur Hgi Hgj)|].
    cbn [pose]. rewrite Hp. reflexivity.
  - intros v w. apply double_lerp_exact_mean.
  - intros elapsed p n Hs Heq.
    pose proof (double_progress_equal_stamps p n elapsed Heq) as Hp.
    split; [exact Hp|].
    destruct (surrounding_members _ _ _ _ Hs) as (Hinp & Hinn).
    destruct (well_formed_pose a p Hwf Hinp) as (gp & Hgp).
    destruct (well_formed_pose a n Hwf Hinn) as (gn & Hgn).
    exists gp. eexists. eexists.
    split; [exact Hgp|].
    split; [apply (double_interpolatePose_surrounding a elapsed p n gp gn
                     Hs Hgp Hgn)|].
    split; [reflexivity|]. rewrite Hp. split.
    + apply double_lerp_gesture_at_0.
      apply (keyframe_double_pose a p gp Hdbl Hinp Hgp).
    + reflexivity.
  - intros elapsed p n Hs.
    destruct (surrounding_members _ _ _ _ Hs) as (Hinp & Hinn).
    destruct (well_formed_pose a p Hwf Hinp) as (gp & Hgp).
    destruct (well_formed_pose a n Hwf Hinn) as (gn & Hgn).
    eexists.
    split; [apply (double_interpolatePose_surrounding a elapsed p n gp gn
                     Hs Hgp Hgn)|].
    cbn [expression]. split; intros H.
    + apply ltb_true in H. rewrite H. reflexivity.
    + apply ltb_false in H. rewrite H. reflexivity.
Qed.

(** C4 as stated fails in the code's arithmetic.  For the text "foo bar"
    with the draws [foo_bar_draws], the keyframes of the two words stand
    at 500 and 1000 with [leftArm.x] 10.550984759064562 and
    -9.797238970423132; at 750, the exact midpoint, the interpolated
    [leftArm.x] is 0.3768728943207158, while the mean of the two values
    is the double 0.3768728943207149.  The kernel's binary64 operations
    give the same numbers. *)
Lemma midpoint_is_not_the_mean :
  well_formed Double.foo_bar_animation
  /\ Forall Double.keyframe_is_double (keyframes Double.foo_bar_animation)
  /\ map timestamp (keyframes Double.foo_bar_animation) = [0; 500; 1000; 1500]
  /\ 750 == mean 500 1000
  /\ exists kfoo kbar gfoo gbar q g,
       nth_error (keyframes Double.foo_bar_animation) 1 = Some kfoo
       /\ nth_error (keyframes Double.foo_bar_animation) 2 = Some kbar
       /\ pose kfoo = Some gfoo /\ pose kbar = Some gbar
       /\ Double.interpolatePose (Some Double.foo_bar_animation) 750 = Some q
       /\ pose q = Some g
       /\ x (leftArm gfoo) = 371229773666523 # 35184372088832
       /\ x (leftArm gbar) = -5515355222057165 # 562949953421312
       /\ x (leftArm g) = 106080289151801 # 281474976710656
       /\ mean (x (leftArm gfoo)) (x (leftArm gbar))
          == 424321156607203 # 1125899906842624
       /\ Double.is_double (mean (x (leftArm gfoo)) (x (leftArm gbar)))
       /\ ~ x (leftArm g) == mean (x (leftArm gfoo)) (x (leftArm gbar))
       /\ Double.of_float Double.draw_foo_float = Some Double.draw_foo
       /\ Double.of_float Double.draw_bar_float = Some Double.draw_bar
       /\ Double.of_float (Double.draw_foo_float * 40 - 20)%float
          = Some (x (leftArm gfoo))
       /\ Double.of_float (Double.draw_bar_float * 40 - 20)%float
          = Some (x (leftArm gbar))
       /\ Double.of_float
            ((Double.draw_foo_float * 40 - 20)
             + ((Double.draw_bar_float * 40 - 20)
                - (Double.draw_foo_float * 40 - 20)) * 0.5)%float
          = Some (x (leftArm g)).
Proof.
  split.
  { repeat apply conj.
    - vm_compute. lia.
    - repeat constructor; discriminate.
    - vm_compute. repeat constructor; discriminate.
    - intros k H. injection H as <-. reflexivity. }
  split.
  { evaluate_keyframes Double.foo_bar_animation.
    repeat apply Forall_cons; try apply Forall_nil;
      vm_compute; repeat split; reflexivity. }
  split; [vm_compute; reflexivity|].
  split; [reflexivity|].
  do 6 eexists.
  split; [vm_compute; reflexivity|]. split; [vm_compute; reflexivity|].
  split; [reflexivity|]. split; [reflexivity|].
  split; [vm_compute; reflexivity|]. split; [reflexivity|].
  split; [vm_compute; reflexivity|]. split; [vm_compute; reflexivity|].
  split; [vm_compute; reflexivity|]. split; [vm_compute; reflexivity|].
  split; [vm_compute; reflexivity|].
  split; [vm_compute; discriminate|].
  repeat split; vm_compute; reflexivity.
Qed.

End DoubleInterpolation.

(** ** The gesture queue *)

Section QueueClaims.

Import VideoInput.
Local Open Scope list_scope.

Lemma enqueue_nil (g : string) : enqueue [] g = [g].
Proof. reflexivity. Qed.

Lemma enqueue_snoc (q : list string) (l g : string) :
  enqueue (q ++ [l]) g
  = if String.eqb l g then q ++ [l] else (q ++ [l]) ++ [g].
Proof. unfold enqueue. rewrite rev_unit. reflexivity. Qed.

Lemma no_adjacent_dup_snoc (q : list string) (l g : string) :
  no_adjacent_dup (q ++ [l]) -> l <> g -> no_adjacent_dup ((q ++ [l]) ++ [g]).
Proof.
  intros Hq Hne. induction q as [|a q IH].
  - simpl. auto.
  - destruct q as [|b q'].
    + simpl in *. tauto.
    + cbn [app no_adjacent_dup] in *. destruct Hq as [Hab Hq].
      split; [exact Hab | apply IH; exact Hq].
Qed.

Lemma enqueue_no_adjacent_dup (q : list string) (g : string) :
  no_adjacent_dup q -> no_adjacent_dup (enqueue q g).
Proof.
  intros Hq. induction q as [|l q' _] using rev_ind.
  - exact I.
  - rewrite enqueue_snoc. destruct (String.eqb l g) eqn:E; [exact Hq|].
    apply no_adjacent_dup_snoc; [exact Hq|].
    apply String.eqb_neq. exact E.
Qed.

Lemma apply_no_adjacent_dup (s : State) (o : Op) :
  no_adjacent_dup (gestureQueue s) -> no_adjacent_dup (gestureQueue (apply s o)).
Proof.
  intros H. destruct o as [|[d|]|]; cbn [apply].
  - exact I.
  - unfold submit. destruct (JS.gtb (confidence d) 0.7); cbn [gestureQueue].
    + apply enqueue_no_adjacent_dup. exact H.
    + exact H.
  - exact H.
  - unfold stopRecording. destruct (gestureQueue s); exact I.
Qed.

(** C2, as the code has it.  A sample that is missing or whose
    confidence is not above 0.7 leaves the queue as it is; a sample above
    0.7 is appended when the queue is empty or ends in another label and
    dropped when the queue ends in its label.  The five samples of the
    example leave [a, b, a]. *)
Theorem submit_gate_and_dedup (s : State) :
  gestureQueue (submit None s) = gestureQueue s
  /\ (forall d, confidence d <= 0.7 ->
        gestureQueue (submit (Some d) s) = gestureQueue s)
  /\ (forall d, 0.7 < confidence d -> gestureQueue s = [] ->
        gestureQueue (submit (Some d) s) = [gesture d])
  /\ (forall d q l, 0.7 < confidence d -> gestureQueue s = q ++ [l] ->
        l <> gesture d ->
        gestureQueue (submit (Some d) s) = gestureQueue s ++ [gesture d])
  /\ (forall d q, 0.7 < confidence d -> gestureQueue s = q ++ [gesture d] ->
        gestureQueue (submit (Some d) s) = gestureQueue s)
  /\ gestureQueue
       (run initial
          [ Submit (Some (sample "a" 0.9)); Submit (Some (sample "a" 0.9));
            Submit (Some (sample "b" 0.8)); Submit (Some (sample "a" 0.75));
            Submit (Some (sample "a" 0.5)) ])
     = ["a"; "b"; "a"]%string.
Proof.
  repeat apply conj.
  - reflexivity.
  - intros d H. unfold submit. apply gtb_false in H. rewrite H. reflexivity.
  - intros d H Hq. unfold submit. apply gtb_true in H. rewrite H.
    cbn [gestureQueue]. rewrite Hq. reflexivity.
  - intros d q l H Hq Hne. unfold submit. apply gtb_true in H. rewrite H.
    cbn [gestureQueue]. rewrite Hq, enqueue_snoc.
    apply String.eqb_neq in Hne. rewrite Hne. reflexivity.
  - intros d q H Hq. unfold submit. apply gtb_true in H. rewrite H.
    cbn [gestureQueue]. rewrite Hq, enqueue_snoc, String.eqb_refl. reflexivity.
  - reflexivity.
Qed.

(** C2 as stated fails at the threshold: a sample whose confidence is
    exactly 0.7 is not below the threshold, so the stated rule appends
    its label to the empty queue; the code leaves the queue empty. *)
Lemma submit_at_threshold_differs :
  ~ (confidence (sample "a" 0.7) < ConfidenceThreshold)
  /\ submit_as_specified (Some (sample "a" 0.7)) (gestureQueue initial)
     = ["a"%string]
  /\ gestureQueue (submit (Some (sample "a" 0.7)) initial) = []
  /\ gestureQueue (submit (Some (sample "a" 0.7)) initial)
     <> submit_as_specified (Some (sample "a" 0.7)) (gestureQueue initial).
Proof.
  repeat apply conj.
  - cbn. unfold ConfidenceThreshold. lra.
  - reflexivity.
  - reflexivity.
  - discriminate.
Qed.

(** C9.  Whatever sequence of start, submit and stop operations is
    applied to the initial state, no two neighbours in the queue are
    equal. *)
Theorem gestureQueue_no_adjacent_dup (ops : list Op) :
  no_adjacent_dup (gestureQueue (run initial ops)).
Proof.
  unfold run.
  assert (H : forall s, no_adjacent_dup (gestureQueue s) ->
                        no_adjacent_dup (gestureQueue (fold_left apply ops s))).
  { induction ops as [|o ops IH]; intros s Hs; simpl.
    - exact Hs.
    - apply IH. apply apply_no_adjacent_dup. exact Hs. }
  apply H. exact I.
Qed.

End QueueClaims.

(** ** Queue to text *)

Section TextClaims.

Import VideoInput.
Local Open Scope list_scope.

(** The part of stopping that holds for every queue: tabled tokens are
    replaced by their phrases, a token that is neither tabled nor the
    name of a member of [Object.prototype] is kept, the pieces are joined
    by single spaces, a stop with a non-empty queue posts one message and
    empties the queue, and a stop with an empty queue posts nothing and
    hands over the empty text; so does a second stop in a row. *)
Lemma stopRecording_text (s : State) :
  GestureRecognition.display "hello" = "Hello"%string
  /\ GestureRecognition.display "help" = "I need help"%string
  /\ (forall token,
        JS.own_property GestureRecognition.gestureMap token = None ->
        JS.includes JS.Object_prototype_keys token = false ->
        GestureRecognition.display token = token)
  /\ GestureRecognition.convertGestureToText (gestureQueue s)
     = JS.join_space (map GestureRecognition.display (gestureQueue s))
  /\ gestureQueue (stopRecording s) = []
  /\ (gestureQueue s <> [] ->
      messages (stopRecording s)
      = messages s ++
        [ {| type := "user";
             content := GestureRecognition.convertGestureToText (gestureQueue s);
             inputMethod := "sign" |} ])
  /\ (gestureQueue s = [] ->
      messages (stopRecording s) = messages s
      /\ stop_text s = ""%string)
  /\ messages (stopRecording (stopRecording s)) = messages (stopRecording s)
  /\ stop_text (stopRecording s) = ""%string.
Proof.
  assert (Hempty : forall t, gestureQueue t = [] ->
              messages (stopRecording t) = messages t
              /\ stop_text t = ""%string).
  { intros t Ht. unfold stop_text, stopRecording. rewrite Ht.
    cbn [messages]. rewrite skipn_all. split; reflexivity. }
  assert (Hq : gestureQueue (stopRecording s) = []).
  { unfold stopRecording. destruct (gestureQueue s) eqn:E; cbn; auto. }
  repeat apply conj; try reflexivity; try exact Hq.
  - intros token Hown Hproto. unfold GestureRecognition.display, JS.get.
    rewrite Hown, Hproto. reflexivity.
  - intros Hne. unfold stopRecording.
    destruct (gestureQueue s); [congruence | reflexivity].
  - apply Hempty.
  - apply Hempty, Hq.
  - apply Hempty, Hq.
Qed.

(** Outside the recording session: [convertGestureToText] is defined on
    every list, and at the token [constructor], which no classifier
    answer carries, the lookup finds the inherited
    [Object.prototype.constructor] and prints that function. *)
Lemma convertGestureToText_constructor :
  JS.own_property GestureRecognition.gestureMap "constructor" = None
  /\ GestureRecognition.convertGestureToText ["constructor"%string]
     = "function Object() { [native code] }"%string
  /\ GestureRecognition.convertGestureToText ["constructor"%string]
     <> "constructor"%string
  /\ map content
       (messages
          (stopRecording
             (submit (Some (sample "constructor" 0.9)) (startRecording initial))))
     = ["function Object() { [native code] }"%string].
Proof.
  repeat apply conj; try reflexivity. discriminate.
Qed.

Lemma enqueue_Forall (P : string -> Prop) (q : list string) (g : string) :
  Forall P q -> P g -> Forall P (enqueue q g).
Proof.
  intros Hq Hg. unfold enqueue.
  destruct (rev q) as [|lastEntry ?];
    [|destruct (String.eqb lastEntry g); [exact Hq|]];
    apply Forall_app; split; auto.
Qed.

(** What is queued was submitted: a property of every submitted label
    is a property of every entry of the queue. *)
Lemma gestureQueue_Forall (P : string -> Prop) (ops : list Op) :
  (forall o l, In o ops -> submitted_label o = Some l -> P l) ->
  forall s, Forall P (gestureQueue s) -> Forall P (gestureQueue (run s ops)).
Proof.
  unfold run. induction ops as [|o ops IH]; intros Hops s Hs; [exact Hs|].
  cbn [fold_left]. apply IH.
  - intros o' l Hin. apply Hops. right. exact Hin.
  - destruct o as [|[d|]|]; cbn [apply].
    + constructor.
    + unfold submit. destruct (JS.gtb (confidence d) 0.7); cbn [gestureQueue];
        [|exact Hs].
      apply enqueue_Forall; [exact Hs|].
      apply (Hops (Submit (Some d)) (gesture d)); [left|]; reflexivity.
    + exact Hs.
    + unfold stopRecording. destruct (gestureQueue s); [exact Hs | constructor].
Qed.

(** The ten labels of the classifier are own keys of the phrase table,
    and none of them names a member of [Object.prototype]. *)
Lemma labels_own_keys :
  Forall (fun l => JS.own_property GestureRecognition.gestureMap l <> None
                   /\ JS.includes JS.Object_prototype_keys l = false)
         GestureRecognition.labels.
Proof. repeat constructor; discriminate. Qed.

(** C6.  The queue of a recording session holds only labels that were
    submitted, and the labels the classifier submits are its ten
    literals, none of which names a member of [Object.prototype].  For
    every session whose submitted labels name no such member: each
    queued token is shown as its phrase in the table ("hello" as
    "Hello", "help" as "I need help") or, when the table does not have
    it, unchanged; a stop with a non-empty queue posts, in one update, a
    single message whose content is these pieces joined by single
    spaces, and empties the queue; a stop with an empty queue posts
    nothing, hands over the empty text and leaves the queue empty; and a
    second stop in a row posts nothing and hands over the empty text. *)
Theorem stopRecording_converts_queue (ops : list Op)
    (Hops : forall o l, In o ops -> submitted_label o = Some l ->
                        JS.includes JS.Object_prototype_keys l = false) :
  let s := run initial ops in
  Forall (fun l => JS.own_property GestureRecognition.gestureMap l <> None
                   /\ JS.includes JS.Object_prototype_keys l = false)
         GestureRecognition.labels
  /\ GestureRecognition.display "hello" = "Hello"%string
  /\ GestureRecognition.display "help" = "I need help"%string
  /\ Forall (fun token =>
               match JS.own_property GestureRecognition.gestureMap token with
               | Some phrase => GestureRecognition.display token = phrase
               | None => GestureRecognition.display token = token
               end)
            (gestureQueue s)
  /\ (gestureQueue s <> [] ->
      messages (stopRecording s)
      = messages s ++
        [ {| type := "user";
             content := JS.join_space
                          (map GestureRecognition.display (gestureQueue s));
             inputMethod := "sign" |} ]
      /\ stop_text s
         = JS.join_space (map GestureRecognition.display (gestureQueue s))
      /\ gestureQueue (stopRecording s) = [])
  /\ (gestureQueue s = [] ->
      messages (stopRecording s) = messages s
      /\ stop_text s = ""%string
      /\ gestureQueue (stopRecording s) = [])
  /\ messages (stopRecording (stopRecording s)) = messages (stopRecording s)
  /\ stop_text (stopRecording s) = ""%string
  /\ gestureQueue (stopRecording (stopRecording s)) = [].
Proof.
  intros s.
  assert (Hempty : forall t, gestureQueue t = [] ->
              messages (stopRecording t) = messages t
              /\ stop_text t = ""%string
              /\ gestureQueue (stopRecording t) = []).
  { intros t Ht. unfold stop_text, stopRecording. rewrite Ht.
    cbn [messages gestureQueue]. rewrite skipn_all. repeat split; auto. }
  assert (Hq : gestureQueue (stopRecording s) = []).
  { unfold stopRecording. destruct (gestureQueue s) eqn:E; cbn; auto. }
  split; [exact labels_own_keys|].
  split; [reflexivity|]. split; [reflexivity|]. split.
  { assert (H : Forall (fun l => JS.includes JS.Object_prototype_keys l = false)
                       (gestureQueue s)).
    { apply gestureQueue_Forall; [exact Hops | constructor]. }
    eapply Forall_impl; [|exact H]. cbv beta. intros token Hproto.
    unfold GestureRecognition.display, JS.get.
    destruct (JS.own_property GestureRecognition.gestureMap token);
      [reflexivity|]. rewrite Hproto. reflexivity. }
  split.
  { intros Hne. split; [|split; [|exact Hq]].
    - unfold stopRecording. destruct (gestureQueue s); [congruence | reflexivity].
    - unfold stop_text, stopRecording.
      destruct (gestureQueue s) as [|t q]; [congruence|].
      cbn [messages]. rewrite skipn_app, skipn_all, Nat.sub_diag.
      reflexivity. }
  split; [apply Hempty|].
  destruct (Hempty (stopRecording s) Hq) as (H1 & H2 & H3).
  split; [exact H1|]. split; [exact H2 | exact H3].
Qed.

End TextClaims.

(** ** The classifier *)

Section ClassifierClaims.

Import GestureRecognition.

Variable rand : nat -> number.
Variables Math_sin Math_cos : number -> number.
Variable Math_PI : number.

(** With draws in [0, 1) the index computed by
    [simulateGestureRecognition] is inside [labels], so the label is one
    of the ten. *)
Lemma simulateGestureRecognition_label (lm : list (number * number)) (r : nat) :
  0 <= rand r -> rand r < 1 ->
  In (fst (simulateGestureRecognition rand lm r)) labels.
Proof.
  intros H0 H1. unfold simulateGestureRecognition. cbn [fst].
  set (q := rand r * inject_Z (Z.of_nat (List.length labels))).
  assert (Hq : 0 <= q /\ q < 10).
  { subst q. change (inject_Z (Z.of_nat (List.length labels))) with 10.
    split; lra. }
  pose proof (Qfloor_le q) as Hlo. pose proof (Qlt_floor q) as Hhi.
  assert (Hf : (0 <= Qfloor q < 10)%Z).
  { split.
    - assert (H : inject_Z 0 < inject_Z (Qfloor q + 1))
        by (change (inject_Z 0) with 0; lra).
      rewrite <- Zlt_Qlt in H. lia.
    - assert (H : inject_Z (Qfloor q) < inject_Z 10)
        by (change (inject_Z 10) with 10; lra).
      rewrite <- Zlt_Qlt in H. exact H. }
  apply nth_In. change (List.length labels) with 10%nat. lia.
Qed.

(** C7.  Before a successful initialization [processFrame] rejects with
    the not-initialized error: on the fresh service, while an
    initialization is pending and after a failed one.  After a successful
    one, a frame whose intrinsic width or height is zero resolves with no
    sample, and no frame at all makes the call reject. *)
Theorem processFrame_guards (s : Service) (v : Video) (now : number) (r : nat) :
  (initialized s = false \/ model s = false ->
     processFrame rand Math_sin Math_cos Math_PI s v now r
     = (Rejected "Gesture recognition not initialized", r))
  /\ (initialized fresh = false
      /\ initialized (fst (initialize fresh)) = false
      /\ initialized (initialized_service false) = false)
  /\ (initialized (initialized_service true) = true
      /\ model (initialized_service true) = true)
  /\ (initialized s = true ->
      model s = true ->
      (videoWidth v == 0 \/ videoHeight v == 0 ->
         processFrame rand Math_sin Math_cos Math_PI s v now r
         = (Resolved None, r))
      /\ exists data r',
           processFrame rand Math_sin Math_cos Math_PI s v now r
           = (Resolved data, r')).
Proof.
  repeat apply conj; try reflexivity.
  - intros [H | H]; unfold processFrame; rewrite H; cbn;
      [|rewrite orb_true_r]; reflexivity.
  - intros Hi Hm. unfold processFrame. rewrite Hi, Hm. cbn [negb orb].
    split.
    + intros [H | H]; apply Qeq_bool_iff in H; rewrite H; cbn;
        [|rewrite orb_true_r]; reflexivity.
    + destruct (Qeq_bool (videoWidth v) 0 || Qeq_bool (videoHeight v) 0)%bool.
      * eauto.
      * cbv zeta. destruct (simulateGestureRecognition _ _ _) as [g r1]. eauto.
Qed.

End ClassifierClaims.

(** ** Playback *)

Section PlaybackFacts.

Import AvatarService.
Local Open Scope list_scope.

Ltac nothing_new := exists []; rewrite app_nil_r; auto.

Lemma animate_inactive (id : nat) (now : number) (w : World) :
  isAnimating (service w) = false -> animate id now w = resolve id w.
Proof. intros H. unfold animate. rewrite H. reflexivity. Qed.

(** Away from [playAnimation], an inactive player stays inactive and
    draws nothing. *)
Lemma step_inactive (w : World) (e : Event) :
  is_play e = false ->
  isAnimating (service w) = false ->
  isAnimating (service (step w e)) = false /\ renders (step w e) = renders w.
Proof.
  intros He Hw. destruct e as [a t0 t1 | now |]; [discriminate | |].
  - cbn [step]. destruct (scheduled w) as [|id rest] eqn:E.
    + auto.
    + rewrite animate_inactive by exact Hw. auto.
  - cbn. auto.
Qed.

Lemma run_inactive (es : list Event) :
  forall w,
    Forall (fun e => is_play e = false) es ->
    isAnimating (service w) = false ->
    isAnimating (service (run w es)) = false /\ renders (run w es) = renders w.
Proof.
  induction es as [|e es IH]; intros w Hes Hw; [auto|].
  inversion Hes as [|? ? He Hes']; subst.
  destruct (step_inactive w e He Hw) as (Hi & Hr).
  cbn [run fold_left]. destruct (IH (step w e) Hes' Hi) as (Hi' & Hr').
  unfold run in *. split; [exact Hi' | congruence].
Qed.

(** A tick that sees the duration reached switches the player off and
    draws nothing. *)
Lemma animate_completes (id : nat) (now : number) (w : World)
    (a : AvatarAnimation) :
  currentAnimation (service w) = Some a ->
  duration a <= now - animationStartTime (service w) ->
  isAnimating (service (animate id now w)) = false
  /\ renders (animate id now w) = renders w.
Proof.
  intros Ha Hd. unfold animate. rewrite Ha.
  destruct (isAnimating (service w)) eqn:E; [|cbn; auto].
  apply geb_true in Hd. rewrite Hd. cbn. auto.
Qed.

(** One run of [animate] draws at most once, from the current animation,
    and keeps every callback that was scheduled. *)
Lemma animate_draws (id : nat) (now : number) (w : World)
    (a : AvatarAnimation) :
  currentAnimation (service w) = Some a ->
  currentAnimation (service (animate id now w)) = Some a
  /\ (exists news, renders (animate id now w) = renders w ++ news
                   /\ Forall (rendered_from a) news)
  /\ (exists more, scheduled (animate id now w) = scheduled w ++ more).
Proof.
  intros Ha. unfold animate. rewrite Ha.
  destruct (isAnimating (service w)) eqn:E; [|cbn; split; [exact Ha | split; nothing_new]].
  destruct (JS.geb (now - animationStartTime (service w)) (duration a));
    [cbn; split; [exact Ha | split; nothing_new]|].
  unfold renderFrame. rewrite Ha.
  destruct (canvasReady (service w)).
  - destruct (interpolatePose (Some a) (now - animationStartTime (service w)))
      as [p|] eqn:Ep; cbn; (split; [exact Ha | split]).
    + eexists. split; [reflexivity|]. repeat constructor. exact Ep.
    + exists [id]. reflexivity.
    + nothing_new.
    + nothing_new.
  - cbn. split; [exact Ha | split].
    + nothing_new.
    + exists [id]. reflexivity.
Qed.

Lemma step_draws (w : World) (e : Event) (a : AvatarAnimation) :
  is_play e = false ->
  currentAnimation (service w) = Some a ->
  currentAnimation (service (step w e)) = Some a
  /\ exists news, renders (step w e) = renders w ++ news
                  /\ Forall (rendered_from a) news.
Proof.
  intros He Ha. destruct e as [a' t0 t1 | now |]; [discriminate | |].
  - cbn [step]. destruct (scheduled w) as [|id rest] eqn:E.
    + split; [exact Ha|]. exists []. rewrite app_nil_r; auto.
    + destruct (animate_draws id now (pop_scheduled w) a Ha) as (Hc & Hr & _).
      split; [exact Hc | exact Hr].
  - cbn. split; [exact Ha|]. exists []. rewrite app_nil_r; auto.
Qed.

Lemma run_draws (es : list Event) (a : AvatarAnimation) :
  forall w,
    Forall (fun e => is_play e = false) es ->
    currentAnimation (service w) = Some a ->
    currentAnimation (service (run w es)) = Some a
    /\ exists news, renders (run w es) = renders w ++ news
                    /\ Forall (rendered_from a) news.
Proof.
  induction es as [|e es IH]; intros w Hes Ha.
  - split; [exact Ha|]. exists []. rewrite app_nil_r; auto.
  - inversion Hes as [|? ? He Hes']; subst.
    destruct (step_draws w e a He Ha) as (Hc & n1 & Hr1 & Hf1).
    destruct (IH (step w e) Hes' Hc) as (Hc' & n2 & Hr2 & Hf2).
    cbn [run fold_left]. unfold run in *. split; [exact Hc'|].
    exists (n1 ++ n2). rewrite Hr2, Hr1, app_assoc. split; [reflexivity|].
    apply Forall_app; auto.
Qed.

End PlaybackFacts.

Section PlaybackClaims.

Import AvatarService.
Local Open Scope list_scope.

(** C3, as the code has it.  A call of [playAnimation] makes its
    animation the current one, whatever was playing; from then on, and
    until the next call of [playAnimation], the current animation stays
    that one and every pose handed to [drawAvatar] is interpolated from
    it.  Nothing that was scheduled before the call is cancelled. *)
Theorem playAnimation_supersedes (w : World) (a2 : AvatarAnimation)
    (started now : number) (es : list Event)
    (Hes : Forall (fun e => is_play e = false) es) :
  let w2 := playAnimation a2 started now w in
  currentAnimation (service w2) = Some a2
  /\ currentAnimation (service (run w2 es)) = Some a2
  /\ (exists news, renders (run w2 es) = renders w ++ news
                   /\ Forall (rendered_from a2) news)
  /\ (exists more, scheduled w2 = scheduled w ++ more).
Proof.
  intros w2. subst w2. unfold playAnimation.
  set (w' := {| service := _; calls := _; scheduled := scheduled w;
                settled := _; thrown := _; renders := renders w |}).
  assert (Ha : currentAnimation (service w') = Some a2) by reflexivity.
  destruct (animate_draws (calls w) now w' a2 Ha) as (Hc & (n1 & Hr1 & Hf1) & Hs).
  destruct (run_draws es a2 _ Hes Hc) as (Hc' & n2 & Hr2 & Hf2).
  repeat apply conj; [exact Hc | exact Hc' | | exact Hs].
  exists (n1 ++ n2). rewrite Hr2, Hr1, app_assoc. split; [reflexivity|].
  apply Forall_app; auto.
Qed.

(** C3 as stated fails: "hello" is playing, "help" is started, and the
    callback scheduled by the first playback is still scheduled; when it
    runs it draws again, so two loops now draw the new animation. *)
Lemma second_play_keeps_first_loop :
  isAnimating (service playing_hello) = true
  /\ scheduled playing_hello = [0%nat]
  /\ scheduled playing_help_over_hello = [0%nat; 1%nat]
  /\ settled playing_help_over_hello = []
  /\ ~ previous_stopped playing_hello playing_help_over_hello
  /\ map by_loop (renders (run playing_help_over_hello [Frame 116]))
     = [0%nat; 1%nat; 0%nat].
Proof.
  repeat apply conj; try reflexivity.
  intros H. apply (H 0%nat); left; reflexivity.
Qed.

(** C5 as stated fails: "hello" is playing with its callback scheduled,
    [stopAnimation] is called, then "help" is started; the callback that
    was scheduled before the stop finds the player active again and
    draws a frame of the new animation. *)
Lemma stopped_tick_draws_after_play :
  scheduled playing_hello = [0%nat]
  /\ isAnimating (service (stopAnimation playing_hello)) = false
  /\ map by_loop (renders playing_hello) = [0%nat]
  /\ map by_loop
       (renders (run (stopAnimation playing_hello)
                     [Play help_animation 100 100; Frame 116]))
     = [0%nat; 1%nat; 0%nat]
  /\ ~ stop_is_final playing_hello.
Proof.
  repeat apply conj; try reflexivity.
  intros H.
  specialize (H [Play help_animation 100 100; Frame 116] 0%nat
                (or_introl eq_refl)).
  apply (f_equal (@List.length Render)) in H.
  vm_compute in H. discriminate H.
Qed.

(** C5, as the code has it.  After [stopAnimation], and after a tick
    that sees the elapsed time reach the duration (the first tick, run by
    [playAnimation] itself, or a scheduled one run by the event loop),
    the player is inactive; as long as [playAnimation] is not called
    again it stays inactive and nothing is drawn, whatever callbacks
    were scheduled before.  [stopAnimation] is defined on every state,
    the initial one included, and stopping twice is stopping once. *)
Theorem playback_end_is_final (w : World) (id : nat) (now : number)
    (a : AvatarAnimation) (es : list Event)
    (Hes : Forall (fun e => is_play e = false) es) :
  (isAnimating (service (stopAnimation w)) = false
   /\ isAnimating (service (run (stopAnimation w) es)) = false
   /\ renders (run (stopAnimation w) es) = renders w)
  /\ (currentAnimation (service w) = Some a ->
      duration a <= now - animationStartTime (service w) ->
      isAnimating (service (animate id now w)) = false
      /\ isAnimating (service (run (animate id now w) es)) = false
      /\ renders (run (animate id now w) es) = renders w)
  /\ (forall rest,
      scheduled w = id :: rest ->
      currentAnimation (service w) = Some a ->
      duration a <= now - animationStartTime (service w) ->
      isAnimating (service (step w (Frame now))) = false
      /\ isAnimating (service (run (step w (Frame now)) es)) = false
      /\ renders (run (step w (Frame now)) es) = renders w)
  /\ stopAnimation (stopAnimation w) = stopAnimation w
  /\ stopAnimation initial = initial.
Proof.
  repeat apply conj; try reflexivity.
  - apply (run_inactive es (stopAnimation w) Hes eq_refl).
  - apply (run_inactive es (stopAnimation w) Hes eq_refl).
  - intros Ha Hd. destruct (animate_completes id now w a Ha Hd) as (Hi & Hr).
    destruct (run_inactive es _ Hes Hi) as (Hi' & Hr').
    repeat split; [exact Hi | exact Hi' | congruence].
  - intros rest Hsch Ha Hd. cbn [step]. rewrite Hsch.
    destruct (animate_completes id now (pop_scheduled w) a Ha Hd) as (Hi & Hr).
    destruct (run_inactive es _ Hes Hi) as (Hi' & Hr').
    repeat split; [exact Hi | exact Hi' |].
    rewrite Hr'. exact Hr.
Qed.

End PlaybackClaims.

(** * Instances

    Each statement above that carries a premise, applied to a concrete
    run. *)

Section Instances.

Import AvatarService.
Local Open Scope list_scope.

(** The empty text with every draw equal to one half. *)
Lemma textToAnimation_empty_half_draws :
  (forall n : nat, 0 <= (fun _ : nat => 1 # 2) n /\ (fun _ : nat => 1 # 2) n < 1)
  /\ List.length (keyframes (fst (textToAnimation (fun _ => 1 # 2) "" 0))) = 3%nat
  /\ in_fallback_range (random_gesture (fun _ => 1 # 2) 0).
Proof.
  assert (H : forall n : nat,
             0 <= (fun _ : nat => 1 # 2) n /\ (fun _ : nat => 1 # 2) n < 1).
  { intros n. split; [discriminate | reflexivity]. }
  split; [exact H|].
  destruct (textToAnimation_empty (fun _ => 1 # 2) 0%nat H) as (_ & _ & Hk & Hr).
  split; [rewrite Hk; reflexivity | exact Hr].
Defined.

Lemma hello_animation_well_formed : well_formed hello_animation.
Proof.
  repeat apply conj.
  - vm_compute. lia.
  - repeat constructor; discriminate.
  - vm_compute. repeat constructor; discriminate.
  - intros k H. injection H as <-. reflexivity.
Defined.

Lemma hello_animation_is_double :
  Forall Double.keyframe_is_double (keyframes hello_animation).
Proof.
  evaluate_keyframes hello_animation.
  repeat apply Forall_cons; try apply Forall_nil;
    vm_compute; repeat split; reflexivity.
Defined.

(** Halfway between rest at 0 and the hello pose at 500: the progress is
    1/2, and the left arm, whose two positions 0 and -30 have a double
    for difference, half difference and mean, is at x = -15. *)
Lemma interpolatePose_double_hello_at_250 :
  well_formed hello_animation
  /\ Forall Double.keyframe_is_double (keyframes hello_animation)
  /\ Double.progress_of (neutral_keyframe 0) hello_keyframe 250 = 1 # 2
  /\ exists q g,
       Double.interpolatePose (Some hello_animation) 250 = Some q
       /\ pose q = Some g
       /\ x (leftArm g) == -15.
Proof.
  split; [exact hello_animation_well_formed|].
  split; [exact hello_animation_is_double|].
  destruct (interpolatePose_double_properties hello_animation
              hello_animation_well_formed hello_animation_is_double)
    as (_ & Hmid & Hmean & _).
  destruct (Hmid [] (neutral_keyframe 0) hello_keyframe
              [neutral_keyframe 1000] 250 eq_refl eq_refl eq_refl
              eq_refl eq_refl)
    as (gi & gj & q & Hgi & Hgj & Hp & Hq & Hg).
  split; [exact Hp|].
  exists q. eexists. split; [exact Hq|]. split; [exact Hg|].
  injection Hgi as <-. injection Hgj as <-.
  apply (Qeq_trans _ (mean 0 (-30)));
    [exact (Hmean 0 (-30) eq_refl eq_refl eq_refl) | reflexivity].
Defined.

(** "b" at 0.8 after "a": appended. *)
Lemma submit_b_after_a :
  0.7 < confidence (VideoInput.sample "b" 0.8)
  /\ "a"%string <> gesture (VideoInput.sample "b" 0.8)
  /\ VideoInput.gestureQueue
       (VideoInput.submit (Some (VideoInput.sample "b" 0.8))
          (VideoInput.submit (Some (VideoInput.sample "a" 0.9)) VideoInput.initial))
     = ["a"; "b"]%string.
Proof.
  assert (Hc : 0.7 < confidence (VideoInput.sample "b" 0.8)) by reflexivity.
  assert (Hne : "a"%string <> gesture (VideoInput.sample "b" 0.8)) by discriminate.
  split; [exact Hc|]. split; [exact Hne|].
  destruct (submit_gate_and_dedup
              (VideoInput.submit (Some (VideoInput.sample "a" 0.9)) VideoInput.initial))
    as (_ & _ & _ & H & _).
  apply (H (VideoInput.sample "b" 0.8) [] "a"%string Hc eq_refl Hne).
Defined.

(** An initialized classifier on a frame of width 0. *)
Lemma processFrame_zero_width :
  let s := GestureRecognition.initialized_service true in
  let v := {| GestureRecognition.videoWidth := 0;
              GestureRecognition.videoHeight := 480;
              GestureRecognition.width := 640;
              GestureRecognition.height := 480 |} in
  GestureRecognition.initialized s = true
  /\ GestureRecognition.model s = true
  /\ GestureRecognition.videoWidth v == 0
  /\ GestureRecognition.processFrame no_draw (fun t => t) (fun t => t) 3 s v 1000 0
     = (GestureRecognition.Resolved None, 0%nat).
Proof.
  intros s v.
  split; [reflexivity|]. split; [reflexivity|]. split; [reflexivity|].
  destruct (processFrame_guards no_draw (fun t => t) (fun t => t) 3 s v 1000 0%nat)
    as (_ & _ & _ & H).
  destruct (H eq_refl eq_refl) as (Hz & _).
  apply Hz. left. reflexivity.
Defined.

(** "help" started over "hello", then a frame, a stop and another frame. *)
Lemma play_help_over_hello :
  Forall (fun e => is_play e = false) [Frame 116; Stop; Frame 132]
  /\ currentAnimation
       (service (run playing_help_over_hello [Frame 116; Stop; Frame 132]))
     = Some help_animation
  /\ exists news,
       renders (run playing_help_over_hello [Frame 116; Stop; Frame 132])
       = renders playing_hello ++ news
       /\ Forall (rendered_from help_animation) news.
Proof.
  assert (Hes : Forall (fun e => is_play e = false) [Frame 116; Stop; Frame 132])
    by (repeat constructor).
  split; [exact Hes|].
  destruct (playAnimation_supersedes playing_hello help_animation 100 100
              [Frame 116; Stop; Frame 132] Hes) as (_ & Hc & Hr & _).
  split; [exact Hc | exact Hr].
Defined.

(** A session that records "hello" and then "help", both answers of the
    classifier: the stop posts "Hello I need help" and empties the
    queue. *)
Lemma hello_help_session_text :
  Forall (fun l => In l GestureRecognition.labels) ["hello"; "help"]%string
  /\ VideoInput.gestureQueue
       (VideoInput.run VideoInput.initial
          [VideoInput.Start;
           VideoInput.Submit (Some (VideoInput.sample "hello" 0.9));
           VideoInput.Submit (Some (VideoInput.sample "help" 0.8))])
     = ["hello"; "help"]%string
  /\ VideoInput.stop_text
       (VideoInput.run VideoInput.initial
          [VideoInput.Start;
           VideoInput.Submit (Some (VideoInput.sample "hello" 0.9));
           VideoInput.Submit (Some (VideoInput.sample "help" 0.8))])
     = "Hello I need help"%string
  /\ VideoInput.gestureQueue
       (VideoInput.run VideoInput.initial
          [VideoInput.Start;
           VideoInput.Submit (Some (VideoInput.sample "hello" 0.9));
           VideoInput.Submit (Some (VideoInput.sample "help" 0.8));
           VideoInput.StopOp])
     = [].
Proof.
  split; [repeat constructor; cbn; tauto|].
  split; [reflexivity|].
  assert (Hops : forall o l,
             In o [VideoInput.Start;
                   VideoInput.Submit (Some (VideoInput.sample "hello" 0.9));
                   VideoInput.Submit (Some (VideoInput.sample "help" 0.8))] ->
             VideoInput.submitted_label o = Some l ->
             JS.includes JS.Object_prototype_keys l = false).
  { intros o l [<-|[<-|[<-|[]]]] H; try discriminate H;
      injection H as <-; reflexivity. }
  destruct (stopRecording_converts_queue _ Hops) as (_ & _ & _ & _ & Hstop & _).
  destruct Hstop as (_ & Ht & Hq); [discriminate|].
  split; [exact Ht | exact Hq].
Defined.

(** "hello" is playing; the scheduled tick runs at 1000 and ends it, and
    the callbacks that fire afterwards draw nothing. *)
Lemma hello_runs_out :
  Forall (fun e => is_play e = false) [Frame 1016; Stop; Frame 1032]
  /\ scheduled playing_hello = [0%nat]
  /\ currentAnimation (service playing_hello) = Some hello_animation
  /\ duration hello_animation <= 1000 - animationStartTime (service playing_hello)
  /\ isAnimating (service (step playing_hello (Frame 1000))) = false
  /\ renders (run playing_hello [Frame 1000; Frame 1016; Stop; Frame 1032])
     = renders playing_hello
  /\ renders (run playing_hello [Stop; Frame 1016; Stop; Frame 1032])
     = renders playing_hello.
Proof.
  assert (Hes : Forall (fun e => is_play e = false) [Frame 1016; Stop; Frame 1032])
    by (repeat constructor).
  assert (Hd : duration hello_animation
               <= 1000 - animationStartTime (service playing_hello))
    by discriminate.
  destruct (playback_end_is_final playing_hello 0%nat 1000 hello_animation
              [Frame 1016; Stop; Frame 1032] Hes)
    as ((_ & _ & Hs) & _ & Hend & _).
  destruct (Hend [] eq_refl eq_refl Hd) as (Hi & _ & Hr).
  split; [exact Hes|]. split; [reflexivity|]. split; [reflexivity|].
  split; [exact Hd|].
  split; [exact Hi|]. split; [exact Hr | exact Hs].
Defined.

End Instances.

(** * Further properties of the synthesizer *)

Section SynthesisMore.

Import AvatarService.
Local Open Scope list_scope.

Variable rand : nat -> number.

Lemma split_from_count (s cur : string) :
  List.length (JS.split_from cur s) = S (JS.count_spaces s).
Proof.
  revert cur. induction s as [|c s IH]; intros cur; simpl; [reflexivity|].
  destruct (Ascii.eqb c " "); simpl; rewrite IH; reflexivity.
Qed.

Lemma lower_ascii_space (c : ascii) :
  Ascii.eqb (JS.lower_ascii c) " " = Ascii.eqb c " ".
Proof. destruct c as [[] [] [] [] [] [] [] []]; reflexivity. Qed.

Lemma lower_ascii_idem (c : ascii) :
  JS.lower_ascii (JS.lower_ascii c) = JS.lower_ascii c.
Proof. destruct c as [[] [] [] [] [] [] [] []]; reflexivity. Qed.

Lemma toLowerCase_idem (s : string) :
  JS.toLowerCase (JS.toLowerCase s) = JS.toLowerCase s.
Proof.
  induction s as [|c s IH]; simpl; [reflexivity|].
  rewrite lower_ascii_idem, IH. reflexivity.
Qed.

Lemma count_spaces_lower (s : string) :
  JS.count_spaces (JS.toLowerCase s) = JS.count_spaces s.
Proof.
  induction s as [|c s IH]; simpl; [reflexivity|].
  rewrite lower_ascii_space, IH. reflexivity.
Qed.

Lemma words_of_length (text : string) :
  List.length (words_of text) = S (JS.count_spaces text).
Proof.
  unfold words_of, JS.split_space.
  rewrite split_from_count, count_spaces_lower. reflexivity.
Qed.

(** X1.  The words are counted by the spaces: a text with [k] spaces
    gives [k + 3] keyframes and lasts [500 (k + 2)] ms, whatever stands
    between the spaces. *)
Theorem textToAnimation_counts_spaces (text : string) (r : nat) :
  let a := fst (textToAnimation rand text r) in
  List.length (keyframes a) = (JS.count_spaces text + 3)%nat
  /\ duration a = inject_Z (500 * Z.of_nat (JS.count_spaces text + 2)).
Proof.
  intros a.
  destruct (textToAnimation_shape rand text r) as (middle & Hk & Hm & Hd).
  fold a in Hk, Hd. fold (words_of text) in Hk, Hm, Hd.
  rewrite words_of_length in Hk, Hm, Hd.
  split.
  - rewrite Hk. cbn [List.length]. rewrite length_app. cbn [List.length].
    assert (Hl : List.length middle = S (JS.count_spaces text)).
    { rewrite <- (length_map timestamp), Hm. unfold ticks_from.
      rewrite length_map, length_seq. reflexivity. }
    rewrite Hl. lia.
  - rewrite Hd. f_equal. lia.
Qed.

(** Upper-case letters do not matter: a text and its lower-case
    form give the same animation and make the same draws. *)
Lemma textToAnimation_ignores_case (text : string) (r : nat) :
  textToAnimation rand (JS.toLowerCase text) r = textToAnimation rand text r.
Proof.
  unfold textToAnimation. rewrite toLowerCase_idem. reflexivity.
Qed.

(** The keyframe the loop appends for a word. *)
Lemma word_step_unfold (st : Synth) (w : string) :
  word_step rand st w =
  {| currentTime := currentTime st + 500;
     frames := frames st ++
               [ {| timestamp := currentTime st + 500;
                    pose := fst (getGestureForWord rand w (draws st));
                    expression := getExpressionForWord w |} ];
     draws := snd (getGestureForWord rand w (draws st)) |}.
Proof.
  unfold word_step. destruct (getGestureForWord rand w (draws st)); reflexivity.
Qed.

Lemma getGestureForWord_draws (w : string) (r : nat) :
  snd (getGestureForWord rand w r)
  = (r + (if draws_random w then 7 else 0))%nat.
Proof.
  unfold getGestureForWord, draws_random.
  destruct (JS.get gestures w); cbn; lia.
Qed.

Lemma forEach_words_draws (words : list string) :
  forall st,
    draws (fold_left (word_step rand) words st)
    = (draws st + 7 * List.length (filter draws_random words))%nat.
Proof.
  induction words as [|w ws IH]; intros st; simpl; [lia|].
  rewrite IH, word_step_unfold. cbn [draws].
  rewrite getGestureForWord_draws.
  destruct (draws_random w); cbn [List.length]; lia.
Qed.

End SynthesisMore.

Section SynthesisDraws.

Import AvatarService.
Local Open Scope list_scope.

Lemma getGestureForWord_no_draw (rand1 rand2 : nat -> number) (w : string)
    (r1 r2 : nat) :
  draws_random w = false ->
  fst (getGestureForWord rand1 w r1) = fst (getGestureForWord rand2 w r2).
Proof.
  unfold getGestureForWord, draws_random.
  destruct (JS.get gestures w); [reflexivity | reflexivity | discriminate].
Qed.

Lemma forEach_words_no_draw (rand1 rand2 : nat -> number) (words : list string) :
  Forall (fun w => draws_random w = false) words ->
  forall st1 st2,
    currentTime st1 = currentTime st2 -> frames st1 = frames st2 ->
    currentTime (fold_left (word_step rand1) words st1)
    = currentTime (fold_left (word_step rand2) words st2)
    /\ frames (fold_left (word_step rand1) words st1)
       = frames (fold_left (word_step rand2) words st2).
Proof.
  induction 1 as [|w ws Hw _ IH]; intros st1 st2 Ht Hf; simpl; [auto|].
  apply IH; rewrite !word_step_unfold; cbn [currentTime frames].
  - rewrite Ht. reflexivity.
  - rewrite Ht, Hf,
      (getGestureForWord_no_draw rand1 rand2 w (draws st1) (draws st2) Hw).
    reflexivity.
Qed.

(** X2.  In a text of ASCII characters, each word that is neither
    tabled nor the name of a member of [Object.prototype] costs seven
    draws of [Math.random()], and no other word costs any; such a text
    without such a word gives the same animation whatever
    [Math.random()] returns. *)
Theorem textToAnimation_draws (rand1 rand2 : nat -> number) (text : string)
    (r1 r2 : nat) (Hascii : JS.is_ascii text = true) :
  snd (textToAnimation rand1 text r1)
  = (r1 + 7 * List.length (filter draws_random (words_of text)))%nat
  /\ (Forall (fun w => draws_random w = false) (words_of text) ->
      fst (textToAnimation rand1 text r1) = fst (textToAnimation rand2 text r2)
      /\ snd (textToAnimation rand1 text r1) = r1).
Proof.
  split.
  - unfold textToAnimation. cbn [snd]. fold (words_of text).
    rewrite forEach_words_draws. reflexivity.
  - intros Hw. split.
    + unfold textToAnimation. cbn [fst]. fold (words_of text).
      set (s1 := {| currentTime := 0; frames := [neutral_keyframe 0]; draws := r1 |}).
      set (s2 := {| currentTime := 0; frames := [neutral_keyframe 0]; draws := r2 |}).
      destruct (forEach_words_no_draw rand1 rand2 (words_of text) Hw s1 s2
                  eq_refl eq_refl) as (Ht & Hf).
      rewrite Ht, Hf. reflexivity.
    + unfold textToAnimation. cbn [snd]. fold (words_of text).
      rewrite forEach_words_draws. cbn [draws].
      replace (filter draws_random (words_of text)) with (@nil string);
        [cbn; lia|].
      symmetry. induction Hw as [|w ws Hw _ IH]; [reflexivity|].
      cbn [filter]. rewrite Hw. exact IH.
Qed.

End SynthesisDraws.

Section SynthesisPoses.

Import AvatarService.
Local Open Scope list_scope.

Variable rand : nat -> number.

Lemma own_property_In {A : Type} (obj : list (string * A)) (key : string) (v : A) :
  JS.own_property obj key = Some v -> In v (map snd obj).
Proof.
  induction obj as [|[k0 v0] obj IH]; simpl; [discriminate|].
  destruct (String.eqb k0 key).
  - intros H; injection H as <-. left; reflexivity.
  - intros H. right. apply IH, H.
Qed.

Lemma gestures_bounded : Forall gesture_bounded (map snd gestures).
Proof.
  repeat constructor; cbn; lra.
Qed.

Lemma random_gesture_bounded (r : nat) :
  (forall n, 0 <= rand n /\ rand n < 1) -> gesture_bounded (random_gesture rand r).
Proof.
  intros Hrand.
  repeat split; cbn [random_gesture leftArm rightArm head head_rotation limb
                     x y rotation];
    match goal with
    | |- context [rand ?k] => pose proof (Hrand k)
    end; lra.
Qed.

Lemma getGestureForWord_bounded (w : string) (r : nat) :
  (forall n, 0 <= rand n /\ rand n < 1) ->
  match fst (getGestureForWord rand w r) with
  | Some g => gesture_bounded g
  | None => True
  end.
Proof.
  intros Hrand. unfold getGestureForWord, JS.get.
  destruct (JS.own_property gestures w) as [g|] eqn:E; cbn [fst].
  - pose proof gestures_bounded as Hb. rewrite Forall_forall in Hb.
    apply Hb. apply (own_property_In gestures w g E).
  - destruct (JS.includes JS.Object_prototype_keys w); cbn [fst].
    + exact I.
    + apply random_gesture_bounded, Hrand.
Qed.

Lemma getGestureForWord_pose (w : string) (r : nat) :
  JS.includes JS.Object_prototype_keys w = false ->
  fst (getGestureForWord rand w r) <> None.
Proof.
  intros Hw. unfold getGestureForWord, JS.get.
  destruct (JS.own_property gestures w); [discriminate|].
  rewrite Hw. discriminate.
Qed.

(** A property of keyframes that holds of what the loop starts with and
    of whatever keyframe a word contributes holds of every keyframe. *)
Lemma forEach_words_Forall (P : AvatarKeyframe -> Prop) (words : list string) :
  (forall w t r, In w words ->
     P {| timestamp := t; pose := fst (getGestureForWord rand w r);
          expression := getExpressionForWord w |}) ->
  forall st, Forall P (frames st) ->
             Forall P (frames (fold_left (word_step rand) words st)).
Proof.
  induction words as [|w ws IH]; intros HP st Hst; simpl; [exact Hst|].
  apply IH.
  - intros w' t r Hin. apply HP. right. exact Hin.
  - rewrite word_step_unfold. cbn [frames]. apply Forall_app. split; [exact Hst|].
    repeat constructor. apply HP. left. reflexivity.
Qed.

Lemma textToAnimation_Forall (P : AvatarKeyframe -> Prop) (text : string) (r : nat) :
  (forall t, P (neutral_keyframe t)) ->
  (forall w t r', In w (words_of text) ->
     P {| timestamp := t; pose := fst (getGestureForWord rand w r');
          expression := getExpressionForWord w |}) ->
  Forall P (keyframes (fst (textToAnimation rand text r))).
Proof.
  intros Hn Hw. unfold textToAnimation. cbn [fst keyframes].
  fold (words_of text). apply Forall_app. split.
  - apply forEach_words_Forall; [exact Hw|]. cbn [frames].
    repeat constructor. apply Hn.
  - repeat constructor. apply Hn.
Qed.

(** X3.  With every draw in [0, 1), every keyframe of every synthesized
    animation keeps its arms within x in [-30, 30], y in [-30, 10],
    rotation in [-60, 60], and its head rotation within [-10, 10]. *)
Theorem textToAnimation_bounded (text : string) (r : nat)
    (Hrand : forall n, 0 <= rand n /\ rand n < 1) :
  Forall keyframe_bounded (keyframes (fst (textToAnimation rand text r))).
Proof.
  apply textToAnimation_Forall.
  - intros t. unfold keyframe_bounded. cbn [pose neutral_keyframe].
    repeat split; cbn; lra.
  - intros w t r' _. unfold keyframe_bounded. cbn [pose].
    apply getGestureForWord_bounded, Hrand.
Qed.

(** The stamps 0, 500, ..., 500 (n + 1) never decrease. *)
Lemma stamps_sorted (n : nat) :
  StronglySorted Qle
    (0 :: ticks_from 0 n ++ [inject_Z (500 * Z.of_nat (S n))]).
Proof.
  constructor.
  - apply StronglySorted_snoc.
    + apply ticks_from_sorted.
    + replace (500 * Z.of_nat (S n))%Z with (0 + 500 * Z.of_nat (S n))%Z by lia.
      apply ticks_from_upper.
  - apply Forall_app. split.
    + apply (ticks_from_lower n 0).
    + repeat constructor. change 0 with (inject_Z 0).
      rewrite <- Zle_Qle. lia.
Qed.

Lemma textToAnimation_stamps (text : string) (r : nat) :
  let a := fst (textToAnimation rand text r) in
  let n := List.length (words_of text) in
  map timestamp (keyframes a)
  = 0 :: ticks_from 0 n ++ [inject_Z (500 * Z.of_nat (S n))]
  /\ duration a = inject_Z (500 * Z.of_nat (S n))
  /\ hd_error (keyframes a) = Some (neutral_keyframe 0)
  /\ last (keyframes a) (neutral_keyframe 0) = neutral_keyframe (duration a).
Proof.
  intros a n.
  destruct (textToAnimation_shape rand text r) as (middle & Hk & Hm & Hd).
  fold a in Hk, Hd. fold (words_of text) in Hk, Hm, Hd. fold n in Hk, Hm, Hd.
  rewrite Hk, Hd. repeat split.
  - cbn [map timestamp neutral_keyframe]. rewrite map_app, Hm. reflexivity.
  - rewrite app_comm_cons. apply last_last.
Qed.

Lemma interpolatePose_total (a : AvatarAnimation) (elapsed : number) :
  keyframes a <> [] ->
  Forall (fun k => pose k <> None) (keyframes a) ->
  exists q, interpolatePose (Some a) elapsed = Some q.
Proof.
  intros Hne Hp.
  destruct (surrounding (keyframes a) elapsed) as [[p n]|] eqn:Hs.
  - destruct (surrounding_members _ _ _ _ Hs) as (Hip & Hin).
    rewrite Forall_forall in Hp.
    pose proof (Hp p Hip) as Hpp. pose proof (Hp n Hin) as Hpn.
    destruct (pose p) as [gp|] eqn:Egp; [|congruence].
    destruct (pose n) as [gn|] eqn:Egn; [|congruence].
    eexists. apply (interpolatePose_surrounding a elapsed p n gp gn Hs Egp Egn).
  - unfold surrounding in Hs. destruct (keyframes a); [congruence|].
    destruct (find_bracket elapsed (a0 :: l)); discriminate.
Qed.

(** X4.  A text none of whose words is the name of a member of
    [Object.prototype] gives a well-formed animation, and interpolating
    it returns a pose at every elapsed time. *)
Theorem textToAnimation_usable (text : string) (r : nat)
    (Hwords : Forall (fun w => JS.includes JS.Object_prototype_keys w = false)
                     (words_of text)) :
  well_formed (fst (textToAnimation rand text r))
  /\ forall elapsed,
       exists q, interpolatePose (Some (fst (textToAnimation rand text r))) elapsed
                 = Some q.
Proof.
  set (a := fst (textToAnimation rand text r)).
  destruct (textToAnimation_stamps text r) as (Hst & Hd & Hhd & _). fold a in Hst, Hd, Hhd.
  assert (Hp : Forall (fun k => pose k <> None) (keyframes a)).
  { apply textToAnimation_Forall.
    - intros t. discriminate.
    - intros w t r' Hin. cbn [pose]. apply getGestureForWord_pose.
      rewrite Forall_forall in Hwords. apply Hwords, Hin. }
  assert (Hlen : (2 <= List.length (keyframes a))%nat).
  { rewrite <- (length_map timestamp), Hst. cbn [List.length].
    rewrite length_app. cbn [List.length]. lia. }
  split.
  - repeat apply conj; [exact Hlen | exact Hp | rewrite Hst; apply stamps_sorted |].
    intros k Hk. rewrite Hhd in Hk. injection Hk as <-. reflexivity.
  - intros elapsed. apply interpolatePose_total; [|exact Hp].
    intros E. rewrite E in Hlen. cbn in Hlen. lia.
Qed.

End SynthesisPoses.

(** * Further properties of the interpolation *)

Section InterpolationMore.

Import AvatarService.
Local Open Scope list_scope.

Lemma find_bracket_sound (elapsed : number) (kfs : list AvatarKeyframe)
    (p n : AvatarKeyframe) :
  find_bracket elapsed kfs = Some (p, n) ->
  timestamp p <= elapsed /\ elapsed <= timestamp n.
Proof.
  induction kfs as [|k0 kfs IH]; [discriminate|].
  destruct kfs as [|k1 rest]; [discriminate|].
  cbn [find_bracket].
  destruct (JS.geb elapsed (timestamp k0)) eqn:E0;
    destruct (JS.leb elapsed (timestamp k1)) eqn:E1; cbn [andb]; try exact IH.
  intros H; injection H as <- <-.
  apply geb_true in E0. apply leb_true in E1. auto.
Qed.

Lemma progress_of_unit (p n : AvatarKeyframe) (elapsed : number) :
  timestamp p <= elapsed -> elapsed <= timestamp n ->
  0 <= progress_of p n elapsed /\ progress_of p n elapsed <= 1.
Proof.
  intros Hlo Hhi. unfold progress_of.
  destruct (JS.gtb (timestamp n - timestamp p) 0) eqn:E.
  - apply gtb_true in E. split.
    + apply Qle_shift_div_l; lra.
    + apply Qle_shift_div_r; lra.
  - split; lra.
Qed.

(** On a sorted list that starts no later than [elapsed] and ends no
    earlier, the loop finds a pair. *)
Lemma find_bracket_exists (elapsed : number) (d : AvatarKeyframe)
    (kfs : list AvatarKeyframe) :
  forall k0 k1 rest,
    kfs = k0 :: k1 :: rest ->
    timestamp k0 <= elapsed ->
    elapsed <= timestamp (last kfs d) ->
    exists p n, find_bracket elapsed kfs = Some (p, n).
Proof.
  induction kfs as [|c kfs IH]; intros k0 k1 rest Hk Hlo Hhi; [discriminate|].
  injection Hk as -> ->. cbn [find_bracket].
  assert (H0 : JS.geb elapsed (timestamp k0) = true) by (apply geb_true; exact Hlo).
  rewrite H0. cbn [andb].
  destruct (JS.leb elapsed (timestamp k1)) eqn:E1; [eauto|].
  destruct rest as [|k2 rest'].
  - cbn [last] in Hhi. apply leb_true in Hhi. congruence.
  - apply (IH k1 k2 rest' eq_refl).
    + destruct (Qlt_le_dec (timestamp k1) elapsed) as [Hlt|Hle]; [lra|].
      apply leb_true in Hle. congruence.
    + exact Hhi.
Qed.

(** X5.  On a well-formed animation, an elapsed time from 0 to the last
    timestamp always falls into a pair of adjacent keyframes, and the
    progress within that pair lies in [0, 1]: inside its range the
    interpolation never extrapolates. *)
Theorem interpolation_stays_inside (a : AvatarAnimation) (elapsed : number)
    (first : AvatarKeyframe)
    (Hwf : well_formed a)
    (Hfirst : hd_error (keyframes a) = Some first)
    (Hlo : 0 <= elapsed)
    (Hhi : elapsed <= timestamp (last (keyframes a) first)) :
  exists p n,
    find_bracket elapsed (keyframes a) = Some (p, n)
    /\ surrounding (keyframes a) elapsed = Some (p, n)
    /\ timestamp p <= elapsed /\ elapsed <= timestamp n
    /\ 0 <= progress_of p n elapsed /\ progress_of p n elapsed <= 1.
Proof.
  destruct Hwf as (Hlen & _ & _ & H0).
  destruct (keyframes a) as [|k0 [|k1 rest]] eqn:E; cbn in Hlen; try lia.
  injection Hfirst as <-. specialize (H0 k0 eq_refl).
  destruct (find_bracket_exists elapsed k0 (k0 :: k1 :: rest) k0 k1 rest eq_refl)
    as (p & n & Hb); [lra | exact Hhi |].
  destruct (find_bracket_sound _ _ _ _ Hb) as (Hp & Hn).
  destruct (progress_of_unit p n elapsed Hp Hn) as (Hu0 & Hu1).
  exists p, n. unfold surrounding. rewrite Hb. auto 10.
Qed.

Lemma lerp_toward (a b p : number) :
  0 <= p -> toward a b (lerp a b p).
Proof.
  intros H0. unfold toward, lerp. split; intros H; nra.
Qed.

Lemma lerp_gesture_toward (g h : Gesture) (p : number) :
  0 <= p -> gesture_toward g h (lerp_gesture g h p).
Proof.
  intros H0. unfold gesture_toward, limb_toward; cbn [lerp_gesture lerp_limb
    leftArm rightArm head head_rotation x y rotation].
  split; [split; [|split] | split; [split; [|split] | ]];
    apply lerp_toward; exact H0.
Qed.

(** X6.  Whenever the loop finds a bracketing pair, the elapsed time is
    reported as the timestamp, and no coordinate of the interpolated
    pose leaves the earlier keyframe's value on the side away from the
    later keyframe's: it is not below the earlier value when the later
    one is not, not above it when the later one is not, and a coordinate
    on which the two keyframes agree keeps its value. *)
Theorem interpolatePose_toward (a : AvatarAnimation) (elapsed : number)
    (p n : AvatarKeyframe) (gp gn : Gesture)
    (Hb : find_bracket elapsed (keyframes a) = Some (p, n))
    (Hp : pose p = Some gp) (Hn : pose n = Some gn) :
  exists q g,
    interpolatePose (Some a) elapsed = Some q
    /\ timestamp q = elapsed
    /\ pose q = Some g
    /\ gesture_toward gp gn g.
Proof.
  assert (Hs : surrounding (keyframes a) elapsed = Some (p, n)).
  { unfold surrounding. rewrite Hb. destruct (keyframes a); [discriminate | reflexivity]. }
  destruct (find_bracket_sound _ _ _ _ Hb) as (Hlo & Hhi).
  destruct (progress_of_unit p n elapsed Hlo Hhi) as (H0 & H1).
  eexists. eexists.
  split; [apply (interpolatePose_surrounding a elapsed p n gp gn Hs Hp Hn)|].
  split; [reflexivity|]. split; [reflexivity|].
  apply lerp_gesture_toward; assumption.
Qed.

Lemma progress_of_at_end (p n : AvatarKeyframe) (elapsed : number) :
  timestamp p < timestamp n -> elapsed == timestamp n ->
  progress_of p n elapsed == 1.
Proof.
  intros Hlt H. unfold progress_of.
  assert (E : JS.gtb (timestamp n - timestamp p) 0 = true)
    by (apply gtb_true; lra).
  rewrite E, H. field. lra.
Qed.

(** X7.  On a sorted animation, at the timestamp of a keyframe that
    comes later than its predecessor the loop picks the predecessor and
    that keyframe, the progress is 1, and the result is a keyframe with
    a pose that carries the elapsed time and that keyframe's
    expression. *)
Theorem interpolatePose_at_keyframe (a : AvatarAnimation)
    (pre post : list AvatarKeyframe) (ki kj : AvatarKeyframe)
    (gi gj : Gesture) (elapsed : number)
    (Hsorted : StronglySorted Qle (map timestamp (keyframes a)))
    (Hk : keyframes a = pre ++ ki :: kj :: post)
    (Hi : pose ki = Some gi) (Hj : pose kj = Some gj)
    (Hlt : timestamp ki < timestamp kj)
    (He : elapsed == timestamp kj) :
  surrounding (keyframes a) elapsed = Some (ki, kj)
  /\ progress_of ki kj elapsed == 1
  /\ exists q,
       interpolatePose (Some a) elapsed = Some q
       /\ timestamp q = elapsed
       /\ expression q = expression kj
       /\ pose q <> None.
Proof.
  rewrite Hk in Hsorted.
  assert (Hb : find_bracket elapsed (keyframes a) = Some (ki, kj)).
  { rewrite Hk. apply find_bracket_sorted; [exact Hsorted | lra | lra]. }
  assert (Hs : surrounding (keyframes a) elapsed = Some (ki, kj)).
  { unfold surrounding. rewrite Hb, Hk. destruct pre; reflexivity. }
  pose proof (progress_of_at_end ki kj elapsed Hlt He) as Hp.
  split; [exact Hs|]. split; [exact Hp|].
  eexists. split; [apply (interpolatePose_surrounding a elapsed ki kj gi gj Hs Hi Hj)|].
  cbn [timestamp expression pose].
  split; [reflexivity|]. split; [|discriminate].
  rewrite (ltb_proper _ 1 0.5 Hp). reflexivity.
Qed.

End InterpolationMore.

Section SynthesisPlayed.

Import AvatarService.
Local Open Scope list_scope.

Variable rand : nat -> number.

Lemma find_bracket_below (elapsed : number) (kfs : list AvatarKeyframe) :
  Forall (fun k => elapsed < timestamp k) kfs -> find_bracket elapsed kfs = None.
Proof.
  induction 1 as [|k0 kfs H0 _ IH]; [reflexivity|].
  destruct kfs as [|k1 rest]; [reflexivity|]. cbn [find_bracket].
  assert (E : JS.geb elapsed (timestamp k0) = false).
  { destruct (JS.geb elapsed (timestamp k0)) eqn:E; [|reflexivity].
    apply geb_true in E. lra. }
  rewrite E. exact IH.
Qed.

Lemma find_bracket_above (elapsed : number) (kfs : list AvatarKeyframe) :
  Forall (fun k => timestamp k < elapsed) kfs -> find_bracket elapsed kfs = None.
Proof.
  induction 1 as [|k0 kfs H0 Hrest IH]; [reflexivity|].
  destruct kfs as [|k1 rest]; [reflexivity|]. cbn [find_bracket].
  inversion Hrest as [|? ? H1 _]; subst.
  assert (E : JS.leb elapsed (timestamp k1) = false).
  { destruct (JS.leb elapsed (timestamp k1)) eqn:E; [|reflexivity].
    apply leb_true in E. lra. }
  rewrite E, andb_false_r. exact IH.
Qed.

Lemma textToAnimation_stamp_range (text : string) (r : nat) :
  let a := fst (textToAnimation rand text r) in
  Forall (fun k => 0 <= timestamp k /\ timestamp k <= duration a) (keyframes a).
Proof.
  intros a.
  destruct (textToAnimation_stamps rand text r) as (Hst & Hd & _). fold a in Hst, Hd.
  apply Forall_map with (f := timestamp)
                        (P := fun q => 0 <= q /\ q <= duration a).
  rewrite Hst, Hd. set (n := List.length (words_of text)).
  pose proof (ticks_from_lower n 0) as Hlo.
  pose proof (ticks_from_upper n 0) as Hhi.
  assert (Hd0 : 0 <= inject_Z (500 * Z.of_nat (S n))).
  { change 0 with (inject_Z 0). rewrite <- Zle_Qle. lia. }
  constructor; [split; [lra | exact Hd0]|].
  apply Forall_app. split.
  - rewrite Forall_forall in *. intros q Hq.
    specialize (Hlo q Hq). specialize (Hhi q Hq). cbn in Hlo, Hhi.
    change (inject_Z 0) with 0 in Hlo. split; [exact Hlo | exact Hhi].
  - repeat constructor; [exact Hd0 | lra].
Qed.

Lemma lerp_neutral (progress : number) :
  gesture_eq (lerp_gesture neutral_pose neutral_pose progress) neutral_pose.
Proof.
  unfold gesture_eq, limb_eq, lerp; cbn. repeat split; ring.
Qed.

(** Outside the stamps the pair is the first and the last keyframe, both
    of them the rest keyframe. *)
Lemma textToAnimation_fallback (text : string) (r : nat) (elapsed : number) :
  let a := fst (textToAnimation rand text r) in
  find_bracket elapsed (keyframes a) = None ->
  interpolatePose (Some a) elapsed =
  Some {| timestamp := elapsed;
          pose := Some (lerp_gesture neutral_pose neutral_pose
                          (progress_of (neutral_keyframe 0)
                             (neutral_keyframe (duration a)) elapsed));
          expression := neutral |}.
Proof.
  intros a Hb.
  destruct (textToAnimation_stamps rand text r) as (_ & _ & Hhd & Hlast).
  fold a in Hhd, Hlast.
  assert (Hs : surrounding (keyframes a) elapsed
               = Some (neutral_keyframe 0, neutral_keyframe (duration a))).
  { unfold surrounding. rewrite Hb.
    destruct (keyframes a) as [|k0 rest]; [discriminate|].
    injection Hhd as ->. rewrite Hlast. reflexivity. }
  rewrite (interpolatePose_surrounding a elapsed _ _ neutral_pose neutral_pose Hs
             eq_refl eq_refl).
  cbn [expression neutral_keyframe].
  destruct (JS.ltb _ 0.5); reflexivity.
Qed.

(** X8.  Before 0 and after the duration (a clock that stepped back, a
    late frame) every synthesized animation interpolates to the rest
    keyframe, whatever its words are. *)
Theorem textToAnimation_out_of_range (text : string) (r : nat) (elapsed : number)
    (Hout : elapsed < 0
            \/ duration (fst (textToAnimation rand text r)) < elapsed) :
  exists q,
    interpolatePose (Some (fst (textToAnimation rand text r))) elapsed = Some q
    /\ keyframe_eq q (neutral_keyframe elapsed).
Proof.
  set (a := fst (textToAnimation rand text r)) in *.
  pose proof (textToAnimation_stamp_range text r) as Hr. fold a in Hr. cbv zeta in Hr.
  assert (Hb : find_bracket elapsed (keyframes a) = None).
  { destruct Hout as [Hneg | Hlate].
    - apply find_bracket_below. eapply Forall_impl; [|exact Hr].
      cbv beta. intros k Hk. lra.
    - apply find_bracket_above. eapply Forall_impl; [|exact Hr].
      cbv beta. intros k Hk. lra. }
  eexists. split; [apply (textToAnimation_fallback text r elapsed Hb)|].
  unfold keyframe_eq. cbn [timestamp expression pose neutral_keyframe].
  split; [reflexivity|]. split; [reflexivity|]. apply lerp_neutral.
Qed.






End SynthesisPlayed.

(** * Further properties of the playback *)

Section PlaybackMore.

Import AvatarService.
Local Open Scope list_scope.

Lemma prototype_key_not_tabled (w : string) :
  JS.includes JS.Object_prototype_keys w = true ->
  JS.own_property gestures w = None.
Proof.
  intros Hw. unfold gestures. cbn [JS.own_property].
  repeat match goal with
         | |- context [String.eqb ?k w] =>
             let E := fresh "E" in
             destruct (String.eqb k w) eqn:E;
             [apply String.eqb_eq in E; subst w; discriminate Hw|]
         end.
  reflexivity.
Qed.

(** X10.  When the first word of a text is the name of a member of
    [Object.prototype] ("constructor", "__proto__"), its keyframe has no
    pose fields: interpolating anywhere in the first 500 ms raises the
    TypeError, so a playback on a set-up canvas dies in its first tick.
    Nothing is drawn or scheduled, the promise is never resolved and
    [isAnimating] stays true. *)
Theorem prototype_word_stalls (rand : nat -> number) (text : string) (r : nat)
    (w0 : string) (rest : list string)
    (Hwords : words_of text = w0 :: rest)
    (Hproto : JS.includes JS.Object_prototype_keys w0 = true) :
  let a := fst (textToAnimation rand text r) in
  (forall elapsed, 0 <= elapsed -> elapsed <= 500 ->
     interpolatePose (Some a) elapsed = None)
  /\ (forall w started,
        canvasReady (service w) = true ->
        let w' := playAnimation a started started w in
        thrown w' = thrown w ++ [calls w]
        /\ settled w' = settled w
        /\ scheduled w' = scheduled w
        /\ renders w' = renders w
        /\ isAnimating (service w') = true).
Proof.
  intros a.
  assert (Hg : getGestureForWord rand w0 r = (None, r)).
  { unfold getGestureForWord, JS.get.
    rewrite (prototype_key_not_tabled w0 Hproto), Hproto. reflexivity. }
  assert (Hk : exists more,
             keyframes a
             = neutral_keyframe 0
               :: {| timestamp := 0 + 500; pose := None;
                     expression := getExpressionForWord w0 |} :: more).
  { subst a. unfold textToAnimation. cbn [fst keyframes].
    fold (words_of text). rewrite Hwords. cbn [fold_left].
    set (st1 := word_step rand _ w0).
    destruct (forEach_words rand rest st1 500) as (_ & added & Hf & _).
    { subst st1. rewrite word_step_time. reflexivity. }
    rewrite Hf. subst st1. rewrite word_step_unfold. cbn [frames draws currentTime].
    rewrite Hg. cbn [fst app]. eexists. reflexivity. }
  destruct Hk as (more & Hk).
  assert (Hthrow : forall elapsed, 0 <= elapsed -> elapsed <= 500 ->
                     interpolatePose (Some a) elapsed = None).
  { intros elapsed Hlo Hhi. unfold interpolatePose, surrounding.
    rewrite Hk. cbn [find_bracket timestamp neutral_keyframe].
    assert (E0 : JS.geb elapsed 0 = true) by (apply geb_true; exact Hlo).
    assert (E1 : JS.leb elapsed (0 + 500) = true) by (apply leb_true; lra).
    rewrite E0, E1. reflexivity. }
  split; [exact Hthrow|].
  intros w started Hc w'. subst w'. unfold playAnimation, animate.
  cbn [service isAnimating currentAnimation animationStartTime].
  destruct (textToAnimation_shape rand text r) as (_ & _ & _ & Hd). fold a in Hd.
  assert (Egeb : JS.geb (started - started) (duration a) = false).
  { destruct (JS.geb (started - started) (duration a)) eqn:E; [|reflexivity].
    apply geb_true in E. rewrite Hd in E.
    assert (H500 : inject_Z 500
                   <= inject_Z (500 * Z.of_nat
                        (S (List.length (JS.split_space (JS.toLowerCase text))))))
      by (rewrite <- Zle_Qle; lia).
    change (inject_Z 500) with 500 in H500. lra. }
  rewrite Egeb. unfold renderFrame.
  cbn [service canvasReady currentAnimation]. rewrite Hc.
  rewrite (Hthrow (started - started)) by lra.
  cbn. auto.
Qed.

Lemma accounted_add_scheduled (id : nat) (s t u : list nat) :
  Permutation ((s ++ [id]) ++ t ++ u) (id :: s ++ t ++ u).
Proof.
  rewrite <- app_assoc. cbn [app]. symmetry. apply Permutation_middle.
Qed.

Lemma accounted_add_settled (id : nat) (s t u : list nat) :
  Permutation (s ++ (t ++ [id]) ++ u) (id :: s ++ t ++ u).
Proof.
  rewrite <- app_assoc. cbn [app]. rewrite (app_assoc s t (id :: u)).
  symmetry. rewrite (app_assoc s t u). apply Permutation_middle.
Qed.

Lemma accounted_add_thrown (id : nat) (s t u : list nat) :
  Permutation (s ++ t ++ u ++ [id]) (id :: s ++ t ++ u).
Proof.
  rewrite !app_assoc. symmetry. apply Permutation_cons_append.
Qed.

(** A run of [animate] puts its closure in exactly one place. *)
Lemma animate_accounts (id : nat) (now : number) (w : World) :
  calls (animate id now w) = calls w
  /\ Permutation
       (scheduled (animate id now w) ++ settled (animate id now w)
        ++ thrown (animate id now w))
       (id :: scheduled w ++ settled w ++ thrown w).
Proof.
  unfold animate.
  destruct (isAnimating (service w));
    [destruct (currentAnimation (service w)) as [a|]|].
  - destruct (JS.geb (now - animationStartTime (service w)) (duration a)).
    + cbn. split; [reflexivity | apply accounted_add_settled].
    + unfold renderFrame.
      destruct (canvasReady (service w));
        destruct (currentAnimation (service w));
        try destruct (interpolatePose _ _);
        cbn; (split; [reflexivity|]);
        first [apply accounted_add_scheduled | apply accounted_add_thrown].
  - cbn. split; [reflexivity | apply accounted_add_settled].
  - cbn. split; [reflexivity | apply accounted_add_settled].
Qed.

Lemma step_accounted (w : World) (e : Event) :
  accounted w -> accounted (step w e).
Proof.
  unfold accounted. intros H. destruct e as [a started now | now |].
  - cbn [step]. unfold playAnimation.
    match goal with
    | |- context [animate ?i ?n ?w0] =>
        destruct (animate_accounts i n w0) as (Hc & Hp)
    end.
    rewrite Hc, Hp. cbn [calls scheduled settled thrown].
    rewrite seq_S. cbn [Nat.add].
    etransitivity; [|apply Permutation_cons_append].
    constructor. exact H.
  - cbn [step]. destruct (scheduled w) as [|id rest] eqn:E; [rewrite E; exact H|].
    destruct (animate_accounts id now (pop_scheduled w)) as (Hc & Hp).
    rewrite Hc, Hp. cbn [pop_scheduled calls scheduled settled thrown].
    rewrite E. cbn [tl]. exact H.
  - exact H.
Qed.

(** X11.  However playbacks are started, ticked and stopped, every
    closure created by [playAnimation] is in exactly one place: still
    scheduled, resolved, or ended by an exception.  No promise is
    resolved twice and no closure is scheduled twice. *)
Theorem playback_accounts (ctx_ok : bool) (es : list Event) :
  let w := run (initialize ctx_ok initial) es in
  accounted w
  /\ NoDup (scheduled w) /\ NoDup (settled w) /\ NoDup (thrown w)
  /\ (List.length (scheduled w) + List.length (settled w)
      + List.length (thrown w) = calls w)%nat.
Proof.
  intros w.
  assert (Hacc : accounted w).
  { subst w. unfold run.
    assert (H : forall w0, accounted w0 -> accounted (fold_left step es w0)).
    { induction es as [|e es' IH]; intros w0 H0; [exact H0|].
      cbn [fold_left]. apply IH, step_accounted, H0. }
    apply H. unfold accounted. cbn. constructor. }
  split; [exact Hacc|].
  unfold accounted in Hacc.
  assert (Hnd : NoDup (scheduled w ++ settled w ++ thrown w)).
  { apply (Permutation_NoDup (Permutation_sym Hacc)), seq_NoDup. }
  pose proof (Permutation_length Hacc) as Hlen.
  rewrite !length_app, length_seq in Hlen.
  repeat split.
  - apply (NoDup_app_remove_r _ _ Hnd).
  - apply NoDup_app_remove_l in Hnd. apply (NoDup_app_remove_r _ _ Hnd).
  - apply NoDup_app_remove_l in Hnd. apply (NoDup_app_remove_l _ _ Hnd).
  - lia.
Qed.

End PlaybackMore.

Section PlaybackTicks.

Import AvatarService.
Local Open Scope list_scope.

(** X12.  Once the player is inactive, letting every scheduled callback
    run resolves the promises of exactly those callbacks, in order, and
    leaves nothing scheduled; nothing is drawn and nothing throws. *)
Theorem inactive_frames_drain (times : list number) :
  forall (w : World)
         (Hinactive : isAnimating (service w) = false)
         (Hlen : List.length times = List.length (scheduled w)),
    let w' := run w (map Frame times) in
    scheduled w' = []
    /\ settled w' = settled w ++ scheduled w
    /\ thrown w' = thrown w
    /\ renders w' = renders w
    /\ isAnimating (service w') = false.
Proof.
  induction times as [|t times IH]; intros w Hinactive Hlen w'; subst w'.
  - destruct (scheduled w) eqn:E; [|discriminate].
    cbn. rewrite E, app_nil_r. auto.
  - destruct (scheduled w) as [|id rest] eqn:E; [discriminate|].
    cbn [map run fold_left step]. rewrite E.
    rewrite animate_inactive by exact Hinactive.
    set (w1 := resolve id (pop_scheduled w)).
    assert (H1 : isAnimating (service w1) = false) by exact Hinactive.
    assert (H2 : List.length times = List.length (scheduled w1)).
    { subst w1. cbn. rewrite E. cbn in Hlen |- *. lia. }
    destruct (IH w1 H1 H2) as (Hs & Hr & Ht & Hd & Hi).
    unfold run in *. rewrite Hs, Hr, Ht, Hd, Hi. subst w1. cbn. rewrite E.
    cbn [tl]. rewrite <- app_assoc. auto.
Qed.

(** X13.  A tick of an active player with a set-up canvas, before the
    duration is reached, on an animation whose keyframes all have pose
    fields: exactly one pose is drawn, the one interpolated from the
    current animation at the elapsed time, and the closure is scheduled
    again. *)
Theorem active_tick_draws_once (id : nat) (now : number) (w : World)
    (a : AvatarAnimation)
    (Hactive : isAnimating (service w) = true)
    (Hcanvas : canvasReady (service w) = true)
    (Ha : currentAnimation (service w) = Some a)
    (Hne : keyframes a <> [])
    (Hposes : Forall (fun k => pose k <> None) (keyframes a))
    (Hbefore : now - animationStartTime (service w) < duration a) :
  exists p,
    interpolatePose (Some a) (now - animationStartTime (service w)) = Some p
    /\ renders (animate id now w)
       = renders w ++ [ {| by_loop := id;
                           at_elapsed := now - animationStartTime (service w);
                           drawn := p |} ]
    /\ scheduled (animate id now w) = scheduled w ++ [id]
    /\ settled (animate id now w) = settled w
    /\ thrown (animate id now w) = thrown w
    /\ isAnimating (service (animate id now w)) = true.
Proof.
  destruct (interpolatePose_total a (now - animationStartTime (service w)) Hne Hposes)
    as (p & Hp).
  exists p. split; [exact Hp|].
  unfold animate. rewrite Hactive, Ha.
  assert (E : JS.geb (now - animationStartTime (service w)) (duration a) = false).
  { destruct (JS.geb _ _) eqn:E; [|reflexivity]. apply geb_true in E. lra. }
  rewrite E. unfold renderFrame. rewrite Hcanvas, Ha, Hp. cbn. auto.
Qed.

Lemma animate_without_canvas (id : nat) (now : number) (w : World) :
  canvasReady (service w) = false ->
  canvasReady (service (animate id now w)) = false
  /\ renders (animate id now w) = renders w
  /\ thrown (animate id now w) = thrown w.
Proof.
  intros Hc. unfold animate.
  destruct (isAnimating (service w));
    [destruct (currentAnimation (service w)) as [a|]|]; cbn; auto.
  destruct (JS.geb _ _); cbn; auto.
  unfold renderFrame. rewrite Hc. cbn. auto.
Qed.

(** X14.  Without a canvas context nothing is ever drawn and nothing
    ever throws, whatever is played, ticked or stopped; [animateText]
    does not even build the animation. *)
Theorem no_canvas_no_drawing (w : World) (es : list Event)
    (Hc : canvasReady (service w) = false) :
  renders (run w es) = renders w
  /\ thrown (run w es) = thrown w
  /\ forall rand text r started now,
       animateText rand text r started now (run w es) = (run w es, r).
Proof.
  assert (H : canvasReady (service (run w es)) = false
              /\ renders (run w es) = renders w
              /\ thrown (run w es) = thrown w).
  { revert w Hc. induction es as [|e es IH]; intros w Hc; [auto|].
    cbn [run fold_left].
    assert (Hstep : canvasReady (service (step w e)) = false
                    /\ renders (step w e) = renders w
                    /\ thrown (step w e) = thrown w).
    { destruct e as [a started now | now |]; cbn [step].
      - unfold playAnimation.
        match goal with
        | |- context [animate ?i ?n ?w0] =>
            destruct (animate_without_canvas i n w0 Hc) as (G1 & G2 & G3)
        end.
        auto.
      - destruct (scheduled w) as [|id rest]; [auto|].
        apply (animate_without_canvas id now (pop_scheduled w)). exact Hc.
      - cbn. auto. }
    destruct Hstep as (Hc1 & Hr1 & Ht1).
    destruct (IH (step w e) Hc1) as (Hc2 & Hr2 & Ht2).
    unfold run in *. rewrite Hr2, Ht2. auto. }
  destruct H as (Hc' & Hr & Ht).
  split; [exact Hr|]. split; [exact Ht|].
  intros rand text r started now. unfold animateText. rewrite Hc'. reflexivity.
Qed.

(** X15.  The delay after which the application leaves the animating
    state is at least 2000 ms and exceeds the duration of the animation
    of the same text by at least 600 ms. *)
Theorem hideDelay_covers_animation (rand : nat -> number) (text : string)
    (r : nat) :
  2000 <= App.hideDelay text
  /\ duration (fst (textToAnimation rand text r)) + 600 <= App.hideDelay text.
Proof.
  destruct (textToAnimation_shape rand text r) as (_ & _ & _ & Hd).
  fold (words_of text) in Hd. rewrite words_of_length in Hd.
  unfold App.hideDelay, JS.split_space. rewrite split_from_count.
  set (m := S (JS.count_spaces text)) in *. rewrite Hd.
  assert (Hm : inject_Z (500 * Z.of_nat (S m))
               == (inject_Z (Z.of_nat m) + 1) * 500).
  { rewrite Nat2Z.inj_succ, inject_Z_mult. unfold Z.succ.
    rewrite inject_Z_plus. change (inject_Z 500) with 500.
    change (inject_Z 1) with 1. ring. }
  assert (H1 : 1 <= inject_Z (Z.of_nat m)).
  { change 1 with (inject_Z 1). rewrite <- Zle_Qle. subst m. lia. }
  unfold JS.max.
  destruct (JS.leb (inject_Z (Z.of_nat m) * 600 + 1000) 2000) eqn:E.
  - apply leb_true in E. split; lra.
  - assert (H : 2000 < inject_Z (Z.of_nat m) * 600 + 1000).
    { destruct (Qlt_le_dec 2000 (inject_Z (Z.of_nat m) * 600 + 1000)) as [L|L];
        [exact L|]. apply leb_true in L. congruence. }
    split; lra.
Qed.

End PlaybackTicks.

(** * Further properties of the classifier *)

Section ClassifierMore.

Import GestureRecognition.
Local Open Scope list_scope.

Lemma init_apply_keeps (s : Service) (o : InitOp) :
  initialized s = true -> model s = true ->
  initialized (init_apply s o) = true /\ model (init_apply s o) = true.
Proof.
  intros Hi Hm. destruct o as [|[|]]; cbn [init_apply].
  - unfold initialize. rewrite Hi. auto.
  - cbn. auto.
  - cbn. auto.
Qed.

Lemma init_apply_model (s : Service) (o : InitOp) :
  (initialized s = true -> model s = true) ->
  initialized (init_apply s o) = true -> model (init_apply s o) = true.
Proof.
  intros H. destruct o as [|[|]]; cbn [init_apply].
  - unfold initialize. destruct (initialized s) eqn:Ei; [cbn; auto|].
    destruct (initializationPromise s); cbn; congruence.
  - reflexivity.
  - cbn. exact H.
Qed.

Lemma init_run_keeps (ops : list InitOp) :
  forall s, initialized s = true -> model s = true ->
            initialized (init_run s ops) = true /\ model (init_run s ops) = true.
Proof.
  induction ops as [|o ops IH]; intros s Hi Hm; [auto|].
  destruct (init_apply_keeps s o Hi Hm) as (Hi' & Hm').
  apply (IH _ Hi' Hm').
Qed.

Lemma init_run_model (ops : list InitOp) :
  forall s, (initialized s = true -> model s = true) ->
            initialized (init_run s ops) = true -> model (init_run s ops) = true.
Proof.
  induction ops as [|o ops IH]; intros s H; [exact H|].
  cbn [init_run fold_left]. apply (IH (init_apply s o)).
  apply init_apply_model, H.
Qed.

(** X16.  Whatever calls of [initialize] and ends of [doInitialize]
    happen: the flag [initialized] is never set without the model, and
    once it is set nothing that follows, a failing [doInitialize]
    included, unsets it, so [processFrame] does not reject again. *)
Theorem initialized_is_kept (rand : nat -> number)
    (Math_sin Math_cos : number -> number) (Math_PI : number)
    (ops more : list InitOp) (v : Video) (now : number) (r : nat)
    (Hinit : initialized (init_run fresh ops) = true) :
  model (init_run fresh ops) = true
  /\ initialized (init_run (init_run fresh ops) more) = true
  /\ exists data r',
       processFrame rand Math_sin Math_cos Math_PI
         (init_run (init_run fresh ops) more) v now r
       = (Resolved data, r').
Proof.
  assert (Hm : model (init_run fresh ops) = true).
  { apply init_run_model; [discriminate | exact Hinit]. }
  destruct (init_run_keeps more _ Hinit Hm) as (Hi' & Hm').
  split; [exact Hm|]. split; [exact Hi'|].
  unfold processFrame. rewrite Hi', Hm'. cbn [negb orb].
  destruct (Qeq_bool (videoWidth v) 0 || Qeq_bool (videoHeight v) 0)%bool;
    [eauto|].
  cbv zeta. destruct (simulateGestureRecognition _ _ _) as [g r1]. eauto.
Qed.

(** X17.  Memoization and retry.  On a service that is not initialized
    and has no initialization in flight, a call starts one and a second
    call made before it ends joins it without starting another; after a
    failure the next call starts afresh; after a success every call
    returns at once and changes nothing. *)
Theorem initialize_memoizes (s : Service)
    (Hi : initialized s = false) (Hp : initializationPromise s = false) :
  snd (initialize s) = Started
  /\ initialize (fst (initialize s)) = (fst (initialize s), SharesPending)
  /\ snd (initialize (doInitialize false (fst (initialize s)))) = Started
  /\ initialize (doInitialize true (fst (initialize s)))
     = (doInitialize true (fst (initialize s)), AlreadyInitialized).
Proof.
  unfold initialize. rewrite Hi, Hp. cbn. auto.
Qed.

(** X18.  An initialized classifier on a frame with non-zero intrinsic
    width and height, with the two draws it makes in [0, 1): the answer
    is a sample with 21 landmarks, one of the ten labels and a
    confidence from 0.6 to 1, and exactly two draws are consumed. *)
Theorem processFrame_sample (rand : nat -> number)
    (Math_sin Math_cos : number -> number) (Math_PI : number)
    (s : Service) (v : Video) (now : number) (r : nat)
    (Hi : initialized s = true) (Hm : model s = true)
    (Hw : ~ videoWidth v == 0) (Hh : ~ videoHeight v == 0)
    (Hr0 : 0 <= rand r /\ rand r < 1)
    (Hr1 : 0 <= rand (S r) /\ rand (S r) < 1) :
  exists d,
    processFrame rand Math_sin Math_cos Math_PI s v now r
    = (Resolved (Some d), S (S r))
    /\ List.length (landmarks d) = 21%nat
    /\ In (gesture d) labels
    /\ 0.6 <= confidence d /\ confidence d <= 1.
Proof.
  unfold processFrame. rewrite Hi, Hm. cbn [negb orb].
  assert (Ew : Qeq_bool (videoWidth v) 0 = false).
  { destruct (Qeq_bool (videoWidth v) 0) eqn:E; [|reflexivity].
    apply Qeq_bool_iff in E. contradiction. }
  assert (Eh : Qeq_bool (videoHeight v) 0 = false).
  { destruct (Qeq_bool (videoHeight v) 0) eqn:E; [|reflexivity].
    apply Qeq_bool_iff in E. contradiction. }
  rewrite Ew, Eh. cbn [orb].
  pose proof (simulateGestureRecognition_label rand
                (extractHandLandmarks Math_sin Math_cos Math_PI v now) r
                (proj1 Hr0) (proj2 Hr0)) as Hl.
  unfold simulateGestureRecognition in *. cbn [fst] in Hl.
  eexists. split; [reflexivity|].
  cbn [landmarks gesture confidence].
  split; [unfold extractHandLandmarks; rewrite length_map, length_seq; reflexivity|].
  split; [exact Hl|]. destruct Hr1. split; lra.
Qed.

(** X19.  With sine and cosine in [-1, 1], every landmark of
    [extractHandLandmarks] lies within 70 of the point
    (width / 2, height / 2) in each coordinate. *)
Theorem extractHandLandmarks_box
    (Math_sin Math_cos : number -> number) (Math_PI : number)
    (v : Video) (now : number)
    (Hsin : forall t, -1 <= Math_sin t /\ Math_sin t <= 1)
    (Hcos : forall t, -1 <= Math_cos t /\ Math_cos t <= 1) :
  Forall (fun lm =>
            (width v * 0.5 - 70 <= fst lm /\ fst lm <= width v * 0.5 + 70)
            /\ (height v * 0.5 - 70 <= snd lm /\ snd lm <= height v * 0.5 + 70))
         (extractHandLandmarks Math_sin Math_cos Math_PI v now).
Proof.
  unfold extractHandLandmarks. apply Forall_forall. intros lm Hin.
  apply in_map_iff in Hin. destruct Hin as (i & <- & _). cbn [fst snd].
  set (i' := inject_Z (Z.of_nat i)).
  set (radius := 50 + Math_sin (now * 0.001 + i') * 20).
  set (angle := i' / 21 * Math_PI * 2 + now * 0.001 * 0.5).
  pose proof (Hsin (now * 0.001 + i')) as (Hs1 & Hs2).
  pose proof (Hsin angle) as (Ha1 & Ha2).
  pose proof (Hcos angle) as (Hc1 & Hc2).
  assert (Hr : 30 <= radius /\ radius <= 70) by (subst radius; split; lra).
  destruct Hr as (Hr1 & Hr2).
  split; split; nra.
Qed.

End ClassifierMore.

(** * Further properties of the gesture queue *)

Section QueueMore.

Import VideoInput.
Local Open Scope list_scope.

Lemma enqueue_cons (b g : string) (q : list string) :
  q <> [] -> enqueue (b :: q) g = b :: enqueue q g.
Proof.
  intros Hq. induction q as [|l q' _] using rev_ind; [congruence|].
  rewrite app_comm_cons, !enqueue_snoc.
  destruct (String.eqb l g); reflexivity.
Qed.

Lemma compress_nonempty (a : string) (l : list string) : compress (a :: l) <> [].
Proof.
  revert a. induction l as [|b l IH]; intros a; [discriminate|].
  cbn [compress]. destruct (String.eqb a b); [apply IH | discriminate].
Qed.

Lemma compress_cons2 (a b : string) (l : list string) :
  compress (a :: b :: l)
  = if String.eqb a b then compress (b :: l) else a :: compress (b :: l).
Proof. reflexivity. Qed.

Lemma compress_snoc (l : list string) (g : string) :
  compress (l ++ [g]) = enqueue (compress l) g.
Proof.
  induction l as [|a l IH]; [reflexivity|].
  destruct l as [|b l'].
  - cbn. destruct (String.eqb a g) eqn:E; [|reflexivity].
    apply String.eqb_eq in E. subst. reflexivity.
  - change ((a :: b :: l') ++ [g]) with (a :: b :: (l' ++ [g])).
    rewrite !compress_cons2.
    change (b :: l' ++ [g]) with ((b :: l') ++ [g]).
    rewrite IH. destruct (String.eqb a b); [reflexivity|].
    rewrite enqueue_cons; [reflexivity | apply compress_nonempty].
Qed.

Lemma submits_fold (ds : list (option GestureData)) :
  forall s,
    gestureQueue (run s (map Submit ds))
    = fold_left enqueue (admitted ds) (gestureQueue s).
Proof.
  induction ds as [|[d|] ds IH]; intros s; [reflexivity| |].
  - cbn [map run fold_left apply admitted]. unfold run in IH. rewrite IH.
    unfold submit. destruct (JS.gtb (confidence d) 0.7); reflexivity.
  - cbn [map run fold_left apply admitted]. unfold run in IH. rewrite IH.
    reflexivity.
Qed.

Lemma fold_enqueue_compress (ls : list string) :
  fold_left enqueue ls [] = compress ls.
Proof.
  induction ls as [|g ls IH] using rev_ind; [reflexivity|].
  rewrite fold_left_app. cbn [fold_left]. rewrite IH, compress_snoc. reflexivity.
Qed.

(** X20.  After a start, the queue built from any sequence of
    classifier answers is the list of the labels whose confidence is
    above 0.7, in order, with every run of equal neighbours collapsed to
    one entry. *)
Theorem gestureQueue_is_compressed (s : State) (ds : list (option GestureData)) :
  gestureQueue (run (startRecording s) (map Submit ds)) = compress (admitted ds).
Proof.
  rewrite submits_fold. cbn [gestureQueue startRecording].
  apply fold_enqueue_compress.
Qed.

Lemma apply_messages (s : State) (o : Op) :
  exists added,
    messages (apply s o) = messages s ++ added
    /\ (List.length added <= (if is_stop o then 1 else 0))%nat
    /\ Forall (fun m => type m = "user"%string /\ inputMethod m = "sign"%string)
              added.
Proof.
  destruct o as [|[d|]|]; cbn [apply is_stop].
  - exists []. rewrite app_nil_r. cbn. auto.
  - exists []. rewrite app_nil_r. unfold submit.
    destruct (JS.gtb (confidence d) 0.7); cbn; auto.
  - exists []. rewrite app_nil_r. cbn. auto.
  - unfold stopRecording. destruct (gestureQueue s).
    + exists []. rewrite app_nil_r. cbn. auto.
    + eexists. split; [reflexivity|]. cbn. split; [lia|].
      repeat constructor.
Qed.

(** X21.  The transcript only grows: any sequence of start, submit and
    stop operations keeps the messages it found and appends at most one
    message per stop, each of type user with input method sign. *)
Theorem messages_append_only (ops : list Op) :
  forall s,
    exists added,
      messages (run s ops) = messages s ++ added
      /\ (List.length added <= List.length (filter is_stop ops))%nat
      /\ Forall (fun m => type m = "user"%string /\ inputMethod m = "sign"%string)
                added.
Proof.
  induction ops as [|o ops IH]; intros s.
  - exists []. rewrite app_nil_r. cbn. auto.
  - destruct (apply_messages s o) as (a1 & H1 & L1 & F1).
    destruct (IH (apply s o)) as (a2 & H2 & L2 & F2).
    exists (a1 ++ a2). cbn [run fold_left]. unfold run in *.
    rewrite H2, H1, <- app_assoc. split; [reflexivity|]. split.
    + rewrite length_app. cbn [filter].
      destruct (is_stop o); cbn [List.length]; lia.
    + apply Forall_app. auto.
Qed.

Lemma enqueue_members (P : string -> Prop) (q : list string) (g : string) :
  Forall P q -> P g -> Forall P (enqueue q g).
Proof.
  intros Hq Hg. unfold enqueue. destruct (rev q) as [|l ?].
  - apply Forall_app. auto.
  - destruct (String.eqb l g); [exact Hq|]. apply Forall_app. auto.
Qed.

Lemma labels_are_tabled :
  Forall (fun t => exists phrase,
              JS.get GestureRecognition.gestureMap t = JS.Own phrase
              /\ GestureRecognition.display t = phrase
              /\ phrase <> t)
         GestureRecognition.labels.
Proof.
  repeat constructor; eexists; (split; [reflexivity|]);
    (split; [reflexivity | discriminate]).
Qed.

(** X22.  When every submitted label is one of the classifier's ten
    labels, so is every entry of the queue, whatever the operations; and
    each such entry is an own key of the phrase table, so the text shows
    its tabled phrase, never the raw token and never an inherited
    member. *)
Theorem classifier_labels_are_phrased (ops : list Op)
    (Hops : forall o l, In o ops -> submitted_label o = Some l ->
                        In l GestureRecognition.labels) :
  Forall (fun t => In t GestureRecognition.labels
                   /\ exists phrase,
                        JS.get GestureRecognition.gestureMap t = JS.Own phrase
                        /\ GestureRecognition.display t = phrase)
         (gestureQueue (run initial ops)).
Proof.
  assert (Hq : Forall (fun t => In t GestureRecognition.labels)
                      (gestureQueue (run initial ops))).
  { unfold run.
    assert (H : forall s, Forall (fun t => In t GestureRecognition.labels)
                                 (gestureQueue s) ->
                          Forall (fun t => In t GestureRecognition.labels)
                                 (gestureQueue (fold_left apply ops s))).
    { induction ops as [|o ops IH]; intros s Hs; [exact Hs|].
      cbn [fold_left]. apply IH.
      - intros o' l Hin. apply Hops. right. exact Hin.
      - destruct o as [|[d|]|]; cbn [apply].
        + constructor.
        + unfold submit. destruct (JS.gtb (confidence d) 0.7); cbn [gestureQueue];
            [|exact Hs].
          apply enqueue_members; [exact Hs|].
          apply (Hops (Submit (Some d)) (gesture d)); [left|]; reflexivity.
        + exact Hs.
        + unfold stopRecording. destruct (gestureQueue s); [exact Hs | constructor]. }
    apply H. constructor. }
  pose proof labels_are_tabled as Ht. rewrite Forall_forall in Ht.
  eapply Forall_impl; [|exact Hq]. cbv beta. intros t Hin.
  split; [exact Hin|]. destruct (Ht t Hin) as (phrase & H1 & H2 & _). eauto.
Qed.

Lemma string_app_assoc (a b c : string) :
  ((a ++ b) ++ c = a ++ (b ++ c))%string.
Proof.
  induction a as [|ch a IH]; [reflexivity|]. cbn. rewrite IH. reflexivity.
Qed.

Lemma join_space_app (xs ys : list string) :
  xs <> [] -> ys <> [] ->
  JS.join_space (xs ++ ys)
  = (JS.join_space xs ++ " " ++ JS.join_space ys)%string.
Proof.
  intros Hx Hy. induction xs as [|a xs IH]; [congruence|].
  destruct xs as [|b xs'].
  - cbn [app JS.join_space]. destruct ys; [congruence | reflexivity].
  - change ((a :: b :: xs') ++ ys) with (a :: (b :: xs') ++ ys).
    cbn [JS.join_space]. change ((b :: xs') ++ ys) with (b :: xs' ++ ys) at 1.
    cbn [JS.join_space].
    change (b :: xs' ++ ys) with ((b :: xs') ++ ys).
    rewrite IH by discriminate.
    cbn [JS.join_space]. rewrite !string_app_assoc. reflexivity.
Qed.

(** X23.  Conversion to text goes piece by piece: the text of two
    non-empty queues put end to end is the two texts joined by one
    space, so the text of a queue never depends on how the queue was cut
    into recordings. *)
Theorem convertGestureToText_app (q1 q2 : list string)
    (H1 : q1 <> []) (H2 : q2 <> []) :
  GestureRecognition.convertGestureToText (q1 ++ q2)
  = (GestureRecognition.convertGestureToText q1 ++ " "
     ++ GestureRecognition.convertGestureToText q2)%string.
Proof.
  unfold GestureRecognition.convertGestureToText. rewrite map_app.
  apply join_space_app.
  - destruct q1; [congruence | discriminate].
  - destruct q2; [congruence | discriminate].
Qed.

(** X24.  The overlay colour follows the confidence: a sample that the
    queue admits (confidence above 0.7) is never drawn red, above 0.8 it
    is green, and red means a confidence of at most 0.6; with no tracking
    data the confidence handed to the overlay is 0. *)
Theorem overlay_colour_of_admitted (d : GestureData) :
  (0.7 < confidence d ->
     MotionDetectionOverlay.getOverlayColor
       (MotionDetectionOverlay.gestureConfidence (Some d)) <> "#EF4444"%string)
  /\ (0.8 < confidence d ->
      MotionDetectionOverlay.getOverlayColor
        (MotionDetectionOverlay.gestureConfidence (Some d)) = "#10B981"%string)
  /\ (MotionDetectionOverlay.getOverlayColor
        (MotionDetectionOverlay.gestureConfidence (Some d)) = "#EF4444"%string ->
      confidence d <= 0.6)
  /\ MotionDetectionOverlay.gestureConfidence None = 0.
Proof.
  assert (Hc : MotionDetectionOverlay.gestureConfidence (Some d) == confidence d).
  { unfold MotionDetectionOverlay.gestureConfidence.
    destruct (Qeq_bool (confidence d) 0) eqn:E; [|reflexivity].
    apply Qeq_bool_iff in E. symmetry. exact E. }
  unfold MotionDetectionOverlay.getOverlayColor.
  set (c := MotionDetectionOverlay.gestureConfidence (Some d)) in *.
  repeat apply conj.
  - intros H. destruct (JS.gtb c 0.8) eqn:E8; [discriminate|].
    destruct (JS.gtb c 0.6) eqn:E6; [discriminate|].
    apply gtb_false in E6. lra.
  - intros H. assert (E8 : JS.gtb c 0.8 = true) by (apply gtb_true; lra).
    rewrite E8. reflexivity.
  - destruct (JS.gtb c 0.8) eqn:E8; [discriminate|].
    destruct (JS.gtb c 0.6) eqn:E6; [discriminate|].
    intros _. apply gtb_false in E6. lra.
  - reflexivity.
Qed.

End QueueMore.

(** * Properties of the drawing code *)

Section DrawingMore.

Import Canvas.
Local Open Scope list_scope.

(** X25.  Rendering a frame leaves the drawing state of the context as
    it found it: the transformation, the styles and the stack of saved
    states after [renderFrame] are those before it, for every pose,
    expression and canvas size.  Frames do not pile up transformations. *)
Theorem renderFrame_restores_context (Math_PI : number) (g : Gesture)
    (e : Expression) (width height : number) (c : Context) :
  exec_all c (AvatarCanvas.renderFrame Math_PI g e width height) = c
  /\ exec_all c (AvatarCanvas.drawArm Math_PI true (leftArm g)) = c.
Proof.
  destruct c as [d st]. split.
  - destruct e; reflexivity.
  - reflexivity.
Qed.

End DrawingMore.

Section OverlayMore.

Import Canvas MotionDetectionOverlay.
Local Open Scope list_scope.

Variable rand : nat -> number.
Variable Math_sin : number -> number.
Variable Math_PI : number.

Lemma count_flat_map {A : Type} (f : A -> list Op) (keep : Op -> bool)
    (n : nat) (l : list A) :
  Forall (fun a => List.length (filter keep (f a)) = n) l ->
  List.length (filter keep (flat_map f l)) = (n * List.length l)%nat.
Proof.
  induction 1 as [|a l Ha _ IH]; [cbn; lia|].
  cbn [flat_map]. rewrite filter_app, length_app, Ha, IH. cbn [List.length]. lia.
Qed.

Lemma drawConnection_strokes (landmarks : list TrackingPoint) (c : nat * nat) :
  Forall (fun lm => 0.5 < point_confidence lm) landmarks ->
  (fst c < List.length landmarks)%nat -> (snd c < List.length landmarks)%nat ->
  List.length (filter is_stroke (drawConnection landmarks c)) = 1%nat
  /\ List.length (filter is_fill (drawConnection landmarks c)) = 0%nat.
Proof.
  intros Hc H1 H2. unfold drawConnection.
  destruct (nth_error landmarks (fst c)) as [a|] eqn:Ea;
    [|apply nth_error_None in Ea; lia].
  destruct (nth_error landmarks (snd c)) as [b|] eqn:Eb;
    [|apply nth_error_None in Eb; lia].
  rewrite Forall_forall in Hc.
  pose proof (Hc a (nth_error_In _ _ Ea)) as Ha.
  pose proof (Hc b (nth_error_In _ _ Eb)) as Hb.
  apply gtb_true in Ha, Hb. rewrite Ha, Hb. cbn. auto.
Qed.

Lemma drawLandmark_fills (color : string) (index : nat) (lm : TrackingPoint) :
  0.5 < point_confidence lm ->
  List.length (filter is_fill (drawLandmark Math_PI color index lm)) = 2%nat
  /\ List.length (filter is_stroke (drawLandmark Math_PI color index lm)) = 0%nat.
Proof.
  intros H. unfold drawLandmark. apply gtb_true in H. rewrite H. cbn. auto.
Qed.

(** What [drawHandLandmarks] paints when every landmark passes its
    confidence test and every connection names two landmarks. *)
Lemma drawHandLandmarks_counts (landmarks : list TrackingPoint)
    (conns : list (nat * nat)) (color : string) :
  Forall (fun lm => 0.5 < point_confidence lm) landmarks ->
  Forall (fun c => (fst c < List.length landmarks)%nat
                   /\ (snd c < List.length landmarks)%nat) conns ->
  List.length (filter is_stroke (drawHandLandmarks Math_PI landmarks conns color))
  = List.length conns
  /\ List.length (filter is_fill (drawHandLandmarks Math_PI landmarks conns color))
     = (2 * List.length landmarks)%nat.
Proof.
  intros Hc Hn. unfold drawHandLandmarks.
  assert (Sc : Forall (fun c => List.length (filter is_stroke (drawConnection landmarks c)) = 1%nat) conns).
  { eapply Forall_impl; [|exact Hn]. cbv beta. intros c (H1 & H2).
    apply (drawConnection_strokes landmarks c Hc H1 H2). }
  assert (Fc : Forall (fun c => List.length (filter is_fill (drawConnection landmarks c)) = 0%nat) conns).
  { eapply Forall_impl; [|exact Hn]. cbv beta. intros c (H1 & H2).
    apply (drawConnection_strokes landmarks c Hc H1 H2). }
  set (indexed := combine (seq 0 (List.length landmarks)) landmarks).
  assert (Hin : Forall (fun il => 0.5 < point_confidence (snd il)) indexed).
  { apply Forall_forall. intros [i lm] Hi. apply in_combine_r in Hi.
    rewrite Forall_forall in Hc. apply Hc, Hi. }
  assert (Fl : Forall (fun il => List.length (filter is_fill
                         (drawLandmark Math_PI color (fst il) (snd il))) = 2%nat) indexed).
  { eapply Forall_impl; [|exact Hin]. cbv beta. intros il H.
    apply (drawLandmark_fills color (fst il) (snd il) H). }
  assert (Sl : Forall (fun il => List.length (filter is_stroke
                         (drawLandmark Math_PI color (fst il) (snd il))) = 0%nat) indexed).
  { eapply Forall_impl; [|exact Hin]. cbv beta. intros il H.
    apply (drawLandmark_fills color (fst il) (snd il) H). }
  assert (Li : List.length indexed = List.length landmarks).
  { subst indexed. rewrite length_combine, length_seq. lia. }
  rewrite !filter_app, !length_app.
  rewrite (count_flat_map _ is_stroke 1 conns Sc),
          (count_flat_map _ is_fill 0 conns Fc),
          (count_flat_map _ is_fill 2 indexed Fl),
          (count_flat_map _ is_stroke 0 indexed Sl), Li.
  cbn. lia.
Qed.

(** X26.  The simulated hand has 22 landmarks, one more than the 21 the
    connections cover, and costs 22 draws; with draws that are not
    negative every landmark has confidence at least 0.8, so
    [drawHandLandmarks] skips nothing: it strokes all 23 connections and
    fills two discs for each of the 22 landmarks. *)
Theorem simulated_hand_is_drawn_whole (width height : number)
    (clock : nat -> number) (r : nat) (color : string)
    (Hrand : forall k, 0 <= rand k) :
  let hand := fst (generateSimulatedLandmarks rand Math_sin width height clock r) in
  List.length hand = 22%nat
  /\ snd (generateSimulatedLandmarks rand Math_sin width height clock r)
     = (r + 22)%nat
  /\ Forall (fun lm => 0.8 <= point_confidence lm) hand
  /\ Forall (fun c => (fst c <= 20)%nat /\ (snd c <= 20)%nat) connections
  /\ List.length (filter is_stroke
                    (drawHandLandmarks Math_PI hand connections color)) = 23%nat
  /\ List.length (filter is_fill
                    (drawHandLandmarks Math_PI hand connections color)) = 44%nat.
Proof.
  intros hand.
  assert (Hlen : List.length hand = 22%nat).
  { subst hand. unfold generateSimulatedLandmarks. cbn [fst].
    rewrite length_map, length_combine, length_seq. reflexivity. }
  assert (Hconf : Forall (fun lm => 0.8 <= point_confidence lm) hand).
  { subst hand. unfold generateSimulatedLandmarks. cbn [fst].
    apply Forall_forall. intros lm Hin. apply in_map_iff in Hin.
    destruct Hin as ([i pt] & <- & _). cbn [landmark_of point_confidence fst snd].
    pose proof (Hrand (r + i)%nat). lra. }
  assert (Hconn : Forall (fun c => (fst c <= 20)%nat /\ (snd c <= 20)%nat)
                         connections).
  { unfold connections. repeat constructor; cbn; lia. }
  destruct (drawHandLandmarks_counts hand connections color) as (Hs & Hf).
  { eapply Forall_impl; [|exact Hconf]. cbv beta. intros lm H. lra. }
  { eapply Forall_impl; [|exact Hconn]. cbv beta. intros c (H1 & H2).
    rewrite Hlen. lia. }
  rewrite Hs, Hf, Hlen. repeat split; auto.
Qed.

End OverlayMore.

(** * Further instances *)

Section MoreInstances.

Import AvatarService.
Local Open Scope list_scope.

(** "hello you" is ASCII and has only tabled words: the draws do not
    matter. *)
Lemma hello_you_draws_nothing :
  JS.is_ascii "hello you" = true
  /\ Forall (fun w => draws_random w = false) (words_of "hello you")
  /\ fst (textToAnimation no_draw "hello you" 0)
     = fst (textToAnimation (fun _ => 1 # 2) "hello you" 5)
  /\ snd (textToAnimation no_draw "hello you" 0) = 0%nat
  /\ snd (textToAnimation no_draw "foo hello" 0) = 7%nat.
Proof.
  assert (H : Forall (fun w => draws_random w = false) (words_of "hello you"))
    by (repeat constructor).
  split; [reflexivity|]. split; [exact H|].
  destruct (textToAnimation_draws no_draw (fun _ => 1 # 2) "hello you" 0 5 eq_refl)
    as (_ & Hsame).
  destruct (Hsame H) as (Hfst & Hsnd).
  split; [exact Hfst|]. split; [exact Hsnd|].
  exact (proj1 (textToAnimation_draws no_draw no_draw "foo hello" 0 0 eq_refl)).
Defined.

Lemma half_draws_in_range :
  forall n : nat, 0 <= (fun _ : nat => 1 # 2) n /\ (fun _ : nat => 1 # 2) n < 1.
Proof. intros n. split; [discriminate | reflexivity]. Defined.

(** "hi there": two untabled words, every draw one half. *)
Lemma hi_there_bounded :
  (forall n : nat, 0 <= (fun _ : nat => 1 # 2) n /\ (fun _ : nat => 1 # 2) n < 1)
  /\ Forall keyframe_bounded
       (keyframes (fst (textToAnimation (fun _ => 1 # 2) "hi there" 0))).
Proof.
  split; [exact half_draws_in_range|].
  exact (textToAnimation_bounded (fun _ => 1 # 2) "hi there" 0 half_draws_in_range).
Defined.

Lemma hello_is_usable :
  Forall (fun w => JS.includes JS.Object_prototype_keys w = false)
         (words_of "hello")
  /\ well_formed (fst (textToAnimation no_draw "hello" 0)).
Proof.
  assert (H : Forall (fun w => JS.includes JS.Object_prototype_keys w = false)
                     (words_of "hello")) by (repeat constructor).
  split; [exact H|].
  exact (proj1 (textToAnimation_usable no_draw "hello" 0 H)).
Defined.

Lemma hello_at_250_is_inside :
  well_formed hello_animation
  /\ hd_error (keyframes hello_animation) = Some (neutral_keyframe 0)
  /\ 0 <= 250
  /\ 250 <= timestamp (last (keyframes hello_animation) (neutral_keyframe 0))
  /\ exists p n,
       find_bracket 250 (keyframes hello_animation) = Some (p, n)
       /\ 0 <= progress_of p n 250 /\ progress_of p n 250 <= 1.
Proof.
  assert (H0 : 0 <= 250) by discriminate.
  assert (H1 : 250 <= timestamp (last (keyframes hello_animation)
                                      (neutral_keyframe 0)))
    by (vm_compute; discriminate).
  split; [exact hello_animation_well_formed|]. split; [reflexivity|].
  split; [exact H0|]. split; [exact H1|].
  destruct (interpolation_stays_inside hello_animation 250 (neutral_keyframe 0)
              hello_animation_well_formed eq_refl H0 H1)
    as (p & n & Hb & _ & _ & _ & Hp0 & Hp1).
  exists p, n. auto.
Defined.

Lemma hello_at_250_moves_toward_hello :
  find_bracket 250 (keyframes hello_animation)
  = Some (neutral_keyframe 0, hello_keyframe)
  /\ exists q g,
       interpolatePose (Some hello_animation) 250 = Some q
       /\ pose q = Some g
       /\ toward 0 (-30) (x (leftArm g))
       /\ toward 0 0 (head_rotation (head g)).
Proof.
  split; [reflexivity|].
  destruct (interpolatePose_toward hello_animation 250 (neutral_keyframe 0)
              hello_keyframe neutral_pose
              {| leftArm := limb (-30) (-20) 45;
                 rightArm := limb 30 (-20) (-45);
                 head := {| head_rotation := 0 |} |}
              eq_refl eq_refl eq_refl)
    as (q & g & Hq & _ & Hg & ((Hx & _) & _ & Hh)).
  exists q, g. auto.
Defined.

Lemma hello_at_500_is_the_hello_keyframe :
  StronglySorted Qle (map timestamp (keyframes hello_animation))
  /\ timestamp (neutral_keyframe 0) < timestamp hello_keyframe
  /\ 500 == timestamp hello_keyframe
  /\ progress_of (neutral_keyframe 0) hello_keyframe 500 == 1
  /\ exists q, interpolatePose (Some hello_animation) 500 = Some q
               /\ timestamp q = 500
               /\ expression q = neutral.
Proof.
  assert (Hs : StronglySorted Qle (map timestamp (keyframes hello_animation))).
  { destruct hello_animation_well_formed as (_ & _ & Hs & _). exact Hs. }
  assert (Hlt : timestamp (neutral_keyframe 0) < timestamp hello_keyframe)
    by reflexivity.
  assert (He : 500 == timestamp hello_keyframe) by reflexivity.
  split; [exact Hs|]. split; [exact Hlt|]. split; [exact He|].
  destruct (interpolatePose_at_keyframe hello_animation [] [neutral_keyframe 1000]
              (neutral_keyframe 0) hello_keyframe neutral_pose
              {| leftArm := limb (-30) (-20) 45;
                 rightArm := limb 30 (-20) (-45);
                 head := {| head_rotation := 0 |} |}
              500 Hs eq_refl eq_refl eq_refl Hlt He)
    as (_ & Hp & q & Hq & Ht & Hx & _).
  split; [exact Hp|]. exists q. auto.
Defined.

Lemma hello_after_the_end :
  duration (fst (textToAnimation no_draw "hello" 0)) < 1200
  /\ exists q,
       interpolatePose (Some (fst (textToAnimation no_draw "hello" 0))) 1200
       = Some q
       /\ keyframe_eq q (neutral_keyframe 1200).
Proof.
  assert (H : duration (fst (textToAnimation no_draw "hello" 0)) < 1200)
    by reflexivity.
  split; [exact H|].
  exact (textToAnimation_out_of_range no_draw "hello" 0 1200 (or_intror H)).
Defined.


Lemma constructor_says_hi_stalls :
  words_of "Constructor says hi" = ["constructor"; "says"; "hi"]%string
  /\ JS.includes JS.Object_prototype_keys "constructor" = true
  /\ canvasReady (service (initialize true initial)) = true
  /\ thrown (playAnimation (fst (textToAnimation no_draw "Constructor says hi" 0))
                           0 0 (initialize true initial))
     = [0%nat]
  /\ settled (playAnimation (fst (textToAnimation no_draw "Constructor says hi" 0))
                            0 0 (initialize true initial))
     = [].
Proof.
  split; [reflexivity|]. split; [reflexivity|]. split; [reflexivity|].
  destruct (prototype_word_stalls no_draw "Constructor says hi" 0
              "constructor" ["says"; "hi"]%string eq_refl eq_refl)
    as (_ & Hplay).
  destruct (Hplay (initialize true initial) 0 eq_refl) as (Ht & Hs & _).
  split; [exact Ht | exact Hs].
Defined.

Lemma stopped_loops_drain :
  isAnimating (service (stopAnimation playing_help_over_hello)) = false
  /\ List.length [116; 132]
     = List.length (scheduled (stopAnimation playing_help_over_hello))
  /\ scheduled (run (stopAnimation playing_help_over_hello)
                    (map Frame [116; 132])) = []
  /\ settled (run (stopAnimation playing_help_over_hello)
                  (map Frame [116; 132])) = [0%nat; 1%nat].
Proof.
  split; [reflexivity|]. split; [reflexivity|].
  destruct (inactive_frames_drain [116; 132]
              (stopAnimation playing_help_over_hello) eq_refl eq_refl)
    as (Hs & Hr & _).
  split; [exact Hs | exact Hr].
Defined.

Lemma hello_tick_at_16 :
  isAnimating (service playing_hello) = true
  /\ canvasReady (service playing_hello) = true
  /\ currentAnimation (service playing_hello) = Some hello_animation
  /\ 16 - animationStartTime (service playing_hello) < duration hello_animation
  /\ scheduled (animate 0 16 playing_hello) = scheduled playing_hello ++ [0%nat]
  /\ List.length (renders (animate 0 16 playing_hello))
     = S (List.length (renders playing_hello)).
Proof.
  assert (Hne : keyframes hello_animation <> []) by discriminate.
  assert (Hp : Forall (fun k => pose k <> None) (keyframes hello_animation)).
  { destruct hello_animation_well_formed as (_ & Hp & _). exact Hp. }
  assert (Hb : 16 - animationStartTime (service playing_hello)
               < duration hello_animation) by reflexivity.
  split; [reflexivity|]. split; [reflexivity|]. split; [reflexivity|].
  split; [exact Hb|].
  destruct (active_tick_draws_once 0 16 playing_hello hello_animation
              eq_refl eq_refl eq_refl Hne Hp Hb)
    as (p & _ & Hr & Hs & _).
  split; [exact Hs|]. rewrite Hr, length_app. cbn [List.length]. lia.
Defined.

Lemma play_without_canvas :
  canvasReady (service initial) = false
  /\ renders (run initial [Play hello_animation 0 0; Frame 16; Frame 32]) = [].
Proof.
  split; [reflexivity|].
  exact (proj1 (no_canvas_no_drawing initial
                  [Play hello_animation 0 0; Frame 16; Frame 32] eq_refl)).
Defined.

End MoreInstances.

Section MoreInstancesGesture.

Import GestureRecognition.
Local Open Scope list_scope.

Lemma failing_retry_keeps_initialized :
  initialized (init_run fresh [CallInitialize; Settle true]) = true
  /\ initialized (init_run (init_run fresh [CallInitialize; Settle true])
                           [CallInitialize; Settle false]) = true.
Proof.
  split; [reflexivity|].
  destruct (initialized_is_kept AvatarService.no_draw (fun t => t) (fun t => t) 3
              [CallInitialize; Settle true] [CallInitialize; Settle false]
              frame_640_480 1000 0%nat eq_refl) as (_ & H & _).
  exact H.
Defined.

Lemma fresh_service_memoizes :
  initialized fresh = false
  /\ initializationPromise fresh = false
  /\ initialize (fst (initialize fresh)) = (fst (initialize fresh), SharesPending)
  /\ snd (initialize (doInitialize false (fst (initialize fresh)))) = Started.
Proof.
  split; [reflexivity|]. split; [reflexivity|].
  destruct (initialize_memoizes fresh eq_refl eq_refl) as (_ & H1 & H2 & _).
  split; [exact H1 | exact H2].
Defined.

Lemma sample_of_a_ready_frame :
  ~ videoWidth frame_640_480 == 0
  /\ ~ videoHeight frame_640_480 == 0
  /\ exists d,
       processFrame (fun _ => 1 # 2) (fun t => t) (fun t => t) 3
         (initialized_service true) frame_640_480 1000 0
       = (Resolved (Some d), 2%nat)
       /\ List.length (landmarks d) = 21%nat
       /\ In (gesture d) labels.
Proof.
  assert (Hw : ~ videoWidth frame_640_480 == 0) by (intros H; discriminate H).
  assert (Hh : ~ videoHeight frame_640_480 == 0) by (intros H; discriminate H).
  split; [exact Hw|]. split; [exact Hh|].
  destruct (processFrame_sample (fun _ => 1 # 2) (fun t => t) (fun t => t) 3
              (initialized_service true) frame_640_480 1000 0%nat
              eq_refl eq_refl Hw Hh
              (half_draws_in_range 0%nat) (half_draws_in_range 1%nat))
    as (d & Hd & Hl & Hg & _).
  exists d. auto.
Defined.

End MoreInstancesGesture.

Section MoreInstancesQueue.

Import VideoInput.
Local Open Scope list_scope.

Lemma landmarks_of_a_still_hand :
  (forall t : number, -1 <= (fun _ : number => 0) t /\ (fun _ : number => 0) t <= 1)
  /\ (forall t : number, -1 <= (fun _ : number => 1) t /\ (fun _ : number => 1) t <= 1)
  /\ Forall (fun lm => (320 - 70 <= fst lm /\ fst lm <= 320 + 70)
                       /\ (240 - 70 <= snd lm /\ snd lm <= 240 + 70))
            (GestureRecognition.extractHandLandmarks
               (fun _ => 0) (fun _ => 1) 3 GestureRecognition.frame_640_480 1000).
Proof.
  assert (Hs : forall t : number,
             -1 <= (fun _ : number => 0) t /\ (fun _ : number => 0) t <= 1)
    by (intros t; split; discriminate).
  assert (Hc : forall t : number,
             -1 <= (fun _ : number => 1) t /\ (fun _ : number => 1) t <= 1)
    by (intros t; split; discriminate).
  split; [exact Hs|]. split; [exact Hc|].
  pose proof (extractHandLandmarks_box (fun _ => 0) (fun _ => 1) 3
                GestureRecognition.frame_640_480 1000 Hs Hc) as H.
  eapply Forall_impl; [|exact H]. cbv beta.
  intros lm ((H1 & H2) & (H3 & H4)).
  cbn [GestureRecognition.width GestureRecognition.height
       GestureRecognition.frame_640_480] in H1, H2, H3, H4.
  repeat apply conj; lra.
Defined.

Lemma hello_recorded_is_phrased :
  (forall o l,
      In o [Start; Submit (Some (sample "hello" 0.9)); Submit None] ->
      submitted_label o = Some l -> In l GestureRecognition.labels)
  /\ Forall (fun t => In t GestureRecognition.labels
                      /\ exists phrase,
                           JS.get GestureRecognition.gestureMap t = JS.Own phrase
                           /\ GestureRecognition.display t = phrase)
            (gestureQueue
               (run initial [Start; Submit (Some (sample "hello" 0.9)); Submit None])).
Proof.
  assert (H : forall o l,
             In o [Start; Submit (Some (sample "hello" 0.9)); Submit None] ->
             submitted_label o = Some l -> In l GestureRecognition.labels).
  { intros o l [<- | [<- | [<- | []]]] Hl; cbn in Hl; try discriminate Hl.
    injection Hl as <-. left. reflexivity. }
  split; [exact H|].
  exact (classifier_labels_are_phrased
           [Start; Submit (Some (sample "hello" 0.9)); Submit None] H).
Defined.

Lemma hello_then_help_text :
  ["hello"%string] <> [] /\ ["help"%string] <> []
  /\ GestureRecognition.convertGestureToText ["hello"; "help"]%string
     = "Hello I need help"%string.
Proof.
  assert (H1 : ["hello"%string] <> []) by discriminate.
  assert (H2 : ["help"%string] <> []) by discriminate.
  split; [exact H1|]. split; [exact H2|].
  exact (convertGestureToText_app ["hello"%string] ["help"%string] H1 H2).
Defined.

Lemma admitted_sample_is_not_red :
  0.7 < confidence (sample "a" 0.75)
  /\ MotionDetectionOverlay.getOverlayColor
       (MotionDetectionOverlay.gestureConfidence (Some (sample "a" 0.75)))
     <> "#EF4444"%string.
Proof.
  assert (H : 0.7 < confidence (sample "a" 0.75)) by reflexivity.
  split; [exact H|].
  exact (proj1 (overlay_colour_of_admitted (sample "a" 0.75)) H).
Defined.

Lemma still_hand_is_drawn_whole :
  (forall k : nat, 0 <= (fun _ : nat => 0) k)
  /\ List.length
       (filter Canvas.is_stroke
          (MotionDetectionOverlay.drawHandLandmarks 3
             (fst (MotionDetectionOverlay.generateSimulatedLandmarks
                     (fun _ => 0) (fun _ => 0) 640 480 (fun _ => 1000) 0))
             MotionDetectionOverlay.connections "#10B981"))
     = 23%nat.
Proof.
  assert (H : forall k : nat, 0 <= (fun _ : nat => 0) k)
    by (intros k; discriminate).
  split; [exact H|].
  destruct (simulated_hand_is_drawn_whole (fun _ => 0) (fun _ => 0) 3
              640 480 (fun _ => 1000) 0%nat "#10B981" H)
    as (_ & _ & _ & _ & Hs & _).
  exact Hs.
Defined.

End MoreInstancesQueue.
